(** * WHO SMART Guidelines explorer: a shallow embedding of [smart_explore.py]

    The development follows the Python module top-down:
    - [Py]: the fragment of Python's data model the script relies on (JSON
      values, truthiness, [dict.get], iteration, exceptions);
    - [Unicode]: the text of a page, a sequence of code points, and what
      the script asks of Python's Unicode database about them;
    - [Re]: the fragment of the [re] module its patterns are written in
      (a backtracking matcher with capture groups, [search], [findall],
      [sub]);
    - [Str]: the [str] methods it calls on the text of a page;
    - [Http]: the [requests] calls, as a small monad over a log of the
      requests made and a network that answers them;
    - [SMARTGuidelinesClient]: the methods of the class of that name.

    Two kinds of strings occur. The text of a page, which the script
    matches, strips, measures and lower-cases, is a [Unicode.str]: a list
    of code points. URLs and the strings of a JSON document, which it only
    compares, joins and hands on, are [string]s. Console output ([print])
    is not modelled. *)

From Stdlib Require Import ZArith NArith Ascii String List.
From stdpp Require Import base decidable option list sorting gmap strings.

Set Warnings "-register-all".
Local Open Scope Z_scope.

(* ================================================================== *)
(** * Python values, exceptions and results *)
(* ================================================================== *)

Module Py.

(** Exceptions are told apart only by what [except requests.RequestException]
    tells apart: whether the class derives from [RequestException]
    (ConnectionError, Timeout, requests' own JSONDecodeError, ...) or not
    (AttributeError, TypeError, ValueError, ...). [cls] is the class name. *)
Inductive exn : Type :=
| RequestException (cls : string)
| OtherException (cls : string).

Definition isinstance_RequestException (e : exn) : bool :=
  match e with
  | RequestException _ => true
  | OtherException _ => false
  end.

Definition AttributeError : exn := OtherException "AttributeError".
Definition TypeError : exn := OtherException "TypeError".

(** The result of running a piece of Python: a value or a raised exception. *)
Inductive outcome (A : Type) : Type :=
| Return (a : A)
| Raise (e : exn).
Arguments Return {A} a.
Arguments Raise {A} e.

Definition bind {A B} (x : outcome A) (f : A → outcome B) : outcome B :=
  match x with
  | Return a => f a
  | Raise e => Raise e
  end.

(** The values [json.loads] produces. [VNone] is Python's [None]; a float is
    kept as mantissa and exponent, since the script only tests numbers for
    truth. A dict is an association list in insertion order. *)
Inductive value : Type :=
| VNone
| VBool (b : bool)
| VInt (n : Z)
| VFloat (mantissa exponent : Z)
| VStr (s : string)
| VList (l : list value)
| VDict (d : list (string * value)).

(** [bool(v)], as used by [if not v]. *)
Definition truthy (v : value) : bool :=
  match v with
  | VNone => false
  | VBool b => b
  | VInt n => negb (Z.eqb n 0)
  | VFloat m _ => negb (Z.eqb m 0)
  | VStr s => negb (String.eqb s "")
  | VList l => match l with [] => false | _ => true end
  | VDict d => match d with [] => false | _ => true end
  end.

Fixpoint dict_lookup (d : list (string * value)) (key : string) : option value :=
  match d with
  | [] => None
  | (k, v) :: d' => if String.eqb k key then Some v else dict_lookup d' key
  end.

(** [v.get(key, default)]: only a dict has the method. *)
Definition get (v : value) (key : string) (dflt : value) : outcome value :=
  match v with
  | VDict d => Return (default dflt (dict_lookup d key))
  | _ => Raise AttributeError
  end.

(** What [for x in v] runs over: the items of a list, the characters of a
    string, the keys of a dict; anything else is not iterable. *)
Definition iterate (v : value) : outcome (list value) :=
  match v with
  | VList l => Return l
  | VStr s => Return ((λ c, VStr (String c EmptyString)) <$> list_ascii_of_string s)
  | VDict d => Return ((λ kv, VStr kv.1) <$> d)
  | _ => Raise TypeError
  end.

(** Run [f] on the items in order, stopping at the first exception. *)
Fixpoint for_append {A B} (f : A → outcome B) (l : list A) : outcome (list B) :=
  match l with
  | [] => Return []
  | x :: l' =>
      match f x with
      | Return y =>
          match for_append f l' with
          | Return ys => Return (y :: ys)
          | Raise e => Raise e
          end
      | Raise e => Raise e
      end
  end.

End Py.

(* ================================================================== *)
(** * Text and the Unicode database *)
(* ================================================================== *)

Module Unicode.

(** A character of a [str] is a code point. *)
Definition char : Type := N.
Definition str : Type := list char.

Definition code (c : ascii) : char := N_of_ascii c.
Arguments code : simpl never.

(** The text of a string literal of the script; its literals are ASCII. *)
Definition u (s : string) : str := code <$> list_ascii_of_string s.

Definition is_ascii (x : char) : bool := (x <? 128)%N.

Definition between (lo hi x : N) : bool := ((lo <=? x) && (x <=? hi))%N.

(** What Python says of a code point beyond ASCII comes from its Unicode
    database, whose tables differ from one version of Python to the next.
    The script reaches it in four ways, and each is a parameter here, asked
    about code points from 128 on only:
    - [db_isspace x]: [str.isspace] of the character, which is what the
      class \s of a [str] pattern matches and what [strip] removes;
    - [db_isalnum x]: [str.isalnum] of the character; with the underscore
      this is the class \w;
    - [db_folds_to x l]: under IGNORECASE the character matches the ASCII
      letter whose lower-case form is [l], because its own lower-case form
      is [l] or one the [re] module takes for [l];
    - [db_lower before x after]: what [str.lower] makes of the character
      between [before] and [after]; it may be several characters, and for
      the capital sigma it depends on the text around it. *)
Class Database : Type := {
  db_isspace : char → bool;
  db_isalnum : char → bool;
  db_folds_to : char → char → bool;
  db_lower : str → char → str → str;
}.

(** The database of Python 3.11 as far as the examples need it. Its white
    space and its folding to ASCII letters (the two Turkish i's U+0130 and
    U+0131, the long s U+017F and the Kelvin sign U+212A) are those of
    Python 3.11 for every code point; its letters, digits and lower-case
    forms are those of Python 3.11 for the code points below 256 and for
    these four characters, and it knows of no other letters. *)
Definition python311_latin1 : Database :=
{| db_isspace x :=
     bool_decide (x ∈ [133; 160; 5760; 8232; 8233; 8239; 8287; 12288]%N)
     || between 8192 8202 x;
   db_isalnum x :=
     bool_decide (x ∈ [170; 178; 179; 181; 185; 186; 188; 189; 190;
                       304; 305; 383; 8490]%N)
     || between 192 214 x || between 216 246 x || between 248 255 x;
   db_folds_to x l :=
     (bool_decide (x ∈ [304; 305]%N) && (l =? 105)%N)
     || ((x =? 383) && (l =? 115))%N
     || ((x =? 8490) && (l =? 107))%N;
   db_lower _ x _ :=
     if between 192 214 x || between 216 222 x then [(x + 32)%N]
     else if (x =? 304)%N then [105; 775]%N
     else if (x =? 8490)%N then [107%N]
     else [x] |}.

End Unicode.

(* ================================================================== *)
(** * The fragment of the [re] module used by the script *)
(* ================================================================== *)

Module Re.
Import Unicode.

(** ** Characters *)

Section Characters.
Context {db : Database}.

(** [str.isspace] on one character, which is also the class \s of a [str]
    pattern. In ASCII: TAB LF VT FF CR, the four separators FS GS RS US,
    and SPACE. *)
Definition isspace (x : char) : bool :=
  if is_ascii x then between 9 13 x || between 28 32 x else db_isspace x.

(** The ASCII capitals, small letters and digits: the ranges A-Z, a-z and
    0-9 of a pattern. *)
Definition isupper (x : char) : bool := between 65 90 x.
Definition islower (x : char) : bool := between 97 122 x.
Definition isdigit (x : char) : bool := between 48 57 x.

(** The class \w: letters, digits and the underscore. *)
Definition isword (x : char) : bool :=
  if is_ascii x then isupper x || islower x || isdigit x || (x =? 95)%N
  else db_isalnum x.

(** The lower-case form of an ASCII character. *)
Definition lower (x : char) : char := if isupper x then (x + 32)%N else x.

(** Whether the pattern character [p], which is ASCII, matches [x] under
    IGNORECASE. A letter is compiled to its lower-case form and compared
    with the lower-case form of the character read; any other character is
    compared as it is. *)
Definition same_ignoring_case (p x : char) : bool :=
  if isupper p || islower p
  then if is_ascii x then (lower x =? lower p)%N else db_folds_to x (lower p)
  else (x =? p)%N.

End Characters.

(** ** Patterns *)

(** Members of a bracketed class: a character, a range, \s or \w. The
    characters of a pattern are ASCII. *)
Inductive set_item : Type :=
| SChar (c : ascii)
| SRange (lo hi : ascii)
| SSpace
| SWord.

(** What consumes exactly one character: a literal, or a class (negated or
    not). *)
Inductive atom : Type :=
| Lit (c : ascii)
| Set_ (negated : bool) (items : list set_item).

(** Every repetition in the script's patterns is of a one-character atom, so
    [Star] and [Plus] take an atom; [Opt] takes any pattern. Repetitions are
    greedy. [Group n r] is the n-th capturing group; a non-capturing group is
    its body. [Void] matches nothing: it ends a chain of alternatives, as
    [Eps] ends a chain of concatenations. *)
Inductive regex : Type :=
| Void
| Eps
| Atom (a : atom)
| Seq (r1 r2 : regex)
| Alt (r1 r2 : regex)
| Opt (r : regex)
| Star (a : atom)
| Plus (a : atom)
| Group (n : nat) (r : regex).

(** Flags: the script compiles a pattern either plain or with IGNORECASE. *)
Definition flags : Type := bool.
Definition NOFLAG : flags := false.
Definition IGNORECASE : flags := true.

(** The characters of the range from [lo] to [hi]. *)
Definition range_codes (lo hi : ascii) : list char :=
  (λ n, (code lo + N.of_nat n)%N) <$> seq 0 (N.to_nat (code hi + 1 - code lo)).

Section Matcher.
Context {db : Database}.

(** Under IGNORECASE a range matches what one of its characters matches;
    the classes \s and \w have no case. *)
Definition item_match (ic : flags) (x : char) (i : set_item) : bool :=
  match i with
  | SChar c => if ic then same_ignoring_case (code c) x else (x =? code c)%N
  | SRange lo hi =>
      if ic then existsb (λ p, same_ignoring_case p x) (range_codes lo hi)
      else between (code lo) (code hi) x
  | SSpace => isspace x
  | SWord => isword x
  end.

Definition atom_match (ic : flags) (a : atom) (x : char) : bool :=
  match a with
  | Lit c => if ic then same_ignoring_case (code c) x else (x =? code c)%N
  | Set_ negated items => xorb negated (existsb (item_match ic x) items)
  end.

(** ** The backtracking matcher *)

(** Capture groups, most recent first: [(n, t)] says group [n] last
    matched [t]. *)
Definition captures : Type := list (nat * str).

Fixpoint group_text (c : captures) (n : nat) : option str :=
  match c with
  | [] => None
  | (k, t) :: c' => if Nat.eqb k n then Some t else group_text c' n
  end.

(** A continuation receives what is left of the input and the captures. *)
Definition cont : Type := str → captures → option (str * captures).

(** Greedy repetition of an atom: take one more character if possible and
    come back to the shorter repetition when the rest fails. *)
Fixpoint star (ic : flags) (a : atom) (k : cont) (s : str) (c : captures)
  : option (str * captures) :=
  match s with
  | x :: s' =>
      if atom_match ic a x
      then match star ic a k s' c with
           | Some res => Some res
           | None => k s c
           end
      else k s c
  | [] => k s c
  end.

(** [m ic r k s c]: match [r] at the head of [s], then run [k]; alternatives
    are tried left to right and the first overall success is returned. *)
Fixpoint m (ic : flags) (r : regex) (k : cont) (s : str) (c : captures)
  : option (str * captures) :=
  match r with
  | Void => None
  | Eps => k s c
  | Atom a =>
      match s with
      | x :: s' => if atom_match ic a x then k s' c else None
      | [] => None
      end
  | Seq r1 r2 => m ic r1 (fun s' c' => m ic r2 k s' c') s c
  | Alt r1 r2 =>
      match m ic r1 k s c with
      | Some res => Some res
      | None => m ic r2 k s c
      end
  | Opt r1 =>
      match m ic r1 k s c with
      | Some res => Some res
      | None => k s c
      end
  | Star a => star ic a k s c
  | Plus a =>
      match s with
      | x :: s' => if atom_match ic a x then star ic a k s' c else None
      | [] => None
      end
  | Group n r1 =>
      m ic r1 (fun s' c' => k s' ((n, take (length s - length s') s) :: c')) s c
  end.

Definition match_here (ic : flags) (r : regex) (s : str)
  : option (str * captures) :=
  m ic r (fun s' c' => Some (s', c')) s [].

(** The leftmost match in [s]: where it starts, what is left after it, and
    its captures. The empty suffix is a candidate start too. *)
Fixpoint search_from (ic : flags) (r : regex) (s : str)
  : option (str * str * captures) :=
  match match_here ic r s with
  | Some (s', c) => Some (s, s', c)
  | None =>
      match s with
      | [] => None
      | _ :: t => search_from ic r t
      end
  end.

(** All non-overlapping matches, left to right. Each round continues after
    the match, or one character further after an empty match; [fuel] bounds
    the rounds and [S (length s)] is enough, every round shortening the
    input. *)
Fixpoint scan (ic : flags) (r : regex) (fuel : nat) (s : str)
  : list (str * str * captures) :=
  match fuel with
  | O => []
  | S fuel' =>
      match search_from ic r s with
      | None => []
      | Some (s0, s1, c) =>
          (s0, s1, c) ::
          (if (length s1 <? length s0)%nat then scan ic r fuel' s1
           else match s1 with
                | [] => []
                | _ :: t => scan ic r fuel' t
                end)
      end
  end.

End Matcher.

Fixpoint ngroups (r : regex) : nat :=
  match r with
  | Void | Eps | Atom _ | Star _ | Plus _ => 0
  | Seq r1 r2 | Alt r1 r2 => ngroups r1 + ngroups r2
  | Opt r1 => ngroups r1
  | Group _ r1 => S (ngroups r1)
  end.

(** ** The interface on [str] *)

(** A match object: the text matched and the groups. *)
Record re_match : Type := {
  group0 : str;
  groups : captures;
}.

(** [mt.group(n)] for n >= 1: [None] when the group took no part. *)
Definition group (mt : re_match) (n : nat) : option str :=
  group_text (groups mt) n.

Definition matched (s0 s1 : str) : str :=
  take (length s0 - length s1) s0.

(** What [findall] lists: strings for a pattern with no group or one group,
    tuples of the groups otherwise; a group that took no part gives the
    empty string. *)
Inductive found : Type :=
| FStr (s : str)
| FTuple (gs : list str).

Definition group_or_empty (c : captures) (n : nat) : str :=
  default [] (group_text c n).

Definition found_of (ng : nat) (mt : str * str * captures) : found :=
  let '(s0, s1, c) := mt in
  match ng with
  | O => FStr (matched s0 s1)
  | S O => FStr (group_or_empty c 1)
  | _ => FTuple (group_or_empty c <$> seq 1 ng)
  end.

Section Interface.
Context {db : Database}.

(** [re.search(pattern, s, flags)] *)
Definition search (r : regex) (s : str) (ic : flags) : option re_match :=
  match search_from ic r s with
  | Some (s0, s1, c) => Some {| group0 := matched s0 s1; groups := c |}
  | None => None
  end.

(** [re.findall(pattern, s, flags)] *)
Definition findall (r : regex) (s : str) (ic : flags) : list found :=
  found_of (ngroups r) <$> scan ic r (S (length s)) s.

(** [re.sub(pattern, repl, s)] for a replacement without group references. *)
Fixpoint sub_from (r : regex) (repl : str) (fuel : nat) (s : str) : str :=
  match fuel with
  | O => s
  | S fuel' =>
      match search_from NOFLAG r s with
      | None => s
      | Some (s0, s1, _) =>
          take (length s - length s0) s ++ repl ++
          (if (length s1 <? length s0)%nat then sub_from r repl fuel' s1
           else match s1 with
                | [] => []
                | x :: t => x :: sub_from r repl fuel' t
                end)
      end
  end.

Definition sub (r : regex) (repl : str) (s : str) : str :=
  sub_from r repl (S (length s)) s.

End Interface.

(** ** Writing patterns *)

Fixpoint lit_chars (l : list ascii) : regex :=
  match l with
  | [] => Eps
  | c :: l' => Seq (Atom (Lit c)) (lit_chars l')
  end.

(** A run of literal characters. *)
Definition lit (s : string) : regex := lit_chars (list_ascii_of_string s).

(** Concatenation and alternation of several patterns. *)
Fixpoint cat (rs : list regex) : regex :=
  match rs with
  | [] => Eps
  | r :: rs' => Seq r (cat rs')
  end.

Fixpoint alt (rs : list regex) : regex :=
  match rs with
  | [] => Void
  | r :: rs' => Alt r (alt rs')
  end.

(** The two quote characters, which the patterns write as a class of the
    double quote (code 34) and the single quote (code 39). *)
Definition dquote : ascii := ascii_of_N 34.
Definition squote : ascii := ascii_of_N 39.
Definition quote : atom := Set_ false [SChar dquote; SChar squote].
Definition not_quote : atom := Set_ true [SChar dquote; SChar squote].
Definition digit : atom := Set_ false [SRange "0" "9"].
Definition space : atom := Set_ false [SSpace].
(** The class of everything but one character. *)
Definition not_char (c : ascii) : atom := Set_ true [SChar c].

End Re.

(* ================================================================== *)
(** * The [str] methods used by the script *)
(* ================================================================== *)

Module Str.
Import Unicode Re.

(** [len(s)]: the number of code points. *)
Definition len (s : str) : nat := length s.

(** [bool(s)] *)
Definition truthy (s : str) : bool :=
  match s with [] => false | _ => true end.

Fixpoint starts_with (p l : str) : bool :=
  match p, l with
  | [], _ => true
  | a :: p', b :: l' => (a =? b)%N && starts_with p' l'
  | _ :: _, [] => false
  end.

Fixpoint occurs_in (p l : str) : bool :=
  starts_with p l ||
  match l with
  | [] => false
  | _ :: t => occurs_in p t
  end.

(** [needle in hay] *)
Definition contains (needle hay : str) : bool := occurs_in needle hay.

(** [s.split(sep)[-1]] for a one-character separator: what follows the
    last separator, or all of [s] when there is none. *)
Definition split_last (sep : ascii) (s : str) : str :=
  fold_left (λ field x, if (x =? code sep)%N then [] else field ++ [x]) s [].

(** [sorted] compares strings code point by code point, a proper prefix
    coming first. *)
Fixpoint leb (a b : str) : bool :=
  match a, b with
  | [], _ => true
  | _ :: _, [] => false
  | x :: a', y :: b' => (x <? y)%N || ((x =? y)%N && leb a' b')
  end.

Definition le (a b : str) : Prop := leb a b = true.

#[global] Instance le_dec : RelDecision le := λ a b, decide (leb a b = true).

Section Methods.
Context {db : Database}.

Fixpoint lstrip (l : str) : str :=
  match l with
  | x :: l' => if isspace x then lstrip l' else l
  | [] => []
  end.

Definition rstrip (l : str) : str := rev (lstrip (rev l)).

(** [s.strip()] *)
Definition strip (s : str) : str := rstrip (lstrip s).

(** [s.lower()]: character by character, each with the text before and
    after it. *)
Fixpoint lower_from (before s : str) : str :=
  match s with
  | [] => []
  | x :: after =>
      (if is_ascii x then [Re.lower x] else db_lower before x after)
      ++ lower_from (before ++ [x]) after
  end.

Definition lower (s : str) : str := lower_from [] s.

End Methods.

End Str.

(* ================================================================== *)
(** * The [requests] calls *)
(* ================================================================== *)

Module Http.
Import Py Unicode.

Inductive method : Type := GET | HEAD | POST.

(** One call of [requests.get], [requests.head] or [requests.post]:
    [req_timeout] is the timeout in seconds when one is given, [req_data]
    the form fields of a POST. *)
Record request : Type := {
  req_method : method;
  req_url : string;
  req_timeout : option Z;
  req_data : list (string * string);
}.

(** What the script reads of a [Response]: the status code, the body as
    text, and what calling [response.json()] does, which is to return the
    decoded body or to raise. *)
Record response : Type := {
  status_code : Z;
  text : Unicode.str;
  json : outcome value;
}.

(** A request is answered by a response or fails with an exception. *)
Inductive reply : Type :=
| Responded (r : response)
| Failed (e : exn).

(** The world outside the script: the network, whose answer may depend on
    the requests made before, and what [input()] does at the prompt, which
    is to return the line typed or to raise (EOFError at the end of the
    input, KeyboardInterrupt). *)
Record world : Type := {
  network : list request → request → reply;
  stdin : outcome string;
}.

(** Computations that talk to the world: they read it, extend the log of
    requests made so far, and end in a value or a raised exception. *)
Definition M (A : Type) : Type :=
  world → list request → outcome A * list request.

Definition ret {A} (a : A) : M A := fun _ log => (Return a, log).

Definition bind {A B} (x : M A) (f : A → M B) : M B :=
  fun w log =>
    match x w log with
    | (Return a, log') => f a w log'
    | (Raise e, log') => (Raise e, log')
    end.

Definition lift {A} (x : outcome A) : M A := fun _ log => (x, log).

Definition send (rq : request) : M response :=
  fun w log =>
    match network w log rq with
    | Responded r => (Return r, log ++ [rq])
    | Failed e => (Raise e, log ++ [rq])
    end.

Definition requests_get (url : string) (timeout : Z) : M response :=
  send {| req_method := GET; req_url := url;
          req_timeout := Some timeout; req_data := [] |}.

Definition requests_head (url : string) (timeout : Z) : M response :=
  send {| req_method := HEAD; req_url := url;
          req_timeout := Some timeout; req_data := [] |}.

Definition requests_post (url : string) (data : list (string * string)) : M response :=
  send {| req_method := POST; req_url := url;
          req_timeout := None; req_data := data |}.

Definition response_json (r : response) : M value := lift (json r).

Definition input : M string := fun w log => (stdin w, log).

(** [try: body  except requests.RequestException: handler]. Any other
    exception leaves the statement. *)
Definition try_except_RequestException {A} (body handler : M A) : M A :=
  fun w log =>
    match body w log with
    | (Return a, log') => (Return a, log')
    | (Raise e, log') =>
        if isinstance_RequestException e then handler w log'
        else (Raise e, log')
    end.

(** [for x in l: body] where the body may [return]: [body x] yields
    [Some b] when it returned [b] and [None] when the iteration ended
    (normally or by [continue]); [after] is the code below the loop. *)
Fixpoint for_return {A B} (l : list A) (body : A → M (option B)) (after : M B) : M B :=
  match l with
  | [] => after
  | x :: l' =>
      bind (body x) (fun r =>
        match r with
        | Some b => ret b
        | None => for_return l' body after
        end)
  end.

(** [for x in l: body] where the body updates an accumulator. *)
Fixpoint for_each {A S} (l : list A) (body : A → S → M S) (acc : S) : M S :=
  match l with
  | [] => ret acc
  | x :: l' => bind (body x acc) (for_each l' body)
  end.

Definition run {A} (x : M A) (w : world) : outcome A * list request := x w [].

End Http.

(** Both monads use stdpp's notation [x ← e; k]. *)
#[global] Instance outcome_ret : MRet Py.outcome := @Py.Return.
#[global] Instance outcome_bind : MBind Py.outcome := λ A B f x, Py.bind x f.
#[global] Instance M_ret : MRet Http.M := @Http.ret.
#[global] Instance M_bind : MBind Http.M := λ A B f x, Http.bind x f.

(* ================================================================== *)
(** * The FHIR client library, as the script uses it *)
(* ================================================================== *)

Module Fhir.
Import Py.






End Fhir.

(* ================================================================== *)
(** * [class SMARTGuidelinesClient] *)
(* ================================================================== *)

Module SMARTGuidelinesClient.
Import Py Http.

(** The instance: only [fhir_base_url] is read by the methods below. *)
Record self : Type := { fhir_base_url : string }.

(** ** [fetch_smart_guideline] *)

Definition url_patterns (guideline_name : string) : list string :=
  [ "http://build.fhir.org/ig/WorldHealthOrganization/smart-" +:+ guideline_name
      +:+ "/ImplementationGuide-smart-" +:+ guideline_name +:+ ".json";
    "http://build.fhir.org/ig/WorldHealthOrganization/smart-" +:+ guideline_name
      +:+ "/ImplementationGuide.json";
    "https://worldhealthorganization.github.io/smart-" +:+ guideline_name
      +:+ "/ImplementationGuide-smart-" +:+ guideline_name +:+ ".json";
    "https://worldhealthorganization.github.io/smart-" +:+ guideline_name
      +:+ "/ImplementationGuide.json";
    "http://smart.who.int/" +:+ guideline_name
      +:+ "/ImplementationGuide/smart.who.int." +:+ guideline_name +:+ ".json" ].

(** The body of the loop: [Some d] is [return d]. *)
Definition fetch_attempt (url : string) : M (option value) :=
  try_except_RequestException
    (response ← requests_get url 10;
     if status_code response =? 200
     then d ← response_json response; mret (Some d)
     else mret None)
    (mret None).

Definition fetch_smart_guideline (guideline_name : string) : M value :=
  for_return (url_patterns guideline_name) fetch_attempt (mret VNone).

(** ** [process_dak_content] *)

Record dependency_entry : Type := {
  dep_uri : value;
  dep_version : value;
}.

Record resource_entry : Type := {
  res_type : value;
  res_id : value;
  res_title : value;
}.

(** The dict [dak_info], one field per key. *)
Record dak_info : Type := {
  dak_title : value;
  dak_version : value;
  dak_description : value;
  dak_status : value;
  dak_date : value;
  dak_publisher : value;
  dak_resources : list resource_entry;
  dak_dependencies : list dependency_entry;
}.

Definition process_dependency (dep : value) : outcome dependency_entry :=
  uri ← get dep "uri" (VStr "");
  version ← get dep "version" (VStr "");
  mret {| dep_uri := uri; dep_version := version |}.

Definition process_resource (resource : value) : outcome resource_entry :=
  resource_type ← get resource "resourceType" (VStr "Unknown");
  id ← get resource "id" (VStr "");
  name ← get resource "name" (VStr "");
  title ← get resource "title" name;
  mret {| res_type := resource_type; res_id := id; res_title := title |}.

Definition process_dak_content (guideline_data : value) : outcome (option dak_info) :=
  if negb (truthy guideline_data) then mret None
  else
    title ← get guideline_data "title" (VStr "Unknown Title");
    version ← get guideline_data "version" (VStr "Unknown Version");
    description ← get guideline_data "description" (VStr "");
    status ← get guideline_data "status" (VStr "unknown");
    date ← get guideline_data "date" (VStr "");
    publisher ← get guideline_data "publisher" (VStr "");
    depends_on ← get guideline_data "dependsOn" (VList []);
    deps ← iterate depends_on;
    dependencies ← for_append process_dependency deps;
    contained ← get guideline_data "contained" (VList []);
    items ← iterate contained;
    resources ← for_append process_resource items;
    mret (Some {| dak_title := title; dak_version := version;
                  dak_description := description; dak_status := status;
                  dak_date := date; dak_publisher := publisher;
                  dak_resources := resources;
                  dak_dependencies := dependencies |}).

(** ** [authenticate_oauth2] *)

Definition authenticate_oauth2 (this : self)
    (client_id client_secret redirect_uri scope : string) : M value :=
  let token_url := fhir_base_url this +:+ "/oauth2/token" in
  auth_code ← input;
  let token_data :=
    [ ("grant_type", "authorization_code"); ("code", auth_code);
      ("client_id", client_id); ("client_secret", client_secret);
      ("redirect_uri", redirect_uri) ] in
  try_except_RequestException
    (response ← requests_post token_url token_data;
     if status_code response =? 200
     then body ← response_json response;
          lift (get body "access_token" VNone)
     else mret VNone)
    (mret VNone).

(** ** [get_guideline_summary] *)

Definition github_url (guideline_name : string) : string :=
  "https://api.github.com/repos/WorldHealthOrganization/smart-" +:+ guideline_name.

Definition repository_summary (repo_data : value) : outcome value :=
  name ← get repo_data "name" (VStr "");
  description ← get repo_data "description" (VStr "No description available");
  updated_at ← get repo_data "updated_at" (VStr "");
  html_url ← get repo_data "html_url" (VStr "");
  topics ← get repo_data "topics" (VList []);
  language ← get repo_data "language" (VStr "");
  size ← get repo_data "size" (VInt 0);
  mret (VDict [ ("name", name); ("description", description);
                ("updated_at", updated_at); ("html_url", html_url);
                ("topics", topics); ("language", language); ("size", size) ]).

Definition summary_fallback (guideline_name : string) : value :=
  VDict [ ("name", VStr guideline_name);
          ("description", VStr "Repository information not available") ].

Definition get_guideline_summary (guideline_name : string) : M value :=
  r ← try_except_RequestException
        (response ← requests_get (github_url guideline_name) 10;
         if status_code response =? 200
         then repo_data ← response_json response;
              summary ← lift (repository_summary repo_data);
              mret (Some summary)
         else mret None)
        (mret None);
  match r with
  | Some summary => mret summary
  | None => mret (summary_fallback guideline_name)
  end.

(** ** [check_guideline_availability] *)

(** One value of the [availability] dict; [av_status] is the integer status
    code or the string 'error'. *)
Record endpoint_status : Type := {
  av_url : string;
  av_status : value;
  av_accessible : bool;
}.

(** The dict [endpoints], in insertion order. *)
Definition endpoints (guideline_name : string) : list (string * string) :=
  [ ("build_site",
     "http://build.fhir.org/ig/WorldHealthOrganization/smart-" +:+ guideline_name +:+ "/");
    ("github_pages",
     "https://worldhealthorganization.github.io/smart-" +:+ guideline_name +:+ "/");
    ("github_repo",
     "https://github.com/WorldHealthOrganization/smart-" +:+ guideline_name) ].

Definition probe (endpoint : string * string)
    (availability : gmap string endpoint_status) : M (gmap string endpoint_status) :=
  let '(name, url) := endpoint in
  try_except_RequestException
    (response ← requests_head url 5;
     mret (<[name := {| av_url := url;
                        av_status := VInt (status_code response);
                        av_accessible := status_code response =? 200 |}]> availability))
    (mret (<[name := {| av_url := url;
                        av_status := VStr "error";
                        av_accessible := false |}]> availability)).

Definition check_guideline_availability (guideline_name : string)
  : M (gmap string endpoint_status) :=
  for_each (endpoints guideline_name) probe ∅.

(** ** [parse_implementation_guide_html] *)

Import Unicode Re.

Record link : Type := {
  link_url : str;
  link_text : str;
}.

(** The dict [info], one field per key. [info_version] is [None] when it
    holds Python's [None]. *)
Record guide_info : Type := {
  info_source_url : string;
  info_title : str;
  info_version : option str;
  info_description : str;
  info_sections : list str;
  info_resources : list str;
  info_links : list link;
}.

Definition not_gt : atom := not_char ">".
Definition not_lt : atom := not_char "<".

(** <title[^>]*>([^<]+)</title> *)
Definition title_pattern : regex :=
  cat [lit "<title"; Star not_gt; lit ">"; Group 1 (Plus not_lt); lit "</title>"].

(** <meta[^>]*name=[QUOTES]description[QUOTES][^>]*content=[QUOTES]([^QUOTES]+)[QUOTES]
    where QUOTES stands for the double and the single quote. *)
Definition desc_pattern : regex :=
  cat [lit "<meta"; Star not_gt; lit "name="; Atom quote; lit "description";
       Atom quote; Star not_gt; lit "content="; Atom quote;
       Group 1 (Plus not_quote); Atom quote].

(** [0-9]+\.[0-9]+(?:\.[0-9]+)? *)
Definition version_number : regex :=
  cat [Plus digit; lit "."; Plus digit; Opt (cat [lit "."; Plus digit])].

(** Version[:\s]+(NUMBER), version[QUOTES]?\s*[:=]\s*[QUOTES]?(NUMBER)
    and v(NUMBER). *)
Definition version_patterns : list regex :=
  [ cat [lit "Version"; Plus (Set_ false [SChar ":"; SSpace]); Group 1 version_number];
    cat [lit "version"; Opt (Atom quote); Star space;
         Atom (Set_ false [SChar ":"; SChar "="]); Star space;
         Opt (Atom quote); Group 1 version_number];
    cat [lit "v"; Group 1 version_number] ].

Definition h_level : atom := Set_ false [SRange "1" "6"].

(** <h[1-6][^>]*>([^<]+)</h[1-6]> and
    <div[^>]*class[^>]*header[^>]*>([^<]+)</div> *)
Definition section_patterns : list regex :=
  [ cat [lit "<h"; Atom h_level; Star not_gt; lit ">"; Group 1 (Plus not_lt);
         lit "</h"; Atom h_level; lit ">"];
    cat [lit "<div"; Star not_gt; lit "class"; Star not_gt; lit "header"; Star not_gt;
         lit ">"; Group 1 (Plus not_lt); lit "</div>"] ].

(** [^\w\s-] *)
Definition not_word_space_hyphen : regex :=
  Atom (Set_ true [SWord; SSpace; SChar "-"]).

(** \s+ *)
Definition whitespace_run : regex := Plus space.

(** [a-zA-Z0-9._-] *)
Definition id_char : atom :=
  Set_ false [SRange "a" "z"; SRange "A" "Z"; SRange "0" "9";
              SChar "."; SChar "_"; SChar "-"].

Definition fhir_type_names : list string :=
  ["StructureDefinition"; "ValueSet"; "CodeSystem"; "ConceptMap";
   "ImplementationGuide"].

(** (StructureDefinition|ValueSet|CodeSystem|ConceptMap|ImplementationGuide)/([a-zA-Z0-9._-]+)
    and FHIR\s+([A-Z][a-zA-Z]+)\s*:?\s*([a-zA-Z0-9._-]+)? *)
Definition fhir_patterns : list regex :=
  [ cat [Group 1 (alt (lit <$> fhir_type_names)); lit "/"; Group 2 (Plus id_char)];
    cat [lit "FHIR"; Plus space;
         Group 1 (cat [Atom (Set_ false [SRange "A" "Z"]);
                       Plus (Set_ false [SRange "a" "z"; SRange "A" "Z"])]);
         Star space; Opt (Atom (Lit ":")); Star space;
         Opt (Group 2 (Plus id_char))] ].

(** <a[^>]*href=[QUOTES]([^QUOTES]+)[QUOTES][^>]*>([^<]+)</a> *)
Definition link_pattern : regex :=
  cat [lit "<a"; Star not_gt; lit "href="; Atom quote; Group 1 (Plus not_quote);
       Atom quote; Star not_gt; lit ">"; Group 2 (Plus not_lt); lit "</a>"].

(** A loop that updates an accumulator and may raise. *)
Fixpoint fold_outcome {A S} (f : S → A → outcome S) (l : list A) (acc : S) : outcome S :=
  match l with
  | [] => Return acc
  | x :: l' => acc' ← f acc x; fold_outcome f l' acc'
  end.

Section GuideParser.
Context {db : Database}.

(** [mt.group(1).strip()]: [None] has no [strip]. *)
Definition group1_strip (mt : re_match) : outcome str :=
  match group mt 1 with
  | Some g => Return (Str.strip g)
  | None => Raise AttributeError
  end.

(** A field that keeps its default unless the pattern is found. *)
Definition extract_stripped (pattern : regex) (html_content dflt : str)
  : outcome str :=
  match search pattern html_content IGNORECASE with
  | Some mt => group1_strip mt
  | None => Return dflt
  end.

(** The loop over [version_patterns], left at the first pattern found. *)
Fixpoint extract_version (patterns : list regex) (html_content : str)
    (version : option str) : option str :=
  match patterns with
  | [] => version
  | pattern :: patterns' =>
      match search pattern html_content IGNORECASE with
      | Some version_match => group version_match 1
      | None => extract_version patterns' html_content version
      end
  end.

(** [re.findall] lists strings here, every section pattern having one
    group; a tuple has no [strip]. *)
Definition add_section (sections : gset str) (item : found)
  : outcome (gset str) :=
  match item with
  | FStr heading =>
      let clean_section := sub not_word_space_hyphen [] (Str.strip heading) in
      if (3 <? Str.len clean_section)%nat && (Str.len clean_section <? 100)%nat
      then Return ({[ clean_section ]} ∪ sections)
      else Return sections
  | FTuple _ => Raise AttributeError
  end.

Definition collect_sections (html_content : str) : outcome (gset str) :=
  fold_outcome
    (λ sections pattern,
       fold_outcome add_section (findall pattern html_content IGNORECASE) sections)
    section_patterns ∅.

(** [isinstance(match, tuple) and len(match) >= 2], then the id must be
    a non-empty string. *)
Definition add_resource (resources : gset str) (item : found) : gset str :=
  match item with
  | FTuple (resource_type :: resource_id :: _) =>
      if Str.truthy resource_id
      then {[ resource_type ++ u ": " ++ resource_id ]} ∪ resources
      else resources
  | _ => resources
  end.

Definition collect_resources (html_content : str) : gset str :=
  fold_left
    (λ resources pattern,
       fold_left add_resource (findall pattern html_content NOFLAG) resources)
    fhir_patterns ∅.

(** [sorted(list(s))]: the elements of the set in lexicographic order. *)
Definition sorted (l : list str) : list str := merge_sort Str.le l.

Definition link_keywords : list str :=
  [u "guide"; u "resource"; u "profile"; u "example"; u "download"].

(** [for href, text in links]: each item is unpacked into two. *)
Definition unpack2 (item : found) : outcome (str * str) :=
  match item with
  | FTuple [href; anchor] => Return (href, anchor)
  | FStr s =>
      match s with
      | [a; b] => Return ([a], [b])
      | _ => Raise (OtherException "ValueError")
      end
  | FTuple _ => Raise (OtherException "ValueError")
  end.

Definition add_link (useful_links : list link) (item : found) : outcome (list link) :=
  '(href, anchor) ← unpack2 item;
  let clean_text := sub whitespace_run (u " ") (Str.strip anchor) in
  if (3 <? Str.len clean_text)%nat && (Str.len clean_text <? 50)%nat
     && existsb (λ keyword, Str.contains keyword (Str.lower clean_text)) link_keywords
  then Return (useful_links ++ [{| link_url := href; link_text := clean_text |}])
  else Return useful_links.

Definition parse_implementation_guide_html (html_content : str) (source_url : string)
  : outcome guide_info :=
  title ← extract_stripped title_pattern html_content (u "Unknown Title");
  description ← extract_stripped desc_pattern html_content [];
  let version :=
    extract_version version_patterns html_content (Some (u "Unknown Version")) in
  sections ← collect_sections html_content;
  let resources := collect_resources html_content in
  useful_links ← fold_outcome add_link (findall link_pattern html_content IGNORECASE) [];
  mret {| info_source_url := source_url;
          info_title := title;
          info_version := version;
          info_description := description;
          info_sections := take 10 (sorted (elements sections));
          info_resources := take 15 (sorted (elements resources));
          info_links := take 10 useful_links |}.

End GuideParser.

(** ** [parse_downloads_html] *)

Record download_file : Type := {
  file_url : str;
  file_description : str;
  file_format : str;
}.

(** The dict [downloads]. [dl_formats] is the set the loop fills; the list
    made of it at the end holds its elements in no specified order. *)
Record downloads_info : Type := {
  dl_source_url : string;
  dl_files : list download_file;
  dl_formats : gset str;
  dl_packages : list found;
}.

(** The three patterns, with blanks added between their parts:
    <a[^>]*href=[QUOTES] ( [^QUOTES]* \. (?:zip|tgz|tar\.gz|json|xml|xlsx) ) [QUOTES] [^>]* > ([^<]+) </a>,
    <a[^>]*href=[QUOTES] ( [^QUOTES]* (?:package|full|validation|definitions) [^QUOTES]* ) [QUOTES] [^>]* > ([^<]+) </a>
    and href=[QUOTES] ( [^QUOTES]* (?:downloads?|files?|exports?) [^QUOTES]* ) [QUOTES] *)
Definition download_patterns : list regex :=
  [ cat [lit "<a"; Star not_gt; lit "href="; Atom quote;
         Group 1 (cat [Star not_quote; lit ".";
                       alt [lit "zip"; lit "tgz"; lit "tar.gz"; lit "json";
                            lit "xml"; lit "xlsx"]]);
         Atom quote; Star not_gt; lit ">"; Group 2 (Plus not_lt); lit "</a>"];
    cat [lit "<a"; Star not_gt; lit "href="; Atom quote;
         Group 1 (cat [Star not_quote;
                       alt [lit "package"; lit "full"; lit "validation";
                            lit "definitions"];
                       Star not_quote]);
         Atom quote; Star not_gt; lit ">"; Group 2 (Plus not_lt); lit "</a>"];
    cat [lit "href="; Atom quote;
         Group 1 (cat [Star not_quote;
                       alt [cat [lit "download"; Opt (lit "s")];
                            cat [lit "file"; Opt (lit "s")];
                            cat [lit "export"; Opt (lit "s")]];
                       Star not_quote]);
         Atom quote] ].

Section DownloadsParser.
Context {db : Database}.

(** [isinstance(match, tuple) and len(match) >= 2], then the description
    must be longer than 3. *)
Definition add_file (downloads : list download_file * gset str) (item : found)
  : list download_file * gset str :=
  let '(files, formats) := downloads in
  match item with
  | FTuple (url :: description :: _) =>
      let clean_desc := sub whitespace_run (u " ") (Str.strip description) in
      if (3 <? Str.len clean_desc)%nat
      then
        let file_ext :=
          if Str.contains (u ".") url then Str.lower (Str.split_last "." url)
          else u "unknown" in
        (files ++ [{| file_url := url; file_description := clean_desc;
                      file_format := file_ext |}],
         {[ file_ext ]} ∪ formats)
      else downloads
  | _ => downloads
  end.

End DownloadsParser.

(** (FHIR\s+(?:package|bundle|specification)),
    (Implementation\s+Guide\s+(?:package|bundle)), (NPM\s+package),
    (Validation\s+pack) and (Full\s+specification) *)
Definition package_patterns : list regex :=
  [ Group 1 (cat [lit "FHIR"; Plus space;
                  alt [lit "package"; lit "bundle"; lit "specification"]]);
    Group 1 (cat [lit "Implementation"; Plus space; lit "Guide"; Plus space;
                  alt [lit "package"; lit "bundle"]]);
    Group 1 (cat [lit "NPM"; Plus space; lit "package"]);
    Group 1 (cat [lit "Validation"; Plus space; lit "pack"]);
    Group 1 (cat [lit "Full"; Plus space; lit "specification"]) ].

(** [bool(match)] for an item of [findall]. *)
Definition found_truthy (item : found) : bool :=
  match item with
  | FStr s => Str.truthy s
  | FTuple gs => match gs with [] => false | _ => true end
  end.

Section Fetchers.
Context {db : Database}.

Definition parse_downloads_html (html_content : str) (source_url : string)
  : downloads_info :=
  let '(files, formats) :=
    fold_left
      (λ downloads pattern,
         fold_left add_file (findall pattern html_content IGNORECASE) downloads)
      download_patterns ([], ∅) in
  let packages :=
    fold_left
      (λ packages pattern,
         packages ++ filter found_truthy (findall pattern html_content IGNORECASE))
      package_patterns [] in
  {| dl_source_url := source_url;
     dl_files := files;
     dl_formats := formats;
     dl_packages := packages |}.

(** ** [fetch_guideline_html] *)

Definition html_urls (guideline_name : string) : list string :=
  [ "http://build.fhir.org/ig/WorldHealthOrganization/smart-" +:+ guideline_name +:+ "/";
    "https://worldhealthorganization.github.io/smart-" +:+ guideline_name +:+ "/" ].

(** The body of the loop: [Some r] is [return r]. *)
Definition html_attempt (url : string) : M (option (option guide_info)) :=
  try_except_RequestException
    (response ← requests_get url 10;
     if status_code response =? 200
     then info ← lift (parse_implementation_guide_html (text response) url);
          mret (Some (Some info))
     else mret None)
    (mret None).

Definition fetch_guideline_html (guideline_name : string) : M (option guide_info) :=
  for_return (html_urls guideline_name) html_attempt (mret None).

(** ** [fetch_downloads_info] *)

Definition download_urls (guideline_name : string) : list string :=
  [ "http://build.fhir.org/ig/WorldHealthOrganization/smart-" +:+ guideline_name
      +:+ "/downloads.html";
    "https://worldhealthorganization.github.io/smart-" +:+ guideline_name
      +:+ "/downloads.html" ].

Definition downloads_attempt (url : string) : M (option (option downloads_info)) :=
  try_except_RequestException
    (response ← requests_get url 10;
     if status_code response =? 200
     then mret (Some (Some (parse_downloads_html (text response) url)))
     else mret None)
    (mret None).

Definition fetch_downloads_info (guideline_name : string) : M (option downloads_info) :=
  for_return (download_urls guideline_name) downloads_attempt (mret None).

End Fetchers.

(** ** [search_patients] and [get_guideline_observations]

    [FHIR_CLIENT_AVAILABLE] is the flag the import of fhirclient sets,
    [smart_client] the attribute of that name: [None], which is falsy, or a
    client object, which is truthy. [family_name] is [None], its default, or
    a string. *)



End SMARTGuidelinesClient.

(* ================================================================== *)
(** * Vocabulary of the statements *)
(* ================================================================== *)

Module ReSpec.
Import Unicode Re.

Section Matches.
Context {db : Database}.

(** What it means for a pattern to match a word, with the captures before
    and after: the declarative reading of the pattern language, without the
    order in which the matcher tries the alternatives. *)
Inductive matches (ic : flags) : regex → str → captures → captures → Prop :=
| matches_eps c : matches ic Eps [] c c
| matches_atom a x c : atom_match ic a x = true → matches ic (Atom a) [x] c c
| matches_seq r1 r2 w1 w2 c c1 c2 :
    matches ic r1 w1 c c1 → matches ic r2 w2 c1 c2 →
    matches ic (Seq r1 r2) (w1 ++ w2) c c2
| matches_alt_l r1 r2 w c c' : matches ic r1 w c c' → matches ic (Alt r1 r2) w c c'
| matches_alt_r r1 r2 w c c' : matches ic r2 w c c' → matches ic (Alt r1 r2) w c c'
| matches_opt_some r w c c' : matches ic r w c c' → matches ic (Opt r) w c c'
| matches_opt_none r c : matches ic (Opt r) [] c c
| matches_star a w c :
    Forall (λ x, atom_match ic a x = true) w → matches ic (Star a) w c c
| matches_plus a x w c :
    atom_match ic a x = true → Forall (λ x, atom_match ic a x = true) w →
    matches ic (Plus a) (x :: w) c c
| matches_group n r w c c' :
    matches ic r w c c' → matches ic (Group n r) w c ((n, w) :: c').

End Matches.

(** Group [n] is set by every match of the pattern. *)
Fixpoint sets (n : nat) (r : regex) : bool :=
match r with
| Void | Eps | Atom _ | Star _ | Plus _ | Opt _ => false
| Seq r1 r2 => sets n r1 || sets n r2
| Alt r1 r2 => sets n r1 && sets n r2
| Group k r1 => Nat.eqb k n || sets n r1
end.

(** The pattern matches the empty word. *)
Fixpoint nullable (r : regex) : bool :=
match r with
| Void | Atom _ | Plus _ => false
| Eps | Opt _ | Star _ => true
| Seq r1 r2 => nullable r1 && nullable r2
| Alt r1 r2 => nullable r1 || nullable r2
| Group _ r1 => nullable r1
end.

Definition is_FStr (item : found) : Prop :=
match item with FStr _ => True | FTuple _ => False end.

End ReSpec.

Module HttpSpec.
Import Py Http SMARTGuidelinesClient.

Definition get_request (url : string) (timeout : Z) : request :=
{| req_method := GET; req_url := url; req_timeout := Some timeout; req_data := [] |}.

Definition head_request (url : string) : request :=
{| req_method := HEAD; req_url := url; req_timeout := Some 5; req_data := [] |}.

(** The requests for the five candidates, in the declared order. *)
Definition candidate_requests (guideline_name : string) : list request :=
(λ url, get_request url 10) <$> url_patterns guideline_name.

(** The answer to the [j]-th of the requests [rqs] when they are made in
    order after the requests of [log]. *)
Definition reply_at (w : world) (log rqs : list request) (j : nat) : option reply :=
network w (log ++ take j rqs) <$> rqs !! j.

(** A candidate is passed over when its request fails with a
    [RequestException], is answered with a status other than 200, or is
    answered with status 200 and a body whose decoding raises a
    [RequestException]. *)
Inductive passed_over : reply → Prop :=
| po_transport cls : passed_over (Failed (RequestException cls))
| po_status r : status_code r ≠ 200 → passed_over (Responded r)
| po_body r cls :
    status_code r = 200 → json r = Raise (RequestException cls) →
    passed_over (Responded r).

(** A candidate breaks off the search with [e] when its request fails with
    [e], or is answered with status 200 and a body whose decoding raises
    [e], and [e] is no [RequestException]. *)
Inductive breaks_off (e : exn) : reply → Prop :=
| bo_transport :
    isinstance_RequestException e = false → breaks_off e (Failed e)
| bo_body r :
    status_code r = 200 → json r = Raise e →
    isinstance_RequestException e = false → breaks_off e (Responded r).

(** A candidate delivers [d] when it is answered with status 200 and a body
    that decodes to [d]. *)
Inductive delivers (d : value) : reply → Prop :=
| delivers_intro r :
    status_code r = 200 → json r = Return d → delivers d (Responded r).

(** The contract of the [requests] library: every exception one of its calls
    raises, [Response.json()] included, derives from [RequestException]. *)
Definition raises_only_RequestException (w : world) : Prop :=
∀ log rq,
  match network w log rq with
  | Failed e => isinstance_RequestException e = true
  | Responded r =>
      match json r with
      | Raise e => isinstance_RequestException e = true
      | Return _ => True
      end
  end.

(** C1 as the specification words it: when the [k]-th candidate is the first
    one answered with status 200, exactly the first [k+1] candidates are
    requested and the result is what decoding that response's body gives;
    when every candidate is answered with another status or fails with a
    transport failure, the result is [None]. *)
Definition first_200_wins (guideline_name : string) (w : world) : Prop :=
let rqs := candidate_requests guideline_name in
let '(result, log) := run (fetch_smart_guideline guideline_name) w in
(∀ k r,
    reply_at w [] rqs k = Some (Responded r) → status_code r = 200 →
    (∀ j r', (j < k)%nat → reply_at w [] rqs j = Some (Responded r') →
             status_code r' ≠ 200) →
    log = take (S k) rqs ∧ result = json r)
∧ ((∀ k rp, reply_at w [] rqs k = Some rp →
            (∃ r, rp = Responded r ∧ status_code r ≠ 200)
            ∨ (∃ cls, rp = Failed (RequestException cls))) →
   result = Return VNone).

(** C5 as the specification words it: whatever the responses and the
    transport do, the function returns. *)
Definition never_propagates (guideline_name : string) (w : world) : Prop :=
∃ result log, run (fetch_smart_guideline guideline_name) w = (Return result, log).

(** The one request of [get_guideline_summary]. *)
Definition summary_request (guideline_name : string) : request :=
get_request (github_url guideline_name) 10.

(** The failures of a lookup the specification names: an answer with a status
    other than 200, and a transport error. *)
Inductive lookup_failed : reply → Prop :=
| lf_status r : status_code r ≠ 200 → lookup_failed (Responded r)
| lf_transport cls : lookup_failed (Failed (RequestException cls)).

(** The fallback record as the specification words it. *)
Definition stated_fallback (guideline_name : string) : value :=
VDict [("name", VStr guideline_name); ("description", VStr "not available")].

(** The HEAD requests of [check_guideline_availability], in the order of the
    [endpoints] dict. *)
Definition probe_requests (guideline_name : string) : list request :=
(λ endpoint, head_request endpoint.2) <$> endpoints guideline_name.

(** What [check_guideline_availability] records for an endpoint from the
    answer to its own request. *)
Definition recorded (url : string) (rp : reply) : endpoint_status :=
match rp with
| Responded r =>
    {| av_url := url; av_status := VInt (status_code r);
       av_accessible := status_code r =? 200 |}
| Failed _ =>
    {| av_url := url; av_status := VStr "error"; av_accessible := false |}
end.

(** A request is answered, or fails with a transport failure: an exception
    that derives from [RequestException]. *)
Definition transport_failure_or_response (rp : reply) : Prop :=
match rp with
| Responded _ => True
| Failed e => isinstance_RequestException e = true
end.

(** The POST of [authenticate_oauth2]: [auth_code] is the line read from the
    console. *)
Definition token_request (this : self)
  (client_id client_secret redirect_uri auth_code : string) : request :=
{| req_method := POST;
   req_url := fhir_base_url this +:+ "/oauth2/token";
   req_timeout := None;
   req_data := [ ("grant_type", "authorization_code"); ("code", auth_code);
                 ("client_id", client_id); ("client_secret", client_secret);
                 ("redirect_uri", redirect_uri) ] |}.

(** C9 as the specification words it: a status-200 answer gives the access
    token, a string; and [None] is returned only after an answer with another
    status or a transport error. *)
Definition token_whenever_200 (this : self)
  (client_id client_secret redirect_uri scope : string) (w : world) : Prop :=
∀ auth_code, stdin w = Return auth_code →
let rp :=
  network w [] (token_request this client_id client_secret redirect_uri auth_code) in
let result :=
  (run (authenticate_oauth2 this client_id client_secret redirect_uri scope) w).1 in
(∀ r, rp = Responded r → status_code r = 200 → ∃ token, result = Return (VStr token))
∧ (result = Return VNone →
   (∃ r, rp = Responded r ∧ status_code r ≠ 200) ∨ (∃ e, rp = Failed e)).

End HttpSpec.

(** Documents and networks for the examples. *)
Module Examples.
Import Py Unicode Http SMARTGuidelinesClient.

(** The document of the specification's example: title ANC, one dependency
    with only a uri, one contained ValueSet with only an id. *)
Definition anc_document : value :=
VDict [ ("title", VStr "ANC");
        ("dependsOn", VList [VDict [("uri", VStr "x")]]);
        ("contained",
         VList [VDict [("resourceType", VStr "ValueSet"); ("id", VStr "v1")]]) ].

(** What one item of [dependsOn] and of [contained] becomes. *)
Definition dependency_of (d : list (string * value)) : dependency_entry :=
{| dep_uri := default (VStr "") (dict_lookup d "uri");
   dep_version := default (VStr "") (dict_lookup d "version") |}.

Definition resource_of (d : list (string * value)) : resource_entry :=
{| res_type := default (VStr "Unknown") (dict_lookup d "resourceType");
   res_id := default (VStr "") (dict_lookup d "id");
   res_title := default (default (VStr "") (dict_lookup d "name"))
                        (dict_lookup d "title") |}.

(** A network that answers by the position of the request in the sequence
    of requests made, whatever the request. *)
Definition scripted (answers : list reply) (fallback : reply) : world :=
{| network := λ log _, default fallback (answers !! length log);
   stdin := Return "4/0AX4XfWh" |}.

Definition with_status (code : Z) : response :=
{| status_code := code; text := []; json := Return VNone |}.

Definition with_json (body : value) : response :=
{| status_code := 200; text := []; json := Return body |}.

(** A status-200 response whose body is not JSON: [json()] raises the
    library's JSONDecodeError, a [RequestException]. *)
Definition not_json : response :=
{| status_code := 200; text := u "<html>";
   json := Raise (RequestException "JSONDecodeError") |}.

Definition timed_out : reply := Failed (RequestException "Timeout").

Definition guide : value := VDict [("title", VStr "ANC")].

(** Candidate 1 answers 404, candidate 2 times out, candidate 3 answers 200
    with a body that is not JSON, candidate 4 delivers [guide]. *)
Definition fourth_delivers : world :=
scripted [Responded (with_status 404); timed_out; Responded not_json;
          Responded (with_json guide)] timed_out.

(** Candidate 1 answers 200 with a body that is not JSON; candidate 2
    delivers [guide]. *)
Definition first_200_not_json : world :=
scripted [Responded not_json; Responded (with_json guide)] timed_out.

(** Candidate 1 answers 200 with a body that is not JSON, and [json()]
    raises the ValueError of requests before 2.27, which is no
    [RequestException]. *)
Definition json_value_error : world :=
scripted [Responded {| status_code := 200; text := u "<html>";
                       json := Raise (OtherException "ValueError") |}] timed_out.

(** The repository lookup answers 404. *)
Definition not_found : world := scripted [Responded (with_status 404)] timed_out.

(** The build site answers 200, GitHub Pages cannot be reached, the
    repository page answers 404. *)
Definition pages_unreachable : world :=
scripted [Responded (with_status 200); Failed (RequestException "ConnectionError");
          Responded (with_status 404)] timed_out.

Definition smart_health_it : self := {| fhir_base_url := "https://r4.smarthealthit.org" |}.

(** The token endpoint answers 200 with the empty object. *)
Definition no_token_in_body : world :=
scripted [Responded (with_json (VDict []))] timed_out.

(** The double quote, as a text. *)
Definition dq : str := [code Re.dquote].

(** A page whose tags, attributes and version label are written in
    capitals, with a resource reference written in small letters. *)
Definition capital_tags : str :=
u "<TITLE>t</TITLE><META NAME='description' CONTENT='d'><P>VERSION: 1.2</P>" ++
u "<H2>Heading</H2><A HREF='/g'>User Guide</A> valueset/abc".

(** Two anchors with double-quoted hrefs: one whose text has no keyword,
    one whose text has the keyword guide. *)
Definition two_anchors : str :=
u "<a href=" ++ dq ++ u "/x" ++ dq ++ u ">Click here</a>" ++
u "<a href=" ++ dq ++ u "/g" ++ dq ++ u ">User Guide</a>".

(** A page with fifteen headings, of which one occurs twice, one is too
    short and one holds a character that is removed, and with four resource
    references, of which one occurs twice. *)
Definition many_headings : str :=
u "<h2>Zeta notes</h2><h1>alpha one</h1><H3>Beta two!</H3><h1>alpha one</h1>" ++
u "<h2>abc</h2><h4>Gamma</h4><h2>Delta</h2><h5>Epsilon</h5><h6>Theta</h6>" ++
u "<h1>Kappa</h1><h1>Lambda</h1><h2>Omega</h2><h2>Sigma</h2><h3>Upsilon</h3>" ++
u "<div class='header'>Div header</div>" ++
u " ValueSet/b ValueSet/a ValueSet/b CodeSystem/x".

(** The letter e with an acute accent, the no-break space and the next-line
    character, which are no ASCII. *)
Definition e_acute : char := 233%N.
Definition no_break_space : char := 160%N.
Definition next_line : char := 133%N.

(** Three headings, of which two differ by an accent only, and a header
    whose class is spelled with a long s (U+017F). *)
Definition accented_headings : str :=
u "<h1>Sant" ++ [e_acute] ++ u " publique!</h1><h2>Sante publique</h2><h3>Zone</h3>"
++ u "<div cla" ++ [383%N] ++ u "s='header'>Intro</div>".

(** A link whose text has 31 characters, 25 of them accented, and a link
    whose text has no-break spaces and a next-line character around and
    between its two words. *)
Definition accented_link : str :=
u "<a href='/g'>guide " ++ replicate 25 e_acute ++ u "</a>".

Definition spaced_link : str :=
u "<a href='/g'>" ++ [no_break_space] ++ u "User" ++ [no_break_space; no_break_space]
++ u "Guide" ++ [next_line] ++ u "</a>".

(** Two downloads, with descriptions of three and of four accented
    letters; the extension of the second has a capital E with an acute
    accent (U+00C9). *)
Definition accented_downloads : str :=
u "<a href='a.zip'>" ++ [233; 224; 252]%N ++ u "</a>" ++
u "<a href='full." ++ [201%N] ++ u "X'>" ++ [233; 224; 252; 246]%N ++ u "</a>".

End Examples.

(** Vocabulary for the page fetchers and for what the parsers keep. *)
Module PageSpec.
Import Py Unicode Re Http SMARTGuidelinesClient HttpSpec.

(** A page is not there when its request fails with a [RequestException]
    or is answered with a status other than 200. *)
Inductive unavailable : reply → Prop :=
| un_transport cls : unavailable (Failed (RequestException cls))
| un_status r : status_code r ≠ 200 → unavailable (Responded r).

(** The GET requests, with timeout 10, for a list of URLs. *)
Definition page_requests (urls : list string) : list request :=
(λ url, get_request url 10) <$> urls.

(** Transport failures are [RequestException]s; nothing is said of
    [json()], which the page fetchers do not call. *)
Definition fails_only_with_RequestException (w : world) : Prop :=
∀ log rq e, network w log rq = Failed e → isinstance_RequestException e = true.

(** A value that is no dict. *)
Definition not_a_dict (v : value) : Prop :=
match v with VDict _ => False | _ => True end.

(** A non-empty run of the digits 0 to 9. *)
Definition digits (w : str) : Prop :=
w ≠ [] ∧ Forall (λ x, isdigit x = true) w.

(** Two or three runs of digits joined by dots. *)
Definition dotted_number (v : str) : Prop :=
∃ a b rest,
  digits a ∧ digits b
  ∧ (rest = [] ∨ ∃ c, digits c ∧ rest = code "." :: c)
  ∧ v = a ++ code "." :: b ++ rest.

Section Kept.
Context {db : Database}.

(** A character that the cleaning of a section heading keeps: one of the
    class \w, one of the class \s, or the hyphen. *)
Definition heading_char (x : char) : bool :=
isword x || isspace x || (x =? code "-")%N.

(** No white space at either end. *)
Definition trimmed (s : str) : Prop :=
(∀ x t, s = x :: t → isspace x = false)
∧ (∀ t x, s = t ++ [x] → isspace x = false).

(** White space only as single blanks between other characters. *)
Fixpoint single_spaced (l : str) : Prop :=
match l with
| [] => True
| x :: t =>
    (isspace x = true →
     x = code " " ∧ match t with [] => True | y :: _ => isspace y = false end)
    ∧ single_spaced t
end.

(** What the loop of [parse_downloads_html] makes of the items of one
    pattern, from the files and formats collected so far. *)
Definition files_of (patterns : list regex) (html_content : str)
  : list download_file * gset str :=
fold_left
  (λ downloads pattern,
     fold_left add_file (findall pattern html_content IGNORECASE) downloads)
  patterns ([], ∅).

End Kept.

End PageSpec.

(** Vocabulary for what a guide page gives. *)
Module GuideSpec.
Import Py Unicode Re SMARTGuidelinesClient.

(** [l] lists the set [s]: every element once, in increasing order. *)
Definition lists_in_order (s : gset str) (l : list str) : Prop :=
StronglySorted Str.le l ∧ NoDup l ∧ ∀ x, x ∈ l ↔ x ∈ s.

(** The number X.Y or X.Y.Z of a version. *)
Definition number : regex :=
cat [Plus digit; lit "."; Plus digit; Opt (cat [lit "."; Plus digit])].

(** The three forms of a version as the specification names them: the
    label Version, then colons or white space, then the number; the key
    version, an optional quote, a colon or an equals sign between optional
    white space, an optional quote, then the number; and the letter v with
    the number. *)
Definition labeled_form : regex :=
cat [lit "Version"; Plus (Set_ false [SChar ":"; SSpace]); Group 1 number].

Definition key_value_form : regex :=
cat [lit "version"; Opt (Atom quote); Star space;
     Atom (Set_ false [SChar ":"; SChar "="]); Star space;
     Opt (Atom quote); Group 1 number].

Definition bare_form : regex := cat [lit "v"; Group 1 number].

(** A capitalised word: an ASCII capital and at least one more ASCII
    letter. *)
Definition capitalised (w : str) : Prop :=
∃ x l, w = x :: l ∧ isupper x = true ∧ l ≠ []
       ∧ Forall (λ y, isupper y || islower y = true) l.

(** A character of an id: an ASCII letter or digit, the dot, the underscore
    or the hyphen. *)
Definition id_letter (y : char) : bool :=
isupper y || islower y || isdigit y
|| (y =? code ".")%N || (y =? code "_")%N || (y =? code "-")%N.

(** A non-empty run of the characters of an id. *)
Definition id_text (w : str) : Prop :=
w ≠ [] ∧ Forall (λ y, id_letter y = true) w.

Section Stated.
Context {db : Database}.

(** The version a page is given. *)
Definition version_of (html_content : str) : option (option str) :=
match parse_implementation_guide_html html_content "" with
| Return info => Some (info_version info)
| Raise _ => None
end.

(** C10 as the specification words it: every resource entry of a page names
    one of the five types. *)
Definition listed_types_only (html_content : str) : Prop :=
∀ info e,
  parse_implementation_guide_html html_content "" = Return info →
  e ∈ info_resources info →
  ∃ name id, name ∈ fhir_type_names ∧ e = u name ++ u ": " ++ id.

End Stated.

End GuideSpec.

Module PageExamples.
Import Py Unicode Http SMARTGuidelinesClient Examples.

(** A status-200 response with a page as body; the page is no JSON. *)
Definition with_text (body : str) : response :=
{| status_code := 200; text := body;
   json := Raise (RequestException "JSONDecodeError") |}.

(** The first page answers 503, the second is there. *)
Definition second_page_there : world :=
scripted [Responded (with_status 503);
          Responded (with_text (u "<title>ANC</title><a href='ig.zip'>Full guide</a>"))]
         timed_out.

End PageExamples.

Module DocSpec.
Import Py.
(** A value a [for] loop cannot run over. *)
Definition not_iterable (v : value) : Prop :=
match v with
| VNone | VBool _ | VInt _ | VFloat _ _ => True
| VStr _ | VList _ | VDict _ => False
end.
End DocSpec.

Module ParseSpec.
Import Re.
(** The pattern holds no capturing group. *)
Fixpoint groupless (r : regex) : bool :=
match r with
| Void | Eps | Atom _ | Star _ | Plus _ => true
| Seq r1 r2 | Alt r1 r2 => groupless r1 && groupless r2
| Opt r1 => groupless r1
| Group _ _ => false
end.
End ParseSpec.

Module TextSpec.
Import Py Unicode Re Str SMARTGuidelinesClient PageSpec.

Section Kept.
Context {db : Database}.

(** [re.sub] of the white-space pattern by one blank. *)
Definition collapsed (s : str) : str :=
sub_from whitespace_run (u " ") (S (length s)) s.

(** The format of a URL: the lower-case form of what follows its last dot,
    and unknown when it has no dot. *)
Definition format_of (url format : str) : Prop :=
(¬ code "." ∈ url ∧ format = u "unknown")
∨ ∃ pre ext, url = pre ++ code "." :: ext ∧ ¬ code "." ∈ ext ∧ format = Str.lower ext.

(** What the loop over the items keeps true of the files and the formats. *)
Definition downloads_kept (downloads : list download_file * gset str) : Prop :=
downloads.2 = list_to_set (file_format <$> downloads.1)
∧ Forall (λ f, (3 < len (file_description f))%nat
               ∧ single_spaced (file_description f)
               ∧ trimmed (file_description f)
               ∧ format_of (file_url f) (file_format f))
         downloads.1.

End Kept.

End TextSpec.

Module FhirSpec.
Import Py Fhir.





End FhirSpec.

(* ================================================================== *)
(** * The matcher is sound *)
(* ================================================================== *)

Module ReFacts.
Import Unicode Re ReSpec.

Section Sound.
Context {db : Database}.

Lemma star_sound ic a k s c res :
star ic a k s c = Some res →
∃ w s', s = w ++ s' ∧ Forall (λ x, atom_match ic a x = true) w ∧ k s' c = Some res.
Proof.
induction s as [|x s IH]; cbn [star]; intros H.
- exists [], []. auto.
- destruct (atom_match ic a x) eqn:Hx.
  + destruct (star ic a k s c) as [res'|] eqn:Hs.
    * injection H as ->. destruct (IH eq_refl) as (w & s' & -> & Hw & Hk).
      exists (x :: w), s'. auto.
    * exists [], (x :: s). auto.
  + exists [], (x :: s). auto.
Qed.

(** Soundness of the matcher: a success of [m] is a match of the pattern on
    a prefix of the input, followed by a success of the continuation on the
    rest. *)
Lemma m_sound ic r : ∀ k s c res,
m ic r k s c = Some res →
∃ w s' c', s = w ++ s' ∧ matches ic r w c c' ∧ k s' c' = Some res.
Proof.
induction r as [| |a|r1 IH1 r2 IH2|r1 IH1 r2 IH2|r1 IH1|a|a|n r1 IH1];
  intros k s c res H; cbn [m] in H.
- discriminate H.
- exists [], s, c. split; [done|]. split; [constructor|done].
- destruct s as [|x s]; [discriminate H|].
  destruct (atom_match ic a x) eqn:Hx; [|discriminate H].
  exists [x], s, c. split; [done|]. split; [by constructor|done].
- apply IH1 in H as (w1 & s1 & c1 & -> & Hm1 & H).
  apply IH2 in H as (w2 & s2 & c2 & -> & Hm2 & H).
  exists (w1 ++ w2), s2, c2. rewrite <- app_assoc.
  split; [done|]. split; [by econstructor|done].
- destruct (m ic r1 k s c) as [res'|] eqn:H1.
  + injection H as ->. apply IH1 in H1 as (w & s' & c' & -> & Hm & H).
    exists w, s', c'. split; [done|]. split; [by apply matches_alt_l|done].
  + apply IH2 in H as (w & s' & c' & -> & Hm & H).
    exists w, s', c'. split; [done|]. split; [by apply matches_alt_r|done].
- destruct (m ic r1 k s c) as [res'|] eqn:H1.
  + injection H as ->. apply IH1 in H1 as (w & s' & c' & -> & Hm & H).
    exists w, s', c'. split; [done|]. split; [by apply matches_opt_some|done].
  + exists [], s, c. split; [done|]. split; [apply matches_opt_none|done].
- apply star_sound in H as (w & s' & -> & Hw & H).
  exists w, s', c. split; [done|]. split; [by constructor|done].
- destruct s as [|x s]; [discriminate H|].
  destruct (atom_match ic a x) eqn:Hx; [|discriminate H].
  apply star_sound in H as (w & s' & -> & Hw & H).
  exists (x :: w), s', c. split; [done|]. split; [by constructor|done].
- apply IH1 in H as (w & s' & c' & -> & Hm & H).
  exists w, s', ((n, w) :: c'). split; [done|]. split; [by constructor|].
  rewrite length_app in H.
  replace (length w + length s' - length s')%nat with (length w) in H by lia.
  rewrite take_app_length in H. exact H.
Qed.

Lemma match_here_sound ic r s s' c :
match_here ic r s = Some (s', c) → ∃ w, s = w ++ s' ∧ matches ic r w [] c.
Proof.
intros H. apply m_sound in H as (w & s1 & c1 & -> & Hm & H).
injection H as <- <-. eauto.
Qed.

Lemma search_from_sound ic r s s0 s1 c :
search_from ic r s = Some (s0, s1, c) →
s0 `suffix_of` s ∧ ∃ w, s0 = w ++ s1 ∧ matches ic r w [] c.
Proof.
induction s as [|x s IH]; cbn [search_from]; intros H.
- destruct (match_here ic r []) as [[s' c']|] eqn:Hh; [|discriminate H].
  injection H as <- <- <-. split; [done|]. by eapply match_here_sound.
- destruct (match_here ic r (x :: s)) as [[s' c']|] eqn:Hh.
  + injection H as <- <- <-. split; [done|]. by eapply match_here_sound.
  + destruct (IH H) as [Hsuf Hm]. split; [by apply suffix_cons_r|done].
Qed.

Lemma scan_sound ic r fuel : ∀ s s0 s1 c,
(s0, s1, c) ∈ scan ic r fuel s →
s0 `suffix_of` s ∧ ∃ w, s0 = w ++ s1 ∧ matches ic r w [] c.
Proof.
induction fuel as [|fuel IH]; intros s s0 s1 c H; cbn [scan] in H.
- by apply elem_of_nil in H.
- destruct (search_from ic r s) as [[[t0 t1] tc]|] eqn:Hs; [|by apply elem_of_nil in H].
  apply search_from_sound in Hs as [Hsuf (w & -> & Hm)].
  apply elem_of_cons in H as [H|H].
  + injection H as -> -> ->. eauto.
  + assert (t1 `suffix_of` s) as Hsuf1.
    { etrans; [|exact Hsuf]. by apply suffix_app_r. }
    destruct (length t1 <? length (w ++ t1))%nat.
    * apply IH in H as [H1 H2]. split; [by etrans|done].
    * destruct t1 as [|y t1]; [by apply elem_of_nil in H|].
      apply IH in H as [H1 H2]. split; [|done].
      etrans; [exact H1|]. etrans; [|exact Hsuf1]. by apply suffix_cons_r.
Qed.

(** When no suffix of the input starts with a match, nothing is found. *)
Lemma scan_nil ic r fuel s :
(∀ s0 s1 w c, s0 `suffix_of` s → s0 = w ++ s1 → ¬ matches ic r w [] c) →
scan ic r fuel s = [].
Proof.
intros H. destruct (scan ic r fuel s) as [|[[s0 s1] c] l] eqn:Hscan; [done|].
assert ((s0, s1, c) ∈ scan ic r fuel s) as Hin by (rewrite Hscan; left).
apply scan_sound in Hin as [Hsuf (w & Hw & Hm)]. by destruct (H s0 s1 w c).
Qed.

(** Captures only grow: a group that is set stays set, and a group the
    pattern sets is set after a match. *)
Lemma matches_group_set ic r w c c' n :
matches ic r w c c' →
sets n r = true ∨ is_Some (group_text c n) → is_Some (group_text c' n).
Proof.
induction 1 as [c|a x c Hx|r1 r2 w1 w2 c c1 c2 _ IH1 _ IH2|r1 r2 w c c' _ IH
               |r1 r2 w c c' _ IH|r w c c' _ IH|r c|a w c Hw|a x w c Hx Hw
               |k r w c c' _ IH]; cbn [sets]; intros [Hs|Hc]; try done; auto.
- apply orb_true_iff in Hs as [Hs|Hs]; auto.
- apply andb_true_iff in Hs as [Hs _]; auto.
- apply andb_true_iff in Hs as [_ Hs]; auto.
- cbn [group_text]. destruct (Nat.eqb k n) eqn:Hk; [done|].
  cbn in Hs. auto.
- cbn [group_text]. destruct (Nat.eqb k n); [done|auto].
Qed.

(** A run of literal characters matches itself and nothing else (up to
    case under IGNORECASE), and sets no group. *)
Lemma matches_lit_chars ic l w c c' :
matches ic (lit_chars l) w c c' →
c' = c ∧ length w = length l ∧ (ic = NOFLAG → w = code <$> l).
Proof.
revert w c c'. induction l as [|a l IH]; intros w c c' H; cbn [lit_chars] in H.
- inversion H; subst. done.
- inversion H as [| |r1 r2 w1 w2 c0 c1 c2 H1 H2| | | | | | |]; subst.
  inversion H1 as [|a0 x c0 Hx| | | | | | | |]; subst.
  apply IH in H2 as (-> & Hlen & Hw).
  split; [done|]. split; [cbn; by rewrite Hlen|].
  intros ->. cbn in Hx. apply N.eqb_eq in Hx as ->. by rewrite Hw.
Qed.

Lemma matches_alt_lits names w c c' :
matches NOFLAG (alt (lit <$> names)) w c c' →
∃ name, name ∈ names ∧ w = u name ∧ c' = c.
Proof.
induction names as [|name names IH]; cbn [alt fmap list_fmap]; intros H.
- inversion H.
- inversion H as [| | |r1 r2 w0 c0 c0' H1|r1 r2 w0 c0 c0' H1| | | | |]; subst.
  + apply matches_lit_chars in H1 as (-> & _ & Hw).
    exists name. split; [left|]. by rewrite Hw.
  + destruct (IH H1) as (name' & Hin & -> & ->).
    exists name'. split; [by right|done].
Qed.

(** The items [findall] lists for a pattern with one group are strings, and
    for a pattern with two groups pairs. *)
Lemma findall_one_group r s ic :
ngroups r = 1%nat → Forall is_FStr (findall r s ic).
Proof.
intros Hr. unfold findall. rewrite Hr. apply Forall_fmap, Forall_true.
intros [[s0 s1] c]. exact I.
Qed.

Lemma findall_two_groups r s ic item :
ngroups r = 2%nat → item ∈ findall r s ic →
∃ s0 s1 c, (s0, s1, c) ∈ scan ic r (S (length s)) s
           ∧ item = FTuple [group_or_empty c 1; group_or_empty c 2].
Proof.
intros Hr. unfold findall. rewrite Hr. intros H.
apply list_elem_of_fmap in H as ([[s0 s1] c] & -> & Hin). eauto.
Qed.

Lemma search_sound r s ic mt :
search r s ic = Some mt →
∃ s0 s1 w, s0 `suffix_of` s ∧ s0 = w ++ s1 ∧ matches ic r w [] (groups mt).
Proof.
unfold search. destruct (search_from ic r s) as [[[s0 s1] c]|] eqn:H; [|done].
intros [= <-]. apply search_from_sound in H as [Hsuf (w & Hw & Hm)].
exists s0, s1, w. done.
Qed.

(** A group the pattern sets can be read from every match object. *)
Lemma search_group_set r s ic mt n :
sets n r = true → search r s ic = Some mt → is_Some (group mt n).
Proof.
intros Hn H. apply search_sound in H as (s0 & s1 & w & _ & _ & Hm).
unfold group. eapply matches_group_set; eauto.
Qed.

Lemma search_from_shorter ic r s s0 s1 c :
search_from ic r s = Some (s0, s1, c) →
(length s1 ≤ length s0 ∧ length s0 ≤ length s)%nat.
Proof.
intros H. apply search_from_sound in H as [[pre ->] (w & -> & _)].
rewrite !length_app. lia.
Qed.

(** The fuel [findall] gives [scan] is enough: with more than the length of
    the input, more fuel changes nothing. *)
Lemma scan_fuel ic r fuel : ∀ fuel' s,
(length s < fuel)%nat → (length s < fuel')%nat →
scan ic r fuel s = scan ic r fuel' s.
Proof.
induction fuel as [|fuel IH]; intros fuel' s Hf Hf'; [lia|].
destruct fuel' as [|fuel']; [lia|]. cbn [scan].
destruct (search_from ic r s) as [[[s0 s1] c]|] eqn:Hs; [|done].
apply search_from_shorter in Hs as [H1 H0]. f_equal.
destruct (length s1 <? length s0)%nat eqn:Hlt.
- apply Nat.ltb_lt in Hlt. apply IH; lia.
- destruct s1 as [|y t]; [done|]. cbn [length] in *. apply IH; lia.
Qed.

(** ... and likewise for [sub]. *)
Lemma sub_from_fuel r repl fuel : ∀ fuel' s,
(length s < fuel)%nat → (length s < fuel')%nat →
sub_from r repl fuel s = sub_from r repl fuel' s.
Proof.
induction fuel as [|fuel IH]; intros fuel' s Hf Hf'; [lia|].
destruct fuel' as [|fuel']; [lia|]. cbn [sub_from].
destruct (search_from NOFLAG r s) as [[[s0 s1] c]|] eqn:Hs; [|done].
apply search_from_shorter in Hs as [H1 H0]. do 2 f_equal.
destruct (length s1 <? length s0)%nat eqn:Hlt.
- apply Nat.ltb_lt in Hlt. apply IH; lia.
- destruct s1 as [|y t]; [done|]. cbn [length] in *. f_equal. apply IH; lia.
Qed.

(** A pattern that is not nullable matches no empty word, so a match of it
    always shortens the input: the step after an empty match in [scan] and
    [sub_from] is never taken for such a pattern. *)
Lemma matches_nonempty ic r w c c' :
matches ic r w c c' → nullable r = false → w ≠ [].
Proof.
induction 1 as [c|a x c Hx|r1 r2 w1 w2 c c1 c2 _ IH1 _ IH2|r1 r2 w c c' _ IH
               |r1 r2 w c c' _ IH|r w c c' _ IH|r c|a w c Hw|a x w c Hx Hw
               |k r w c c' _ IH]; cbn [nullable]; try done.
- intros [Hn|Hn]%andb_false_iff Happ; apply app_eq_nil in Happ as [-> ->];
    [by apply IH1|by apply IH2].
- intros [Hn _]%orb_false_iff. by apply IH.
- intros [_ Hn]%orb_false_iff. by apply IH.
Qed.

(** The class of white space, under either flag. *)
Lemma space_match ic x : atom_match ic space x = isspace x.
Proof. cbn. by rewrite orb_false_r. Qed.

End Sound.

End ReFacts.

(* ================================================================== *)
(** * Structured content: [process_dak_content] *)
(* ================================================================== *)

Section DakContent.
Import Py SMARTGuidelinesClient Examples.

Lemma for_append_dependencies (ds : list (list (string * value))) :
for_append process_dependency (VDict <$> ds) = Return (dependency_of <$> ds).
Proof.
induction ds as [|d ds IH]; [reflexivity|].
rewrite fmap_cons. cbn [for_append]. rewrite IH. reflexivity.
Qed.

Lemma for_append_resources (ds : list (list (string * value))) :
for_append process_resource (VDict <$> ds) = Return (resource_of <$> ds).
Proof.
induction ds as [|d ds IH]; [reflexivity|].
rewrite fmap_cons. cbn [for_append]. rewrite IH. reflexivity.
Qed.

(** A falsy document gives no summary. *)
Lemma process_dak_content_falsy (v : value) :
truthy v = false → process_dak_content v = Return None.
Proof. intros H. unfold process_dak_content. rewrite H. reflexivity. Qed.

(** A non-empty object whose [dependsOn] and [contained] are lists of
    objects (or are absent) is summarised key by key, each absent key by
    its default, the two lists item by item in the document's order. *)
Lemma process_dak_content_object (d : list (string * value))
    (deps items : list (list (string * value))) :
d ≠ [] →
default (VList []) (dict_lookup d "dependsOn") = VList (VDict <$> deps) →
default (VList []) (dict_lookup d "contained") = VList (VDict <$> items) →
process_dak_content (VDict d) =
Return (Some
  {| dak_title := default (VStr "Unknown Title") (dict_lookup d "title");
     dak_version := default (VStr "Unknown Version") (dict_lookup d "version");
     dak_description := default (VStr "") (dict_lookup d "description");
     dak_status := default (VStr "unknown") (dict_lookup d "status");
     dak_date := default (VStr "") (dict_lookup d "date");
     dak_publisher := default (VStr "") (dict_lookup d "publisher");
     dak_resources := resource_of <$> items;
     dak_dependencies := dependency_of <$> deps |}).
Proof.
intros Hd Hdeps Hitems. unfold process_dak_content.
destruct d as [|kv d']; [done|]. cbn [truthy negb].
cbn [get mbind outcome_bind Py.bind]. rewrite Hdeps, Hitems.
cbn [iterate mbind outcome_bind Py.bind]. rewrite for_append_dependencies.
cbn [mbind outcome_bind Py.bind]. rewrite for_append_resources.
reflexivity.
Qed.

(** A document that is not an object has no [get]: the AttributeError
    leaves the function. *)
Lemma process_dak_content_not_an_object :
process_dak_content (VList [VInt 1]) = Raise AttributeError.
Proof. reflexivity. Qed.

(** C2. On the example document [process_dak_content] returns title ANC,
    version Unknown Version, the one dependency with an empty version and
    the one resource with an empty title, the other keys at their defaults;
    on [None] and on the empty document it returns [None]. In general, a
    non-empty object whose [dependsOn] and [contained] are lists of objects
    (or absent) is summarised with each absent key at its default and the
    two lists item by item in the document's order. *)
Theorem process_dak_content_example :
process_dak_content anc_document =
  Return (Some
    {| dak_title := VStr "ANC";
       dak_version := VStr "Unknown Version";
       dak_description := VStr "";
       dak_status := VStr "unknown";
       dak_date := VStr "";
       dak_publisher := VStr "";
       dak_resources :=
         [{| res_type := VStr "ValueSet"; res_id := VStr "v1"; res_title := VStr "" |}];
       dak_dependencies :=
         [{| dep_uri := VStr "x"; dep_version := VStr "" |}] |})
∧ process_dak_content VNone = Return None
∧ process_dak_content (VDict []) = Return None
∧ (∀ d deps items,
     d ≠ [] →
     default (VList []) (dict_lookup d "dependsOn") = VList (VDict <$> deps) →
     default (VList []) (dict_lookup d "contained") = VList (VDict <$> items) →
     ∃ summary,
       process_dak_content (VDict d) = Return (Some summary)
       ∧ dak_title summary = default (VStr "Unknown Title") (dict_lookup d "title")
       ∧ dak_version summary = default (VStr "Unknown Version") (dict_lookup d "version")
       ∧ dak_description summary = default (VStr "") (dict_lookup d "description")
       ∧ dak_status summary = default (VStr "unknown") (dict_lookup d "status")
       ∧ dak_date summary = default (VStr "") (dict_lookup d "date")
       ∧ dak_publisher summary = default (VStr "") (dict_lookup d "publisher")
       ∧ dak_dependencies summary = dependency_of <$> deps
       ∧ dak_resources summary = resource_of <$> items).
Proof.
split; [reflexivity|]. split; [reflexivity|]. split; [reflexivity|].
intros d deps items Hd Hdeps Hitems.
rewrite (process_dak_content_object d deps items Hd Hdeps Hitems).
eexists. split; [reflexivity|]. repeat split.
Qed.

End DakContent.

(* ================================================================== *)
(** * Ordered resolution: [fetch_smart_guideline] *)
(* ================================================================== *)

Module HttpFacts.
Import Py Http SMARTGuidelinesClient HttpSpec Examples.

Lemma fetch_attempt_passed_over w log url :
passed_over (network w log (get_request url 10)) →
fetch_attempt url w log = (Return None, log ++ [get_request url 10]).
Proof.
unfold fetch_attempt, try_except_RequestException.
unfold mbind, M_bind, Http.bind, requests_get, send. fold (get_request url 10).
intros H. cbv beta.
inversion H as [cls Heq | r Hs Heq | r cls Hs Hj Heq].
- reflexivity.
- apply Z.eqb_neq in Hs. rewrite Hs. reflexivity.
- rewrite Hs. cbn. unfold response_json, lift. rewrite Hj. reflexivity.
Qed.

Lemma fetch_attempt_delivers w log url d :
delivers d (network w log (get_request url 10)) →
fetch_attempt url w log = (Return (Some d), log ++ [get_request url 10]).
Proof.
unfold fetch_attempt, try_except_RequestException.
unfold mbind, M_bind, Http.bind, requests_get, send. fold (get_request url 10).
intros H. cbv beta.
inversion H as [r Hs Hj Heq].
rewrite Hs. cbn. unfold response_json, lift. rewrite Hj. reflexivity.
Qed.

Lemma fetch_attempt_breaks_off w log url e :
breaks_off e (network w log (get_request url 10)) →
fetch_attempt url w log = (Raise e, log ++ [get_request url 10]).
Proof.
unfold fetch_attempt, try_except_RequestException.
unfold mbind, M_bind, Http.bind, requests_get, send. fold (get_request url 10).
intros H. cbv beta.
inversion H as [He Heq | r Hs Hj He Heq].
- by rewrite He.
- rewrite Hs. cbn. unfold response_json, lift. rewrite Hj. by rewrite He.
Qed.

(** Every reply is of exactly one of the three kinds. *)
Lemma reply_classified rp :
passed_over rp ∨ (∃ d, delivers d rp) ∨ (∃ e, breaks_off e rp).
Proof.
destruct rp as [r|e].
- destruct (decide (status_code r = 200)) as [Hs|Hs]; [|left; by constructor].
  destruct (json r) as [d|e] eqn:Hj; [right; left; exists d; by constructor|].
  destruct e as [cls|cls]; [left; by eapply po_body|].
  right; right. eexists. by apply bo_body.
- destruct e as [cls|cls]; [left; constructor|].
  right; right. eexists. by apply bo_transport.
Qed.

Lemma reply_at_cons w log rq rqs j :
reply_at w log (rq :: rqs) (S j) = reply_at w (log ++ [rq]) rqs j.
Proof. unfold reply_at. cbn. rewrite <- app_assoc. reflexivity. Qed.

Lemma reply_at_head w log rq rqs :
reply_at w log (rq :: rqs) 0 = Some (network w log rq).
Proof. unfold reply_at. cbn. rewrite app_nil_r. reflexivity. Qed.

(** The loop of [fetch_smart_guideline] over any list of URLs, started after
    any log: it stops at the first candidate that delivers. *)
Lemma fetch_loop_delivers w d urls : ∀ log k rp,
let rqs := (λ url, get_request url 10) <$> urls in
(∀ j rp', (j < k)%nat → reply_at w log rqs j = Some rp' → passed_over rp') →
reply_at w log rqs k = Some rp → delivers d rp →
for_return urls fetch_attempt (mret VNone) w log = (Return d, log ++ take (S k) rqs).
Proof.
induction urls as [|url urls IH]; intros log k rp rqs Hpassed Hk Hd.
- unfold reply_at in Hk. destruct k; discriminate Hk.
- subst rqs. rewrite fmap_cons in *. cbn [for_return]. unfold Http.bind.
  destruct k as [|k].
  + rewrite reply_at_head in Hk. injection Hk as <-.
    rewrite (fetch_attempt_delivers _ _ _ _ Hd). reflexivity.
  + rewrite fetch_attempt_passed_over.
    2:{ apply (Hpassed 0%nat); [lia|]. apply reply_at_head. }
    rewrite reply_at_cons in Hk.
    rewrite (IH (log ++ [get_request url 10]) k rp); [|  | exact Hk | exact Hd].
    * cbn [take]. rewrite <- app_assoc. reflexivity.
    * intros j rp' Hj Hrp'. apply (Hpassed (S j)); [lia|].
      rewrite reply_at_cons. exact Hrp'.
Qed.

(** ... it is left by the exception of the first candidate that breaks
    off ... *)
Lemma fetch_loop_breaks_off w e urls : ∀ log k rp,
let rqs := (λ url, get_request url 10) <$> urls in
(∀ j rp', (j < k)%nat → reply_at w log rqs j = Some rp' → passed_over rp') →
reply_at w log rqs k = Some rp → breaks_off e rp →
for_return urls fetch_attempt (mret VNone) w log = (Raise e, log ++ take (S k) rqs).
Proof.
induction urls as [|url urls IH]; intros log k rp rqs Hpassed Hk Hd.
- unfold reply_at in Hk. destruct k; discriminate Hk.
- subst rqs. rewrite fmap_cons in *. cbn [for_return]. unfold Http.bind.
  destruct k as [|k].
  + rewrite reply_at_head in Hk. injection Hk as <-.
    rewrite (fetch_attempt_breaks_off _ _ _ _ Hd). reflexivity.
  + rewrite fetch_attempt_passed_over.
    2:{ apply (Hpassed 0%nat); [lia|]. apply reply_at_head. }
    rewrite reply_at_cons in Hk.
    rewrite (IH (log ++ [get_request url 10]) k rp); [|  | exact Hk | exact Hd].
    * cbn [take]. rewrite <- app_assoc. reflexivity.
    * intros j rp' Hj Hrp'. apply (Hpassed (S j)); [lia|].
      rewrite reply_at_cons. exact Hrp'.
Qed.

(** ... and runs to the end, returning [None], when every candidate is
    passed over. *)
Lemma fetch_loop_exhausted w urls : ∀ log,
let rqs := (λ url, get_request url 10) <$> urls in
(∀ j rp, reply_at w log rqs j = Some rp → passed_over rp) →
for_return urls fetch_attempt (mret VNone) w log = (Return VNone, log ++ rqs).
Proof.
induction urls as [|url urls IH]; intros log rqs Hpassed.
- cbn. rewrite app_nil_r. reflexivity.
- subst rqs. rewrite fmap_cons in *. cbn [for_return]. unfold Http.bind.
  rewrite fetch_attempt_passed_over.
  2:{ apply (Hpassed 0%nat). apply reply_at_head. }
  rewrite IH.
  + rewrite <- app_assoc. reflexivity.
  + intros j rp Hrp. apply (Hpassed (S j)). rewrite reply_at_cons. exact Hrp.
Qed.

(** Under the library's contract one attempt ends without an exception. *)
Lemma fetch_attempt_returns w log url :
raises_only_RequestException w →
fetch_attempt url w log = (Return None, log ++ [get_request url 10])
∨ ∃ r d, network w log (get_request url 10) = Responded r
         ∧ status_code r = 200 ∧ json r = Return d
         ∧ fetch_attempt url w log = (Return (Some d), log ++ [get_request url 10]).
Proof.
intros Hw. specialize (Hw log (get_request url 10)).
destruct (network w log (get_request url 10)) as [r|e] eqn:Hnet.
- destruct (decide (status_code r = 200)) as [Hs|Hs].
  + destruct (json r) as [d|e] eqn:Hj.
    * right. exists r, d. repeat split; try done.
      apply fetch_attempt_delivers. rewrite Hnet. by constructor.
    * left. apply fetch_attempt_passed_over. rewrite Hnet.
      destruct e as [cls|cls]; [|discriminate Hw]. by eapply po_body.
  + left. apply fetch_attempt_passed_over. rewrite Hnet. by constructor.
- left. apply fetch_attempt_passed_over. rewrite Hnet.
  destruct e as [cls|cls]; [|discriminate Hw]. constructor.
Qed.

Lemma fetch_loop_returns w urls : ∀ log,
let rqs := (λ url, get_request url 10) <$> urls in
raises_only_RequestException w →
∃ result log',
  for_return urls fetch_attempt (mret VNone) w log = (Return result, log')
  ∧ (result = VNone
     ∨ ∃ k r, reply_at w log rqs k = Some (Responded r)
              ∧ status_code r = 200 ∧ json r = Return result).
Proof.
induction urls as [|url urls IH]; intros log rqs Hw.
- exists VNone, log. split; [reflexivity|by left].
- subst rqs. rewrite fmap_cons. cbn [for_return]. unfold Http.bind.
  destruct (fetch_attempt_returns w log url Hw) as [-> | (r & d & Hnet & Hs & Hj & ->)].
  + destruct (IH (log ++ [get_request url 10]) Hw) as (result & log' & -> & Hres).
    exists result, log'. split; [reflexivity|].
    destruct Hres as [->|(k & r & Hk & Hs & Hj)]; [by left|right].
    exists (S k), r. rewrite reply_at_cons. done.
  + exists d, (log ++ [get_request url 10]). split; [reflexivity|right].
    exists 0%nat, r. rewrite reply_at_head, Hnet. done.
Qed.

(** A scripted network keeps the library's contract when its answers do. *)
Lemma scripted_contract answers fallback :
Forall (λ rp, match rp with
              | Failed e => isinstance_RequestException e = true
              | Responded r =>
                  match json r with
                  | Raise e => isinstance_RequestException e = true
                  | Return _ => True
                  end
              end) (fallback :: answers) →
raises_only_RequestException (scripted answers fallback).
Proof.
intros H log rq. cbn. rewrite Forall_cons in H. destruct H as [Hf Ha].
destruct (answers !! length log) as [rp|] eqn:Hl; cbn; [|exact Hf].
rewrite Forall_forall in Ha. apply Ha. by eapply list_elem_of_lookup_2.
Qed.

Lemma probe_records w log name url availability :
transport_failure_or_response (network w log (head_request url)) →
probe (name, url) availability w log
= (Return (<[name := recorded url (network w log (head_request url))]> availability),
   log ++ [head_request url]).
Proof.
unfold probe, try_except_RequestException.
unfold mbind, M_bind, Http.bind, requests_head, send. fold (head_request url).
intros H. cbv beta.
destruct (network w log (head_request url)) as [r|e]; cbn in *.
- reflexivity.
- rewrite H. reflexivity.
Qed.

End HttpFacts.

Section FetchClaims.
Import Py Http SMARTGuidelinesClient HttpSpec HttpFacts Examples.

(** C1 (amended). The five candidates are requested in the declared order,
    and what happens is decided at the first candidate that is not passed
    over. When the first [k] candidates are passed over and the [k]-th
    delivers a document, the document is returned and exactly the first
    [k+1] candidates have been requested; when the [k]-th breaks off with an
    exception that is no [RequestException], that exception leaves the
    function after the same [k+1] requests; and when all five are passed
    over, the result is [None] and all five have been requested. Every
    reply is passed over, delivers or breaks off, so that these are all the
    cases. *)
Theorem fetch_first_delivery (guideline_name : string) (w : world) (k : nat) :
let rqs := candidate_requests guideline_name in
(∀ j rp, (j < k)%nat → reply_at w [] rqs j = Some rp → passed_over rp) →
(∀ d rp, reply_at w [] rqs k = Some rp → delivers d rp →
   run (fetch_smart_guideline guideline_name) w = (Return d, take (S k) rqs))
∧ (∀ e rp, reply_at w [] rqs k = Some rp → breaks_off e rp →
     run (fetch_smart_guideline guideline_name) w = (Raise e, take (S k) rqs))
∧ ((5 ≤ k)%nat →
   run (fetch_smart_guideline guideline_name) w = (Return VNone, rqs))
∧ (∀ rp, passed_over rp ∨ (∃ d, delivers d rp) ∨ (∃ e, breaks_off e rp))
∧ rqs = (λ url, get_request url 10) <$>
        [ "http://build.fhir.org/ig/WorldHealthOrganization/smart-" +:+ guideline_name
            +:+ "/ImplementationGuide-smart-" +:+ guideline_name +:+ ".json";
          "http://build.fhir.org/ig/WorldHealthOrganization/smart-" +:+ guideline_name
            +:+ "/ImplementationGuide.json";
          "https://worldhealthorganization.github.io/smart-" +:+ guideline_name
            +:+ "/ImplementationGuide-smart-" +:+ guideline_name +:+ ".json";
          "https://worldhealthorganization.github.io/smart-" +:+ guideline_name
            +:+ "/ImplementationGuide.json";
          "http://smart.who.int/" +:+ guideline_name
            +:+ "/ImplementationGuide/smart.who.int." +:+ guideline_name +:+ ".json" ].
Proof.
intros rqs Hpassed. split; [|split; [|split; [|split; [apply reply_classified|done]]]].
- intros d rp Hk Hd. unfold run, fetch_smart_guideline.
  apply (fetch_loop_delivers w d _ [] k rp); assumption.
- intros e rp Hk He. unfold run, fetch_smart_guideline.
  apply (fetch_loop_breaks_off w e _ [] k rp); assumption.
- intros Hk. unfold run, fetch_smart_guideline.
  apply (fetch_loop_exhausted w _ []).
  intros j rp Hj. apply (Hpassed j); [|exact Hj].
  unfold reply_at in Hj. apply fmap_Some in Hj as (rq & Hl & _).
  apply lookup_lt_Some in Hl. cbn in Hl. lia.
Qed.

Lemma fetch_first_delivery_witness :
run (fetch_smart_guideline "anc") fourth_delivers
= (Return guide, take 4 (candidate_requests "anc")).
Proof.
apply (proj1 (fetch_first_delivery "anc" fourth_delivers 3
  ltac:(intros [|[|[|j]]] rp Hj Hrp; [| | |lia]; injection Hrp as <-;
        [ apply po_status; discriminate
        | apply po_transport
        | eapply po_body; reflexivity ])) guide (Responded (with_json guide))).
- reflexivity.
- constructor; reflexivity.
Defined.

(** C1 as stated fails: the first response with status 200 is the first
    candidate's, yet the second candidate is requested as well, and it is its
    body that is returned. *)
Lemma fetch_first_200_not_final :
¬ first_200_wins "anc" first_200_not_json.
Proof.
unfold first_200_wins.
assert (run (fetch_smart_guideline "anc") first_200_not_json
        = (Return guide, take 2 (candidate_requests "anc"))) as -> by reflexivity.
intros [H _].
destruct (H 0%nat not_json) as [Hlog _]; [reflexivity|reflexivity| |discriminate Hlog].
intros j r' Hj. lia.
Qed.

(** C5 (amended). When every exception raised by a call of [requests] or by
    [json()] is a [RequestException] (as the JSONDecodeError is that
    requests raises from version 2.27 on for a status-200 body that is not
    JSON), [fetch_smart_guideline] raises nothing: it returns [None], or the
    decoded body of a candidate answered with status 200. An exception of
    another class is not caught: when the candidates before the [k]-th are
    passed over and the [k]-th breaks off with it, it leaves the function
    after [k+1] requests. *)
Theorem fetch_never_raises (guideline_name : string) (w : world) :
let rqs := candidate_requests guideline_name in
(raises_only_RequestException w →
 ∃ result log,
   run (fetch_smart_guideline guideline_name) w = (Return result, log)
   ∧ (result = VNone
      ∨ ∃ k r, reply_at w [] rqs k = Some (Responded r)
               ∧ status_code r = 200 ∧ json r = Return result))
∧ (∀ k e rp,
     (∀ j rp', (j < k)%nat → reply_at w [] rqs j = Some rp' → passed_over rp') →
     reply_at w [] rqs k = Some rp → breaks_off e rp →
     run (fetch_smart_guideline guideline_name) w = (Raise e, take (S k) rqs)).
Proof.
intros rqs. split.
- intros Hw. unfold run, fetch_smart_guideline.
  apply (fetch_loop_returns w (url_patterns guideline_name) [] Hw).
- intros k e rp Hpassed Hk He. unfold run, fetch_smart_guideline.
  apply (fetch_loop_breaks_off w e _ [] k rp); assumption.
Qed.

Lemma fetch_never_raises_witness :
∃ result log,
  run (fetch_smart_guideline "anc") first_200_not_json = (Return result, log)
  ∧ (result = VNone
     ∨ ∃ k r, reply_at first_200_not_json [] (candidate_requests "anc") k
              = Some (Responded r)
              ∧ status_code r = 200 ∧ json r = Return result).
Proof.
apply (proj1 (fetch_never_raises "anc" first_200_not_json)).
apply scripted_contract. repeat constructor.
Defined.

(** C5 as stated fails: where [json()] raises an exception that is no
    [RequestException] (the ValueError of requests before 2.27 for a
    status-200 body that is not JSON), the exception leaves the function. *)
Lemma fetch_propagates_value_error :
¬ never_propagates "anc" json_value_error.
Proof.
unfold never_propagates. intros (result & log & H).
vm_compute in H. discriminate H.
Qed.

End FetchClaims.

(* ================================================================== *)
(** * Repository lookup, availability probe and token exchange *)
(* ================================================================== *)

Section LookupClaims.
Import Py Http SMARTGuidelinesClient HttpSpec HttpFacts Examples.

(** C6 (amended). When the repository lookup is answered with a status other
    than 200 or fails with a transport error, [get_guideline_summary] returns
    the record with the identifier as name and the description
    'Repository information not available'. *)
Theorem summary_fallback_on_failure (guideline_name : string) (w : world) :
lookup_failed (network w [] (summary_request guideline_name)) →
run (get_guideline_summary guideline_name) w
= (Return (VDict [ ("name", VStr guideline_name);
                   ("description", VStr "Repository information not available") ]),
   [summary_request guideline_name]).
Proof.
unfold run, get_guideline_summary, try_except_RequestException.
unfold mbind, M_bind, Http.bind, requests_get, send.
fold (get_request (github_url guideline_name) 10).
fold (summary_request guideline_name).
intros H. cbv beta. inversion H as [r Hs Heq | cls Heq].
- apply Z.eqb_neq in Hs. rewrite Hs. reflexivity.
- reflexivity.
Qed.

Lemma summary_fallback_on_failure_witness :
run (get_guideline_summary "anc") not_found
= (Return (VDict [ ("name", VStr "anc");
                   ("description", VStr "Repository information not available") ]),
   [summary_request "anc"]).
Proof.
apply (summary_fallback_on_failure "anc" not_found).
apply lf_status. discriminate.
Defined.

(** C6 as stated fails: after a 404 the description returned is not the
    text 'not available'. *)
Lemma summary_fallback_not_as_stated :
lookup_failed (network not_found [] (summary_request "anc"))
∧ (run (get_guideline_summary "anc") not_found).1 ≠ Return (stated_fallback "anc").
Proof.
split.
- apply lf_status. discriminate.
- intros H. vm_compute in H. discriminate H.
Qed.

(** A status-200 answer whose body is not JSON is a failed lookup as well,
    under the library's contract. *)
Lemma summary_fallback_on_bad_body :
run (get_guideline_summary "anc") (scripted [Responded not_json] timed_out)
= (Return (summary_fallback "anc"), [summary_request "anc"]).
Proof. reflexivity. Qed.

(** C8. When each of the three HEAD requests is answered or fails with a
    transport failure, [check_guideline_availability] returns a dict with
    exactly the three endpoint names; what is recorded under a name depends
    on the answer to that endpoint's own request only: status 'error' and
    not accessible after a failure, the status code and accessible exactly
    when the code is 200 after a response. *)
Theorem availability_per_endpoint (guideline_name : string) (w : world) :
let rqs := probe_requests guideline_name in
(∀ j rp, reply_at w [] rqs j = Some rp → transport_failure_or_response rp) →
∃ availability,
  run (check_guideline_availability guideline_name) w = (Return availability, rqs)
  ∧ dom availability = {["build_site"; "github_pages"; "github_repo"]}
  ∧ ∀ j name url rp,
      endpoints guideline_name !! j = Some (name, url) →
      reply_at w [] rqs j = Some rp →
      ∃ entry, availability !! name = Some entry
        ∧ av_url entry = url
        ∧ match rp with
          | Failed _ => av_status entry = VStr "error" ∧ av_accessible entry = false
          | Responded r =>
              av_status entry = VInt (status_code r)
              ∧ (av_accessible entry = true ↔ status_code r = 200)
          end.
Proof.
intros rqs Hok.
pose proof (Hok 0%nat _ eq_refl) as H0.
pose proof (Hok 1%nat _ eq_refl) as H1.
pose proof (Hok 2%nat _ eq_refl) as H2.
cbn in H0, H1, H2.
unfold run, check_guideline_availability, endpoints. cbn [for_each].
unfold Http.bind.
rewrite probe_records by exact H0. rewrite probe_records by exact H1.
rewrite probe_records by exact H2.
eexists. split; [reflexivity|]. split.
- rewrite !dom_insert_L, dom_empty_L. set_solver.
- intros j name url rp Hj Hrp.
  assert (∀ u rp0, ∃ entry, Some (recorded u rp0) = Some entry ∧ av_url entry = u
    ∧ match rp0 with
      | Failed _ => av_status entry = VStr "error" ∧ av_accessible entry = false
      | Responded r => av_status entry = VInt (status_code r)
                       ∧ (av_accessible entry = true ↔ status_code r = 200)
      end) as Hrec.
  { intros u [r|e]; eexists; (split; [reflexivity|]); cbn; repeat split; try done.
    - apply Z.eqb_eq.
    - apply Z.eqb_eq. }
  destruct j as [|[|[|j]]]; cbn in Hj; [| | |done];
    injection Hj as <- <-; cbn in Hrp; injection Hrp as <-.
  + rewrite lookup_insert_ne by done. rewrite lookup_insert_ne by done.
    rewrite lookup_insert_eq. apply Hrec.
  + rewrite lookup_insert_ne by done. rewrite lookup_insert_eq. apply Hrec.
  + rewrite lookup_insert_eq. apply Hrec.
Qed.

Lemma availability_per_endpoint_witness :
∃ availability,
  run (check_guideline_availability "anc") pages_unreachable
  = (Return availability, probe_requests "anc")
  ∧ dom availability = {["build_site"; "github_pages"; "github_repo"]}
  ∧ ∀ j name url rp,
      endpoints "anc" !! j = Some (name, url) →
      reply_at pages_unreachable [] (probe_requests "anc") j = Some rp →
      ∃ entry, availability !! name = Some entry
        ∧ av_url entry = url
        ∧ match rp with
          | Failed _ => av_status entry = VStr "error" ∧ av_accessible entry = false
          | Responded r =>
              av_status entry = VInt (status_code r)
              ∧ (av_accessible entry = true ↔ status_code r = 200)
          end.
Proof.
apply (availability_per_endpoint "anc" pages_unreachable).
intros [|[|[|j]]] rp Hrp; cbn in Hrp; [| | |discriminate Hrp];
  injection Hrp as <-; exact I || reflexivity.
Defined.

(** An exception of another class is not caught: it ends the probe. *)
Lemma availability_foreign_exception :
(run (check_guideline_availability "anc")
     (scripted [Responded (with_status 200)]
               (Failed (OtherException "KeyboardInterrupt")))).1
= Raise (OtherException "KeyboardInterrupt").
Proof. reflexivity. Qed.

(** C9 (amended). After a status-200 answer whose body decodes to an object,
    [authenticate_oauth2] returns what the object holds under access_token,
    and [None] when it has no such key; after an answer with another status,
    after a transport error, and after a status-200 answer whose decoding
    raises a [RequestException], it returns [None]. The POST carries the
    line read at the prompt; when [input()] raises, no request is made and
    the exception leaves the function. *)
Theorem token_from_response (this : self)
  (client_id client_secret redirect_uri scope : string) (w : world) :
let result := run (authenticate_oauth2 this client_id client_secret redirect_uri scope) w in
(∀ e, stdin w = Raise e → result = (Raise e, []))
∧ ∀ auth_code, stdin w = Return auth_code →
  let rq := token_request this client_id client_secret redirect_uri auth_code in
  (∀ r d, network w [] rq = Responded r → status_code r = 200 →
          json r = Return (VDict d) →
          result = (Return (default VNone (dict_lookup d "access_token")), [rq]))
  ∧ (∀ r, network w [] rq = Responded r → status_code r ≠ 200 →
          result = (Return VNone, [rq]))
  ∧ (∀ cls, network w [] rq = Failed (RequestException cls) →
            result = (Return VNone, [rq]))
  ∧ (∀ r cls, network w [] rq = Responded r → status_code r = 200 →
              json r = Raise (RequestException cls) →
              result = (Return VNone, [rq])).
Proof.
intros result. subst result.
unfold run, authenticate_oauth2, try_except_RequestException, input.
unfold mbind, M_bind, Http.bind, requests_post, send.
split; [by intros e ->|]. intros auth_code ->.
fold (token_request this client_id client_secret redirect_uri auth_code).
set (rq := token_request this client_id client_secret redirect_uri auth_code).
cbv beta iota. repeat split.
- intros r d -> Hs Hj. rewrite Hs. cbn. unfold response_json, lift. rewrite Hj.
  reflexivity.
- intros r -> Hs. apply Z.eqb_neq in Hs. rewrite Hs. reflexivity.
- intros cls ->. reflexivity.
- intros r cls -> Hs Hj. rewrite Hs. cbn. unfold response_json, lift. rewrite Hj.
  reflexivity.
Qed.

(** C9 as stated fails: the answer has status 200 and the result is
    [None]. *)
Lemma token_missing_after_200 :
¬ token_whenever_200 smart_health_it "id" "secret" "https://app/cb" "patient/*.read"
    no_token_in_body.
Proof.
unfold token_whenever_200. intros H.
destruct (H "4/0AX4XfWh" eq_refl) as [H200 _].
destruct (H200 (with_json (VDict [])) eq_refl eq_refl) as [token Htoken].
vm_compute in Htoken. discriminate Htoken.
Qed.

End LookupClaims.

(* ================================================================== *)
(** * The order of [sorted] *)
(* ================================================================== *)

Module OrderFacts.
Import Unicode Str.

Lemma leb_refl a : leb a a = true.
Proof.
induction a as [|x a IH]; cbn [leb]; [done|].
rewrite N.eqb_refl, IH. by rewrite orb_true_r.
Qed.

Lemma leb_trans a : ∀ b c, leb a b = true → leb b c = true → leb a c = true.
Proof.
induction a as [|x a IH]; intros [|y b] [|z c]; cbn [leb]; try done.
intros Hab Hbc.
apply orb_true_iff in Hab as [Hxy|[Hxy Hab]%andb_true_iff];
  apply orb_true_iff in Hbc as [Hyz|[Hyz Hbc]%andb_true_iff];
  try apply N.ltb_lt in Hxy; try apply N.ltb_lt in Hyz;
  try apply N.eqb_eq in Hxy; try apply N.eqb_eq in Hyz.
- apply orb_true_iff. left. apply N.ltb_lt. lia.
- apply orb_true_iff. left. apply N.ltb_lt. lia.
- apply orb_true_iff. left. apply N.ltb_lt. lia.
- subst. rewrite N.eqb_refl, (IH b c Hab Hbc). by rewrite orb_true_r.
Qed.

Lemma leb_antisym a : ∀ b, leb a b = true → leb b a = true → a = b.
Proof.
induction a as [|x a IH]; intros [|y b]; cbn [leb]; try done.
intros Hab Hba.
apply orb_true_iff in Hab as [Hxy|[Hxy Hab]%andb_true_iff];
  apply orb_true_iff in Hba as [Hyx|[Hyx Hba]%andb_true_iff];
  try apply N.ltb_lt in Hxy; try apply N.ltb_lt in Hyx;
  try apply N.eqb_eq in Hxy; try apply N.eqb_eq in Hyx; try lia.
subst. f_equal. by apply IH.
Qed.

Lemma leb_total a : ∀ b, leb a b = true ∨ leb b a = true.
Proof.
induction a as [|x a IH]; intros [|y b]; cbn [leb]; auto.
destruct (N.lt_trichotomy x y) as [H|[->|H]].
- left. apply orb_true_iff. left. by apply N.ltb_lt.
- rewrite N.eqb_refl, N.ltb_irrefl. cbn. apply IH.
- right. apply orb_true_iff. left. by apply N.ltb_lt.
Qed.

#[global] Instance le_refl : Reflexive le.
Proof. intros a. apply leb_refl. Qed.
#[global] Instance le_trans : Transitive le.
Proof. intros a b c. apply leb_trans. Qed.
#[global] Instance le_antisym : AntiSymm (=) le.
Proof. intros a b. apply leb_antisym. Qed.
#[global] Instance le_total : Total le.
Proof. intros a b. apply leb_total. Qed.

(** A list in strictly increasing order is determined by its elements. *)
Lemma increasing_unique (l1 l2 : list str) :
StronglySorted le l1 → NoDup l1 → StronglySorted le l2 → NoDup l2 →
(∀ x, x ∈ l1 ↔ x ∈ l2) → l1 = l2.
Proof.
intros H1 N1 H2 N2 Hel. apply (StronglySorted_unique le); [done|done|].
by apply NoDup_Permutation.
Qed.

End OrderFacts.

(* ================================================================== *)
(** * Text content: [parse_implementation_guide_html] *)
(* ================================================================== *)

Module GuideFacts.
Import Py Unicode Re ReSpec ReFacts SMARTGuidelinesClient GuideSpec OrderFacts.

Section Guide.
Context {db : Database}.

Lemma extract_stripped_returns pattern html_content dflt :
sets 1 pattern = true →
∃ v, extract_stripped pattern html_content dflt = Return v.
Proof.
intros Hp. unfold extract_stripped.
destruct (search pattern html_content IGNORECASE) as [mt|] eqn:Hs; [|eauto].
destruct (search_group_set _ _ _ _ 1 Hp Hs) as [g Hg].
unfold group1_strip. rewrite Hg. eauto.
Qed.

Lemma fold_add_section_returns items : ∀ sections,
Forall is_FStr items →
∃ sections', fold_outcome add_section items sections = Return sections'.
Proof.
induction items as [|item items IH]; intros sections Hitems; cbn [fold_outcome].
- eauto.
- apply Forall_cons in Hitems as [Hitem Hitems].
  destruct item as [heading|gs]; [|done]. cbn [add_section].
  match goal with |- context [if ?b then _ else _] => destruct b end;
    cbn [mbind outcome_bind Py.bind]; apply IH, Hitems.
Qed.

Lemma fold_sections_returns html_content patterns : ∀ sections,
Forall (λ pattern, ngroups pattern = 1%nat) patterns →
∃ sections',
  fold_outcome
    (λ sections pattern,
       fold_outcome add_section (findall pattern html_content IGNORECASE) sections)
    patterns sections = Return sections'.
Proof.
induction patterns as [|p patterns IH]; intros sections Hp; cbn [fold_outcome].
- eauto.
- apply Forall_cons in Hp as [Hp Hps].
  destruct (fold_add_section_returns (findall p html_content IGNORECASE) sections)
    as [s1 ->]; [by apply findall_one_group|].
  cbn [mbind outcome_bind Py.bind]. by apply IH.
Qed.

Lemma collect_sections_returns html_content :
∃ sections, collect_sections html_content = Return sections.
Proof. apply fold_sections_returns. by repeat constructor. Qed.

Lemma add_link_returns useful_links href anchor :
∃ useful_links', add_link useful_links (FTuple [href; anchor]) = Return useful_links'.
Proof.
unfold add_link. cbn [unpack2 mbind outcome_bind Py.bind].
match goal with |- context [if ?b then _ else _] => destruct b end; eauto.
Qed.

Lemma fold_add_link_returns items : ∀ useful_links,
(∀ item, item ∈ items → ∃ href anchor, item = FTuple [href; anchor]) →
∃ useful_links', fold_outcome add_link items useful_links = Return useful_links'.
Proof.
induction items as [|item items IH]; intros useful_links Hitems; cbn [fold_outcome].
- eauto.
- destruct (Hitems item) as (href & anchor & ->); [left|].
  destruct (add_link_returns useful_links href anchor) as [acc ->].
  cbn [mbind outcome_bind Py.bind]. apply IH.
  intros item' Hin. apply Hitems. by right.
Qed.

(** None of the script's patterns matches the empty word, so that every
    match [findall] and [sub] step over shortens the text. *)
Lemma script_patterns_not_nullable :
Forall (λ pattern, nullable pattern = false)
  ([title_pattern; desc_pattern; link_pattern; not_word_space_hyphen; whitespace_run]
   ++ version_patterns ++ section_patterns ++ fhir_patterns
   ++ download_patterns ++ package_patterns).
Proof. repeat constructor. Qed.

(** Parsing a guide page raises nothing, whatever the text. *)
Lemma parse_implementation_guide_html_returns html_content source_url :
∃ title description sections useful_links,
  collect_sections html_content = Return sections
  ∧ parse_implementation_guide_html html_content source_url =
    Return {| info_source_url := source_url;
              info_title := title;
              info_version :=
                extract_version version_patterns html_content
                  (Some (u "Unknown Version"));
              info_description := description;
              info_sections := take 10 (sorted (elements sections));
              info_resources := take 15 (sorted (elements (collect_resources html_content)));
              info_links := take 10 useful_links |}.
Proof.
unfold parse_implementation_guide_html.
destruct (extract_stripped_returns title_pattern html_content (u "Unknown Title"))
  as [title ->]; [reflexivity|].
destruct (extract_stripped_returns desc_pattern html_content [])
  as [description ->]; [reflexivity|].
destruct (collect_sections_returns html_content) as [sections Hsec].
destruct (fold_add_link_returns (findall link_pattern html_content IGNORECASE) [])
  as [useful_links Hlinks].
{ intros item Hin. apply findall_two_groups in Hin as (s0 & s1 & c & _ & ->); [|done].
  eauto. }
exists title, description, sections, useful_links. split; [done|].
cbn [mbind outcome_bind Py.bind]. rewrite Hsec. cbn [Py.bind]. rewrite Hlinks.
reflexivity.
Qed.

(** The loop over the version patterns stops at the first pattern found in
    the text. *)
Lemma extract_version_first html_content dflt patterns : ∀ i pattern mt,
patterns !! i = Some pattern →
search pattern html_content IGNORECASE = Some mt →
(∀ j earlier, (j < i)%nat → patterns !! j = Some earlier →
              search earlier html_content IGNORECASE = None) →
extract_version patterns html_content dflt = group mt 1.
Proof.
induction patterns as [|p patterns IH]; intros i pattern mt Hi Hfound Hearlier.
- done.
- cbn [extract_version]. destruct i as [|i].
  + injection Hi as ->. by rewrite Hfound.
  + rewrite (Hearlier 0%nat p) by (done || lia).
    apply (IH i pattern mt); [done..|].
    intros j earlier Hj Hl. apply (Hearlier (S j)); [lia|done].
Qed.

Lemma extract_version_default html_content dflt patterns :
(∀ pattern, pattern ∈ patterns → search pattern html_content IGNORECASE = None) →
extract_version patterns html_content dflt = dflt.
Proof.
induction patterns as [|p patterns IH]; intros Hnone; [done|].
cbn [extract_version]. rewrite (Hnone p) by left.
apply IH. intros pattern Hin. apply Hnone. by right.
Qed.

(** [take n (sorted (elements s))]: no duplicates, in order, at most [n]
    long, made of elements of the set, and the same whatever the order in
    which the set hands out its elements. *)
Lemma sorted_elements_capped (s : gset str) (n : nat) :
NoDup (take n (sorted (elements s)))
∧ StronglySorted Str.le (take n (sorted (elements s)))
∧ (length (take n (sorted (elements s))) ≤ n)%nat
∧ (∀ x, x ∈ take n (sorted (elements s)) → x ∈ s)
∧ (∀ l, l ≡ₚ elements s → take n (sorted l) = take n (sorted (elements s))).
Proof.
unfold sorted. repeat split.
- eapply sublist_NoDup; [|apply sublist_take].
  rewrite merge_sort_Permutation. apply NoDup_elements.
- eapply StronglySorted_app_1_l. rewrite take_drop.
  apply StronglySorted_merge_sort; apply _.
- rewrite length_take. lia.
- intros x Hx. apply elem_of_elements.
  rewrite <- (merge_sort_Permutation Str.le).
  apply elem_of_take in Hx as (i & Hi & _). by eapply list_elem_of_lookup_2.
- intros l Hl. f_equal. apply (Sorted_unique Str.le).
  + apply Sorted_merge_sort; apply _.
  + apply Sorted_merge_sort; apply _.
  + by rewrite !merge_sort_Permutation.
Qed.

(** [sorted (elements s)] lists the set: every element once, in increasing
    order. *)
Lemma sorted_elements_lists (s : gset str) : lists_in_order s (sorted (elements s)).
Proof.
unfold lists_in_order, sorted. split; [|split].
- apply StronglySorted_merge_sort; apply _.
- rewrite merge_sort_Permutation. apply NoDup_elements.
- intros x. rewrite merge_sort_Permutation. apply elem_of_elements.
Qed.

End Guide.

End GuideFacts.

Section GuideClaims.
Import Py Unicode Re ReSpec ReFacts SMARTGuidelinesClient GuideSpec GuideFacts Examples.
Context {db : Database}.

Lemma version_patterns_set_group pattern :
pattern ∈ version_patterns → sets 1 pattern = true.
Proof.
unfold version_patterns. rewrite !elem_of_cons, elem_of_nil.
intros [->|[->|[->|[]]]]; reflexivity.
Qed.

(** C3. The version of a guide page is the number of the labeled form when
    the labeled form is found anywhere in the text; otherwise the number of
    the key and value form when that is found; otherwise the number of the
    bare form when that is found; and the default otherwise. What a later
    form would find plays no part: where the bare form occurs first in the
    text and the labeled form after it, the labeled number is the version.
    White space is what the Unicode database says: with the tables of
    Python 3.11 a no-break space after the label is white space, and the
    labeled number is found. *)
Theorem version_by_priority :
(∀ html_content source_url, ∃ info,
   parse_implementation_guide_html html_content source_url = Return info
   ∧ is_Some (info_version info)
   ∧ info_version info =
       match search labeled_form html_content IGNORECASE with
       | Some found => group found 1
       | None =>
           match search key_value_form html_content IGNORECASE with
           | Some found => group found 1
           | None =>
               match search bare_form html_content IGNORECASE with
               | Some found => group found 1
               | None => Some (u "Unknown Version")
               end
           end
       end)
∧ version_of (u "<p>build v3.4</p><p>Version: 1.2</p>") = Some (Some (u "1.2"))
∧ version_of (u "<p>v3.4, version='2.0.1'</p>") = Some (Some (u "2.0.1"))
∧ version_of (u "<p>v3.4</p>") = Some (Some (u "3.4"))
∧ version_of (u "<p>VERSION 7.10 (v3.4)</p>") = Some (Some (u "7.10"))
∧ version_of (u "<p>Version 5</p>") = Some (Some (u "Unknown Version"))
∧ version_of (db := python311_latin1)
    (u "Version:" ++ [no_break_space] ++ u "1.2 v9.9") = Some (Some (u "1.2")).
Proof.
split; [|by vm_compute].
intros html_content source_url.
destruct (parse_implementation_guide_html_returns html_content source_url)
  as (title & description & sections & useful_links & _ & ->).
eexists. split; [reflexivity|]. cbn [info_version].
split; [|reflexivity].
change (is_Some
  match search labeled_form html_content IGNORECASE with
  | Some found => group found 1
  | None =>
      match search key_value_form html_content IGNORECASE with
      | Some found => group found 1
      | None =>
          match search bare_form html_content IGNORECASE with
          | Some found => group found 1
          | None => Some (u "Unknown Version")
          end
      end
  end).
destruct (search labeled_form html_content IGNORECASE) as [found|] eqn:H1.
{ by eapply search_group_set; [|exact H1]. }
destruct (search key_value_form html_content IGNORECASE) as [found|] eqn:H2.
{ by eapply search_group_set; [|exact H2]. }
destruct (search bare_form html_content IGNORECASE) as [found|] eqn:H3.
{ by eapply search_group_set; [|exact H3]. }
by eexists.
Qed.

(** C7. The sections and the resources of a guide page are the first 10 and
    the first 15 of the list that holds every element of the set the page
    gives exactly once, in increasing order of the code points. So they
    have no duplicates, are sorted and are at most 10 and 15 long; and they
    are the same whatever the order in which the set hands out its elements,
    so that parsing the same text again gives the same lists. On the page
    [many_headings], with thirteen distinct sections and three distinct
    resources, they are the ten and the three listed; on the page
    [accented_headings], with the tables of Python 3.11, the accented
    letter is kept and comes after the plain one, and the header whose
    class is spelled with a long s is found. *)
Theorem sections_resources_sorted_capped :
(∀ html_content source_url, ∃ info sections all_sections all_resources,
   parse_implementation_guide_html html_content source_url = Return info
   ∧ collect_sections html_content = Return sections
   ∧ lists_in_order sections all_sections
   ∧ info_sections info = take 10 all_sections
   ∧ lists_in_order (collect_resources html_content) all_resources
   ∧ info_resources info = take 15 all_resources
   ∧ (NoDup (info_sections info)
      ∧ StronglySorted Str.le (info_sections info)
      ∧ (length (info_sections info) ≤ 10)%nat
      ∧ ∀ l, l ≡ₚ elements sections → take 10 (sorted l) = info_sections info)
   ∧ (NoDup (info_resources info)
      ∧ StronglySorted Str.le (info_resources info)
      ∧ (length (info_resources info) ≤ 15)%nat
      ∧ ∀ l, l ≡ₚ elements (collect_resources html_content) →
             take 15 (sorted l) = info_resources info))
∧ (∃ info,
     parse_implementation_guide_html many_headings "" = Return info
     ∧ info_sections info
       = [u "Beta two"; u "Delta"; u "Div header"; u "Epsilon"; u "Gamma";
          u "Kappa"; u "Lambda"; u "Omega"; u "Sigma"; u "Theta"]
     ∧ info_resources info = [u "CodeSystem: x"; u "ValueSet: a"; u "ValueSet: b"])
∧ (∃ info,
     parse_implementation_guide_html (db := python311_latin1) accented_headings ""
     = Return info
     ∧ info_sections info
       = [u "Intro"; u "Sante publique"; u "Sant" ++ [e_acute] ++ u " publique";
          u "Zone"]).
Proof.
split; [|split; eexists; by vm_compute].
intros html_content source_url.
destruct (parse_implementation_guide_html_returns html_content source_url)
  as (title & description & sections & useful_links & Hsec & ->).
eexists _, sections, _, _. split; [reflexivity|]. split; [exact Hsec|].
cbn [info_sections info_resources].
split; [apply sorted_elements_lists|]. split; [reflexivity|].
split; [apply sorted_elements_lists|]. split; [reflexivity|].
split.
- destruct (sorted_elements_capped sections 10) as (? & ? & ? & _ & ?). done.
- destruct (sorted_elements_capped (collect_resources html_content) 15)
    as (? & ? & ? & _ & ?). done.
Qed.

End GuideClaims.

(** The code of a character of a pattern, computed. *)
Ltac codes :=
  repeat match goal with
         | |- context [Unicode.code ?c] =>
             let v := eval vm_compute in (Unicode.code c) in
             change (Unicode.code c) with v
         end.

Section ResourceClaims.
Import Py Unicode Re ReSpec ReFacts SMARTGuidelinesClient GuideSpec GuideFacts Examples.
Context {db : Database}.

Lemma id_char_letter x :
atom_match NOFLAG id_char x = true → id_letter x = true.
Proof.
unfold id_letter, isupper, islower, isdigit. cbn. codes.
repeat match goal with
       | |- context [between ?a ?b x] => destruct (between a b x)
       | |- context [(x =? ?a)%N] => destruct (x =? a)%N
       end; done.
Qed.

Lemma plus_id_char x w :
atom_match NOFLAG id_char x = true →
Forall (λ y, atom_match NOFLAG id_char y = true) w →
id_text (x :: w).
Proof.
intros Hx Hw. split; [done|]. constructor; [by apply id_char_letter|].
eapply Forall_impl; [exact Hw|]. apply id_char_letter.
Qed.

(** A match of the Type/id pattern is one of the five type names, letter for
    letter, a slash and an id; the name is its group 1 and the id its
    group 2. *)
Lemma matches_type_reference w c :
matches NOFLAG
  (cat [Group 1 (alt (lit <$> fhir_type_names)); lit "/"; Group 2 (Plus id_char)])
  w [] c →
∃ name id, name ∈ fhir_type_names ∧ id_text id
           ∧ w = u name ++ u "/" ++ id
           ∧ group_or_empty c 1 = u name ∧ group_or_empty c 2 = id.
Proof.
cbn [cat]. intros H.
inversion H as [| |r1 r2 w1 w2 c0 c1 c2 H1 H2| | | | | | |]; subst.
inversion H1 as [| | | | | | | | |n r w0 c0 c0' Hg]; subst.
apply (matches_alt_lits fhir_type_names) in Hg as (name & Hin & -> & ->).
inversion H2 as [| |r1 r2 w3 w4 c0 c3 c4 H3 H4| | | | | | |]; subst.
apply matches_lit_chars in H3 as (-> & _ & Hw3). rewrite Hw3 by done.
inversion H4 as [| |r1 r2 w5 w6 c0 c5 c6 H5 H6| | | | | | |]; subst.
inversion H5 as [| | | | | | | | |n r w0 c0 c0' Hg]; subst.
inversion Hg as [| | | | | | | |a x w c0 Hx Hw|]; subst. inversion H6; subst.
exists name, (x :: w). split; [done|]. split; [by apply plus_id_char|].
split; [by rewrite app_nil_r|]. done.
Qed.

(** A match of the textual pattern is the capitals FHIR, white space and a
    capitalised word, which is its group 1; its group 2, when it is set, is
    an id. *)
Lemma matches_textual_reference w c :
matches NOFLAG
  (cat [lit "FHIR"; Plus space;
        Group 1 (cat [Atom (Set_ false [SRange "A" "Z"]);
                      Plus (Set_ false [SRange "a" "z"; SRange "A" "Z"])]);
        Star space; Opt (Atom (Lit ":")); Star space;
        Opt (Group 2 (Plus id_char))])
  w [] c →
∃ sp ty rest, w = u "FHIR" ++ sp ++ ty ++ rest
  ∧ sp ≠ [] ∧ Forall (λ x, isspace x = true) sp
  ∧ capitalised ty
  ∧ group_or_empty c 1 = ty
  ∧ (group_or_empty c 2 = [] ∨ id_text (group_or_empty c 2)).
Proof.
cbn [cat]. intros H.
inversion H as [| |r1 r2 w1 w2 c0 c1 c2 M1 M2| | | | | | |]; subst.
apply matches_lit_chars in M1 as (-> & _ & Hw1). rewrite Hw1 by done.
inversion M2 as [| |r1 r2 w3 w4 c0 c3 c4 M3 M4| | | | | | |]; subst.
inversion M3 as [| | | | | | | |a x sp c0 Hx Hsp|]; subst.
inversion M4 as [| |r1 r2 w5 w6 c0 c5 c6 M5 M6| | | | | | |]; subst.
inversion M5 as [| | | | | | | | |n r ty c0 c0' Hg]; subst.
inversion Hg as [| |r1 r2 t1 t2 c0 c7 c8 Ht1 Ht2| | | | | | |]; subst.
inversion Ht1 as [|a y c0 Hy| | | | | | | |]; subst.
inversion Ht2 as [| |r1 r2 t3 t4 c0 c9 c10 Ht3 Ht4| | | | | | |]; subst.
inversion Ht3 as [| | | | | | | |a z l c0 Hz Hl|]; subst.
inversion Ht4; subst.
inversion M6 as [| |r1 r2 w7 w8 c0 c11 c12 M7 M8| | | | | | |]; subst.
inversion M7; subst.
inversion M8 as [| |r1 r2 w9 w10 c0 c13 c14 M9 M10| | | | | | |]; subst.
assert (c13 = [(1%nat, [y] ++ (z :: l) ++ [])]) as ->.
{ inversion M9 as [| | | | |r w0 c0 c0' Ho|r c0| | |]; subst; [|done].
  by inversion Ho. }
inversion M10 as [| |r1 r2 w11 w12 c0 c15 c16 M11 M12| | | | | | |]; subst.
inversion M11; subst.
inversion M12 as [| |r1 r2 w13 w14 c0 c17 c18 M13 M14| | | | | | |]; subst.
inversion M14; subst.
exists (x :: sp), ([y] ++ (z :: l) ++ []), (w7 ++ w9 ++ w11 ++ w13 ++ []).
split; [by rewrite <- !app_assoc|]. split; [done|].
split.
{ rewrite space_match in Hx. constructor; [done|].
  eapply Forall_impl; [exact Hsp|]. intros v Hv. cbv beta in Hv.
  by rewrite space_match in Hv. }
split.
{ exists y, (z :: l). rewrite app_nil_r. split; [done|].
  cbn in Hy. rewrite orb_false_r in Hy. split; [exact Hy|]. split; [done|].
  assert (∀ v, atom_match NOFLAG (Set_ false [SRange "a" "z"; SRange "A" "Z"]) v = true →
               isupper v || islower v = true) as Hletter.
  { intros v. unfold isupper, islower. cbn. rewrite orb_false_r. by rewrite orb_comm. }
  constructor; [by apply Hletter|]. eapply Forall_impl; [exact Hl|]. apply Hletter. }
inversion M13 as [| | | | |r w0 c0 c0' Ho|r c0| | |]; subst.
- inversion Ho as [| | | | | | | | |n r wg c0 c0' Hg2]; subst.
  inversion Hg2 as [| | | | | | | |a v wv c0 Hv Hwv|]; subst.
  split; [done|]. right. by apply plus_id_char.
- split; [done|]. by left.
Qed.

(** Every match of either resource pattern starts with an ASCII capital. *)
Lemma matches_fhir_capital pattern w c :
pattern ∈ fhir_patterns → matches NOFLAG pattern w [] c →
∃ x w', w = x :: w' ∧ isupper x = true.
Proof.
unfold fhir_patterns. rewrite !elem_of_cons, elem_of_nil.
intros [->|[->|[]]] H.
- apply matches_type_reference in H as (name & id & Hin & _ & -> & _).
  unfold fhir_type_names in Hin. rewrite !elem_of_cons, elem_of_nil in Hin.
  destruct Hin as [->|[->|[->|[->|[->|[]]]]]]; by eexists _, _.
- apply matches_textual_reference in H as (sp & ty & rest & -> & _). by eexists _, _.
Qed.

Lemma findall_fhir_lower_case html_content pattern :
pattern ∈ fhir_patterns →
Forall (λ x, isupper x = false) html_content →
findall pattern html_content NOFLAG = [].
Proof.
intros Hp Hlow. unfold findall. rewrite scan_nil; [done|].
intros s0 s1 w c [pre Hsuf] -> Hm.
destruct (matches_fhir_capital _ _ _ Hp Hm) as (x & w' & -> & Hx).
rewrite Forall_forall in Hlow. rewrite (Hlow x) in Hx; [done|].
rewrite Hsuf. apply elem_of_app. right. left.
Qed.

Lemma fold_add_resource_elem items : ∀ resources e,
e ∈ fold_left add_resource items resources →
e ∈ resources
∨ ∃ resource_type resource_id rest,
    FTuple (resource_type :: resource_id :: rest) ∈ items
    ∧ resource_id ≠ []
    ∧ e = resource_type ++ u ": " ++ resource_id.
Proof.
induction items as [|item items IH]; intros resources e; cbn [fold_left]; [by left|].
intros He. apply IH in He as [He|(ty & id & rest & Hin & Hid & ->)].
- destruct item as [s|[|ty [|id rest]]]; cbn [add_resource] in He; try by left.
  destruct id as [|i id]; cbn [Str.truthy] in He; [by left|].
  apply elem_of_union in He as [He|He]; [|by left].
  apply elem_of_singleton in He as ->. right.
  exists ty, (i :: id), rest. split; [left|done].
- right. exists ty, id, rest. split; [by right|done].
Qed.

(** C10 (amended). The resource patterns are matched as written, capitals
    included, while title, description, version, sections and links are
    matched whatever the case. Every entry of the resources is a type, a
    colon, a blank and an id, and comes from the text in one of two ways:
    the type is one of the five names, spelled exactly, and the text holds
    the name, a slash and the id; or the type is any capitalised word, and
    the text holds it after the capitals FHIR and white space. A text
    without ASCII capitals has no resources. So on the page [capital_tags]
    title, description, version, section and link are found and
    valueset/abc gives no entry; ValueSet/abc gives one; and FHIR VALUESET
    abc gives an entry whose type is none of the five. *)
Theorem resource_types_case_sensitive :
(∀ html_content source_url, ∃ info,
   parse_implementation_guide_html html_content source_url = Return info
   ∧ (Forall (λ x, isupper x = false) html_content → info_resources info = [])
   ∧ (∀ e, e ∈ info_resources info →
        (∃ name id pre post,
           name ∈ fhir_type_names ∧ id_text id
           ∧ e = u name ++ u ": " ++ id
           ∧ html_content = pre ++ u name ++ u "/" ++ id ++ post)
        ∨ (∃ resource_type id pre sp post,
             capitalised resource_type ∧ id_text id
             ∧ e = resource_type ++ u ": " ++ id
             ∧ sp ≠ [] ∧ Forall (λ x, isspace x = true) sp
             ∧ html_content = pre ++ u "FHIR" ++ sp ++ resource_type ++ post)))
∧ fhir_type_names
  = ["StructureDefinition"; "ValueSet"; "CodeSystem"; "ConceptMap"; "ImplementationGuide"]
∧ parse_implementation_guide_html capital_tags ""
  = Return {| info_source_url := "";
              info_title := u "t";
              info_version := Some (u "1.2");
              info_description := u "d";
              info_sections := [u "Heading"];
              info_resources := [];
              info_links := [{| link_url := u "/g"; link_text := u "User Guide" |}] |}
∧ (∃ info, parse_implementation_guide_html (u "<TITLE>t</TITLE> ValueSet/abc") ""
           = Return info
           ∧ info_resources info = [u "ValueSet: abc"] ∧ info_title info = u "t")
∧ (∃ info, parse_implementation_guide_html (u "FHIR VALUESET abc, fhir Patient p1") ""
           = Return info
           ∧ info_resources info = [u "VALUESET: abc"]).
Proof.
split; [|split; [done|split; [by vm_compute|repeat split; eexists; by vm_compute]]].
intros html_content source_url.
destruct (parse_implementation_guide_html_returns html_content source_url)
  as (title & description & sections & useful_links & _ & ->).
eexists. split; [reflexivity|]. cbn [info_resources]. split.
- intros Hlow. unfold collect_resources.
  assert (∀ pattern, pattern ∈ fhir_patterns →
            findall pattern html_content NOFLAG = []) as Hnone.
  { intros pattern Hp. by apply findall_fhir_lower_case. }
  unfold fhir_patterns in *. cbn [fold_left].
  rewrite !Hnone; [reflexivity|left|right; left].
- intros e He. apply sorted_elements_capped in He.
  unfold collect_resources, fhir_patterns in He. cbn [fold_left] in He.
  apply fold_add_resource_elem in He as [He|(ty & id & rest & Hin & Hid & ->)].
  + apply fold_add_resource_elem in He as [He|(ty & id & rest & Hin & Hid & ->)].
    { by apply elem_of_empty in He. }
    left. apply findall_two_groups in Hin as (s0 & s1 & c & Hscan & Heq); [|done].
    injection Heq as -> -> ->.
    apply scan_sound in Hscan as [[pre ->] (w & -> & Hm)].
    apply matches_type_reference in Hm as (name & id' & Hname & Hid' & -> & -> & ->).
    exists name, id', pre, s1. split; [done|]. split; [done|]. split; [done|].
    by rewrite <- !app_assoc.
  + right. apply findall_two_groups in Hin as (s0 & s1 & c & Hscan & Heq); [|done].
    injection Heq as -> -> ->.
    apply scan_sound in Hscan as [[pre ->] (w & -> & Hm)].
    apply matches_textual_reference in Hm
      as (sp & ty & rest & -> & Hsp & Hspace & Hty & <- & Hg2).
    destruct Hg2 as [Hg2|Hg2]; [done|].
    exists (group_or_empty c 1), (group_or_empty c 2), pre, sp, (rest ++ s1).
    split; [done|]. split; [done|]. split; [done|]. split; [done|]. split; [done|].
    by rewrite <- !app_assoc.
Qed.

End ResourceClaims.

Section ResourceCounterexample.
Import Py Unicode Re SMARTGuidelinesClient GuideSpec.

(** C10 as stated fails: FHIR VALUESET abc gives the entry VALUESET: abc,
    whose type is none of the five names, whatever the Unicode database. *)
Lemma unlisted_type_gives_entry :
¬ ∃ db : Database, listed_types_only (u "FHIR VALUESET abc").
Proof.
intros [db H].
destruct (H {| info_source_url := ""; info_title := u "Unknown Title";
               info_version := Some (u "Unknown Version"); info_description := [];
               info_sections := []; info_resources := [u "VALUESET: abc"];
               info_links := [] |} (u "VALUESET: abc"))
  as (name & id & Hname & He); [by vm_compute|left|].
unfold fhir_type_names in Hname. rewrite !elem_of_cons, elem_of_nil in Hname.
destruct Hname as [->|[->|[->|[->|[->|[]]]]]]; vm_compute in He; discriminate He.
Qed.

End ResourceCounterexample.

(* ================================================================== *)
(** * Text content: [parse_downloads_html] *)
(* ================================================================== *)

Section DownloadClaims.
Import Py Unicode Re ReSpec ReFacts SMARTGuidelinesClient.
Context {db : Database}.

Lemma fold_add_file_strings items : ∀ downloads,
Forall is_FStr items → fold_left add_file items downloads = downloads.
Proof.
induction items as [|item items IH]; intros downloads Hitems; [done|].
apply Forall_cons in Hitems as [Hitem Hitems]. cbn [fold_left].
destruct item as [s|gs]; [|done]. destruct downloads as [files formats].
cbn [add_file]. by apply IH.
Qed.

(** The third download pattern has a single group, so what it finds is
    listed as strings, which the loop passes over: it never adds a file. *)
Lemma third_download_pattern_adds_nothing html_content pattern downloads :
download_patterns !! 2%nat = Some pattern →
fold_left add_file (findall pattern html_content IGNORECASE) downloads = downloads.
Proof.
intros [= <-]. apply fold_add_file_strings. by apply findall_one_group.
Qed.

(** C4 (at the failing input). An anchor whose href holds the word files,
    with neither a listed extension nor one of the listed path words, and a
    description of 15 characters: the third pattern finds the href, and no
    file entry is made. *)
Theorem download_anchor_third_pattern_only :
∃ pattern,
  download_patterns !! 2%nat = Some pattern
  ∧ findall pattern (u "<a href='files/history'>Version history</a>") IGNORECASE
    = [FStr (u "files/history")]
  ∧ dl_files (parse_downloads_html (u "<a href='files/history'>Version history</a>")
                "https://example.org/downloads.html") = [].
Proof. eexists. repeat split; by vm_compute. Qed.

(** The same anchor with a listed extension is entered, by the first
    pattern. *)
Example download_anchor_first_pattern :
dl_files (parse_downloads_html (u "<a href='files/history.zip'>Version history</a>")
            "https://example.org/downloads.html")
= [{| file_url := u "files/history.zip"; file_description := u "Version history";
      file_format := u "zip" |}].
Proof. by vm_compute. Qed.

End DownloadClaims.

(* ================================================================== *)
(** * Further properties of the two parsers *)
(* ================================================================== *)

Section ParserProperties.
Import Py Unicode Re SMARTGuidelinesClient GuideFacts Examples.
Context {db : Database}.

Lemma extract_stripped_default pattern html_content dflt :
search pattern html_content IGNORECASE = None →
extract_stripped pattern html_content dflt = Return dflt.
Proof. intros H. unfold extract_stripped. by rewrite H. Qed.

(** X1. Parsing a guide page raises nothing, whatever the text, and a field
    that is not found keeps its default: the title when the title pattern
    is found nowhere, the description likewise, the version when none of
    its patterns is found, and the sections, the resources and the links
    are empty when their patterns find nothing. On the empty page every
    field has its default. *)
Theorem guide_page_never_raises (html_content : str) (source_url : string) :
(∃ info,
   parse_implementation_guide_html html_content source_url = Return info
   ∧ info_source_url info = source_url
   ∧ (search title_pattern html_content IGNORECASE = None →
      info_title info = u "Unknown Title")
   ∧ (search desc_pattern html_content IGNORECASE = None →
      info_description info = [])
   ∧ ((∀ pattern, pattern ∈ version_patterns →
                  search pattern html_content IGNORECASE = None) →
      info_version info = Some (u "Unknown Version"))
   ∧ ((∀ pattern, pattern ∈ section_patterns →
                  findall pattern html_content IGNORECASE = []) →
      info_sections info = [])
   ∧ ((∀ pattern, pattern ∈ fhir_patterns →
                  findall pattern html_content NOFLAG = []) →
      info_resources info = [])
   ∧ (findall link_pattern html_content IGNORECASE = [] → info_links info = []))
∧ parse_implementation_guide_html [] source_url
  = Return {| info_source_url := source_url;
              info_title := u "Unknown Title";
              info_version := Some (u "Unknown Version");
              info_description := [];
              info_sections := [];
              info_resources := [];
              info_links := [] |}.
Proof.
split; [|reflexivity].
destruct (parse_implementation_guide_html_returns html_content source_url)
  as (title & description & sections & useful_links & Hsec & Hparse).
rewrite Hparse. eexists. split; [reflexivity|].
cbn [info_source_url info_title info_description info_version info_sections
     info_resources info_links].
split; [done|].
unfold parse_implementation_guide_html in Hparse.
split; [|split; [|split; [|split; [|split]]]].
- intros Hnone. rewrite (extract_stripped_default _ _ _ Hnone) in Hparse.
  cbn [mbind outcome_bind Py.bind] in Hparse.
  destruct (extract_stripped desc_pattern html_content []); [|done].
  cbn [Py.bind] in Hparse.
  destruct (collect_sections html_content); [|done]. cbn [Py.bind] in Hparse.
  destruct (fold_outcome add_link _ []); [|done]. cbn [Py.bind] in Hparse.
  apply (f_equal (λ o, match o with Return i => info_title i | Raise _ => [] end))
    in Hparse. done.
- intros Hnone.
  destruct (extract_stripped title_pattern html_content _); [|done].
  cbn [mbind outcome_bind Py.bind] in Hparse.
  rewrite (extract_stripped_default _ _ _ Hnone) in Hparse. cbn [Py.bind] in Hparse.
  destruct (collect_sections html_content); [|done]. cbn [Py.bind] in Hparse.
  destruct (fold_outcome add_link _ []); [|done]. cbn [Py.bind] in Hparse.
  apply (f_equal (λ o, match o with Return i => info_description i | Raise _ => [] end))
    in Hparse. done.
- apply extract_version_default.
- intros Hnone. unfold collect_sections, section_patterns in Hsec.
  cbn [fold_outcome] in Hsec. rewrite !Hnone in Hsec by (left || (right; left)).
  cbn in Hsec. by injection Hsec as <-.
- intros Hnone. unfold collect_resources, fhir_patterns. cbn [fold_left].
  by rewrite !Hnone by (left || (right; left)).
- intros Hnone. rewrite Hnone in Hparse.
  destruct (extract_stripped title_pattern html_content _); [|done].
  cbn [mbind outcome_bind Py.bind] in Hparse.
  destruct (extract_stripped desc_pattern html_content []); [|done].
  cbn [Py.bind] in Hparse. rewrite Hsec in Hparse. cbn in Hparse.
  apply (f_equal (λ o, match o with Return i => info_links i | Raise _ => [] end))
    in Hparse. done.
Qed.

(** A page with a title holding a bare version and one heading: the
    title is kept whole, the version comes from the bare pattern, and the
    heading is the one section. *)
Example guide_page_bare_version :
parse_implementation_guide_html (u "<title>My Guide v2.3</title><h1>Intro</h1>")
  "http://build.fhir.org/ig/WorldHealthOrganization/smart-anc/"
= Return {| info_source_url := "http://build.fhir.org/ig/WorldHealthOrganization/smart-anc/";
            info_title := u "My Guide v2.3";
            info_version := Some (u "2.3");
            info_description := [];
            info_sections := [u "Intro"];
            info_resources := [];
            info_links := [] |}.
Proof. by vm_compute. Qed.

(** Of two anchors, the one whose text holds none of the keywords is
    left out and the one whose text holds guide is kept. *)
Example links_need_a_keyword :
∃ info,
  parse_implementation_guide_html two_anchors "" = Return info
  ∧ info_links info = [{| link_url := u "/g"; link_text := u "User Guide" |}].
Proof. eexists. split; by vm_compute. Qed.

(** On two anchors: the format of a download is the lower-cased text after
    the last dot of its href, and unknown when the href has no dot. *)
Example download_formats :
dl_files (parse_downloads_html
            (u "<a href='out/Report.JSON'>Validation report</a><a href='full-ig'>Full specification</a>")
            "")
= [ {| file_url := u "out/Report.JSON"; file_description := u "Validation report";
       file_format := u "json" |};
    {| file_url := u "full-ig"; file_description := u "Full specification";
       file_format := u "unknown" |} ].
Proof. by vm_compute. Qed.

(** On one text: package phrases are listed once per occurrence, pattern by
    pattern, without removing repeats. *)
Example packages_may_repeat :
dl_packages (parse_downloads_html (u "NPM package, npm  package and a FHIR bundle") "")
= [FStr (u "FHIR bundle"); FStr (u "NPM package"); FStr (u "npm  package")].
Proof. by vm_compute. Qed.

End ParserProperties.

(** Beyond ASCII the answers come from the Unicode database. With the
    tables of Python 3.11: the capital I with a dot lower-cases to two
    characters, so that a link text with GUIDE spelled with it holds no
    keyword; the long s matches the letter s under IGNORECASE. *)
Section BeyondAscii.
Import Py Unicode Re SMARTGuidelinesClient GuideSpec.
#[local] Existing Instance python311_latin1.

Example dotted_capital_i_is_two_characters :
Str.lower (u "GU" ++ [304%N] ++ u "DE") = u "gui" ++ [775%N] ++ u "de"
∧ ∃ info,
    parse_implementation_guide_html
      (u "<a href='/g'>User GU" ++ [304%N] ++ u "DE</a>") "" = Return info
    ∧ info_links info = [].
Proof. split; [|eexists]; by vm_compute. Qed.

Example long_s_matches_s :
group0 <$> search (lit "s") [383%N] IGNORECASE = Some [383%N]
∧ search (lit "s") [383%N] NOFLAG = None.
Proof. split; by vm_compute. Qed.

End BeyondAscii.

(* ================================================================== *)
(** * The page fetchers *)
(* ================================================================== *)

Module PageFacts.
Import Py Unicode Re Http SMARTGuidelinesClient HttpSpec HttpFacts PageSpec GuideFacts.

Section Pages.
Context {db : Database}.

(** A loop that returns at the first attempt that returns, each attempt
    making exactly the request for its URL: the requests made are an initial
    segment of the requests for the URLs, whatever the network does. *)
Lemma for_return_requests {A} (attempt : string → M (option A)) (after : M A) w urls :
(∀ url log, (attempt url w log).2 = log ++ [get_request url 10]) →
(∀ log, (after w log).2 = log) →
∀ log, ∃ k, (k ≤ length urls)%nat
  ∧ (for_return urls attempt after w log).2 = log ++ take k (page_requests urls).
Proof.
intros Hattempt Hafter.
induction urls as [|url urls IH]; intros log; cbn [for_return].
- exists 0%nat. split; [done|]. rewrite Hafter. cbn. by rewrite app_nil_r.
- unfold Http.bind. specialize (Hattempt url log).
  destruct (attempt url w log) as [[[r|]|e] log'] eqn:Ha; cbn in Hattempt; subst log'.
  + exists 1%nat. split; [cbn; lia|]. reflexivity.
  + destruct (IH (log ++ [get_request url 10])) as (k & Hk & ->).
    exists (S k). split; [cbn; lia|]. cbn. by rewrite <- app_assoc.
  + exists 1%nat. split; [cbn; lia|]. reflexivity.
Qed.

Lemma try_get_requests {A} (on_response : response → M A) (handler : M A) url w log :
(∀ r log', (on_response r w log').2 = log') →
(∀ log', (handler w log').2 = log') →
(try_except_RequestException
   (response ← requests_get url 10; on_response response) handler w log).2
= log ++ [get_request url 10].
Proof.
intros Hr Hh. unfold try_except_RequestException.
unfold mbind, M_bind, Http.bind, requests_get, send. fold (get_request url 10).
destruct (network w log (get_request url 10)) as [r|e].
- specialize (Hr r (log ++ [get_request url 10])).
  destruct (on_response r w (log ++ [get_request url 10])) as [[a|e] log'];
    cbn in Hr; subst log'; [done|].
  destruct (isinstance_RequestException e); [apply Hh|done].
- destruct (isinstance_RequestException e); [apply Hh|done].
Qed.

Lemma fetch_attempt_requests url w log :
(fetch_attempt url w log).2 = log ++ [get_request url 10].
Proof.
apply try_get_requests; [|done]. intros r log'.
destruct (status_code r =? 200); [|done].
unfold mbind, M_bind, Http.bind, response_json, lift. by destruct (json r).
Qed.

Lemma html_attempt_requests url w log :
(html_attempt url w log).2 = log ++ [get_request url 10].
Proof.
apply try_get_requests; [|done]. intros r log'.
destruct (status_code r =? 200); [|done].
unfold mbind, M_bind, Http.bind, lift.
by destruct (parse_implementation_guide_html (text r) url).
Qed.

Lemma downloads_attempt_requests url w log :
(downloads_attempt url w log).2 = log ++ [get_request url 10].
Proof.
apply try_get_requests; [|done]. intros r log'.
by destruct (status_code r =? 200).
Qed.

(** The page loop, for any attempt that passes over a page that is not
    there and returns a reading of the page for a status-200 response. *)
Section PageLoop.
Context {A : Type} (attempt : string → M (option (option A)))
        (page : response → string → A → Prop) (w : world).
Hypothesis attempt_unavailable : ∀ url log,
  unavailable (network w log (get_request url 10)) →
  attempt url w log = (Return None, log ++ [get_request url 10]).
Hypothesis attempt_ok : ∀ url log r,
  network w log (get_request url 10) = Responded r → status_code r = 200 →
  ∃ a, page r url a
       ∧ attempt url w log = (Return (Some (Some a)), log ++ [get_request url 10]).

Lemma page_loop_first_200 urls : ∀ log k url r,
urls !! k = Some url →
(∀ j rp, (j < k)%nat → reply_at w log (page_requests urls) j = Some rp → unavailable rp) →
reply_at w log (page_requests urls) k = Some (Responded r) →
status_code r = 200 →
∃ a, page r url a
     ∧ for_return urls attempt (mret None) w log
       = (Return (Some a), log ++ take (S k) (page_requests urls)).
Proof.
unfold page_requests.
induction urls as [|u urls IH]; intros log k url r Hurl Hearlier Hk Hs; [done|].
rewrite fmap_cons in *. cbn [for_return]. unfold Http.bind.
destruct k as [|k].
- injection Hurl as ->. rewrite reply_at_head in Hk. injection Hk as Hk.
  destruct (attempt_ok _ _ _ Hk Hs) as (a & Ha & ->). by exists a.
- rewrite attempt_unavailable.
  2:{ apply (Hearlier 0%nat); [lia|]. apply reply_at_head. }
  rewrite reply_at_cons in Hk.
  destruct (IH (log ++ [get_request u 10]) k url r) as (a & Ha & ->); [done| |done|done|].
  + intros j rp Hj Hrp. apply (Hearlier (S j)); [lia|]. by rewrite reply_at_cons.
  + exists a. split; [done|]. cbn [take]. by rewrite <- app_assoc.
Qed.

Lemma page_loop_exhausted urls : ∀ log,
(∀ j rp, reply_at w log (page_requests urls) j = Some rp → unavailable rp) →
for_return urls attempt (mret None) w log = (Return None, log ++ page_requests urls).
Proof.
unfold page_requests.
induction urls as [|u urls IH]; intros log Hall.
- cbn. by rewrite app_nil_r.
- rewrite fmap_cons in *. cbn [for_return]. unfold Http.bind.
  rewrite attempt_unavailable.
  2:{ apply (Hall 0%nat). apply reply_at_head. }
  rewrite IH.
  + by rewrite <- app_assoc.
  + intros j rp Hrp. apply (Hall (S j)). by rewrite reply_at_cons.
Qed.

Lemma page_loop_returns urls : ∀ log,
fails_only_with_RequestException w →
∃ result log', for_return urls attempt (mret None) w log = (Return result, log').
Proof.
intros log Hw. revert log.
induction urls as [|u urls IH]; intros log; cbn [for_return]; [by eexists _, _|].
unfold Http.bind.
destruct (network w log (get_request u 10)) as [r|e] eqn:Hnet.
- destruct (decide (status_code r = 200)) as [Hs|Hs].
  + destruct (attempt_ok _ _ _ Hnet Hs) as (a & _ & ->). by eexists _, _.
  + rewrite attempt_unavailable by (rewrite Hnet; by constructor). apply IH.
- pose proof (Hw _ _ _ Hnet) as He. destruct e as [cls|cls]; [|done].
  rewrite attempt_unavailable by (rewrite Hnet; constructor). apply IH.
Qed.

End PageLoop.

Lemma html_attempt_unavailable w url log :
unavailable (network w log (get_request url 10)) →
html_attempt url w log = (Return None, log ++ [get_request url 10]).
Proof.
unfold html_attempt, try_except_RequestException.
unfold mbind, M_bind, Http.bind, requests_get, send. fold (get_request url 10).
intros H. cbv beta. inversion H as [cls Heq|r Hs Heq]; [done|].
apply Z.eqb_neq in Hs. by rewrite Hs.
Qed.

Lemma downloads_attempt_unavailable w url log :
unavailable (network w log (get_request url 10)) →
downloads_attempt url w log = (Return None, log ++ [get_request url 10]).
Proof.
unfold downloads_attempt, try_except_RequestException.
unfold mbind, M_bind, Http.bind, requests_get, send. fold (get_request url 10).
intros H. cbv beta. inversion H as [cls Heq|r Hs Heq]; [done|].
apply Z.eqb_neq in Hs. by rewrite Hs.
Qed.

Lemma downloads_attempt_ok w url log r :
network w log (get_request url 10) = Responded r → status_code r = 200 →
∃ downloads, downloads = parse_downloads_html (text r) url
  ∧ downloads_attempt url w log
    = (Return (Some (Some downloads)), log ++ [get_request url 10]).
Proof.
unfold downloads_attempt, try_except_RequestException.
unfold mbind, M_bind, Http.bind, requests_get, send. fold (get_request url 10).
intros -> Hs. rewrite Hs. by eexists.
Qed.

Lemma html_attempt_ok w url log r :
network w log (get_request url 10) = Responded r → status_code r = 200 →
∃ info, parse_implementation_guide_html (text r) url = Return info
        ∧ html_attempt url w log
          = (Return (Some (Some info)), log ++ [get_request url 10]).
Proof.
unfold html_attempt, try_except_RequestException.
unfold mbind, M_bind, Http.bind, requests_get, send. fold (get_request url 10).
intros -> Hs. rewrite Hs. unfold lift.
destruct (parse_implementation_guide_html_returns (text r) url)
  as (title & description & sections & useful_links & _ & ->).
by eexists.
Qed.

End Pages.

End PageFacts.

Section PageClaims.
Import Py Unicode Re Http SMARTGuidelinesClient HttpSpec HttpFacts PageSpec.
Import GuideFacts PageFacts.
Context {db : Database}.

(** X2. [fetch_guideline_html] returns the parse of the first page answered
    with status 200, with that page's URL as source, and requests nothing
    after it; pages before it must have been answered with another status or
    have failed with a [RequestException]. When both pages are like that,
    it returns [None] after requesting both. *)
Theorem guide_html_first_200 (guideline_name : string) (w : world) (k : nat) :
let rqs := page_requests (html_urls guideline_name) in
(∀ j rp, (j < k)%nat → reply_at w [] rqs j = Some rp → unavailable rp) →
(∀ url r, html_urls guideline_name !! k = Some url →
          reply_at w [] rqs k = Some (Responded r) → status_code r = 200 →
   ∃ info, parse_implementation_guide_html (text r) url = Return info
           ∧ info_source_url info = url
           ∧ run (fetch_guideline_html guideline_name) w
             = (Return (Some info), take (S k) rqs))
∧ ((2 ≤ k)%nat → run (fetch_guideline_html guideline_name) w = (Return None, rqs)).
Proof.
intros rqs Hearlier. split.
- intros url r Hurl Hk Hs.
  destruct (page_loop_first_200 html_attempt
              (λ r url info, parse_implementation_guide_html (text r) url = Return info)
              w (html_attempt_unavailable w) (html_attempt_ok w)
              (html_urls guideline_name) [] k url r Hurl Hearlier Hk Hs)
    as (info & Hinfo & Hrun).
  exists info. split; [done|]. split; [|exact Hrun].
  destruct (parse_implementation_guide_html_returns (text r) url)
    as (t & d & sec & links & _ & Heq).
  rewrite Heq in Hinfo. by injection Hinfo as <-.
- intros Hk. unfold run, fetch_guideline_html.
  rewrite (page_loop_exhausted html_attempt w (html_attempt_unavailable w)); [done|].
  intros j rp Hj. apply (Hearlier j); [|done].
  unfold reply_at in Hj. apply fmap_Some in Hj as (rq & Hl & _).
  apply lookup_lt_Some in Hl. cbn in Hl. lia.
Qed.

(** X3. [fetch_downloads_info] returns [parse_downloads_html] of the first
    downloads page answered with status 200, with that page's URL as source,
    and requests nothing after it; when both pages are answered with another
    status or fail with a [RequestException], it returns [None] after
    requesting both. *)
Theorem downloads_first_200 (guideline_name : string) (w : world) (k : nat) :
let rqs := page_requests (download_urls guideline_name) in
(∀ j rp, (j < k)%nat → reply_at w [] rqs j = Some rp → unavailable rp) →
(∀ url r, download_urls guideline_name !! k = Some url →
          reply_at w [] rqs k = Some (Responded r) → status_code r = 200 →
   run (fetch_downloads_info guideline_name) w
   = (Return (Some (parse_downloads_html (text r) url)), take (S k) rqs))
∧ ((2 ≤ k)%nat → run (fetch_downloads_info guideline_name) w = (Return None, rqs)).
Proof.
intros rqs Hearlier. split.
- intros url r Hurl Hk Hs.
  destruct (page_loop_first_200 downloads_attempt
              (λ r url downloads, downloads = parse_downloads_html (text r) url)
              w (downloads_attempt_unavailable w) (downloads_attempt_ok w)
              (download_urls guideline_name) [] k url r Hurl Hearlier Hk Hs)
    as (downloads & -> & Hrun).
  exact Hrun.
- intros Hk. unfold run, fetch_downloads_info.
  rewrite (page_loop_exhausted downloads_attempt w (downloads_attempt_unavailable w));
    [done|].
  intros j rp Hj. apply (Hearlier j); [|done].
  unfold reply_at in Hj. apply fmap_Some in Hj as (rq & Hl & _).
  apply lookup_lt_Some in Hl. cbn in Hl. lia.
Qed.

(** X4. Whatever the network does, and whether they return or raise, the
    three fetchers request an initial segment of their candidate URLs, in
    the declared order, each with GET and a timeout of 10 seconds: at most
    five, two and two requests, no candidate skipped and none asked for
    again. *)
Theorem fetchers_request_initial_segment (guideline_name : string) (w : world) :
(∃ k, (k ≤ 5)%nat
      ∧ (run (fetch_smart_guideline guideline_name) w).2
        = take k (page_requests (url_patterns guideline_name)))
∧ (∃ k, (k ≤ 2)%nat
        ∧ (run (fetch_guideline_html guideline_name) w).2
          = take k (page_requests (html_urls guideline_name)))
∧ (∃ k, (k ≤ 2)%nat
        ∧ (run (fetch_downloads_info guideline_name) w).2
          = take k (page_requests (download_urls guideline_name))).
Proof.
unfold run, fetch_smart_guideline, fetch_guideline_html, fetch_downloads_info.
split; [|split].
- apply (for_return_requests fetch_attempt (Http.ret VNone) w
           (url_patterns guideline_name)); [intros; apply fetch_attempt_requests|done].
- apply (for_return_requests html_attempt (Http.ret None) w
           (html_urls guideline_name)); [intros; apply html_attempt_requests|done].
- apply (for_return_requests downloads_attempt (Http.ret None) w
           (download_urls guideline_name)); [intros; apply downloads_attempt_requests|done].
Qed.

(** X5. When the transport fails only with [RequestException]s, the two
    page fetchers raise nothing: each returns a parsed page or [None]. *)
Theorem page_fetchers_never_raise (guideline_name : string) (w : world) :
fails_only_with_RequestException w →
(∃ result log, run (fetch_guideline_html guideline_name) w = (Return result, log))
∧ (∃ result log, run (fetch_downloads_info guideline_name) w = (Return result, log)).
Proof.
intros Hw. unfold run, fetch_guideline_html, fetch_downloads_info. split.
- apply (page_loop_returns html_attempt
           (λ r url info, parse_implementation_guide_html (text r) url = Return info)
           w (html_attempt_unavailable w) (html_attempt_ok w) _ [] Hw).
- apply (page_loop_returns downloads_attempt
           (λ r url downloads, downloads = parse_downloads_html (text r) url)
           w (downloads_attempt_unavailable w) (downloads_attempt_ok w) _ [] Hw).
Qed.

End PageClaims.

(** The three properties at the world [second_page_there], with the tables
    of Python 3.11. *)
Section PageWitnesses.
Import Py Unicode Re Http SMARTGuidelinesClient HttpSpec HttpFacts PageSpec.
Import Examples PageExamples.
#[local] Existing Instance python311_latin1.

Lemma guide_html_first_200_witness :
∃ info,
  parse_implementation_guide_html (u "<title>ANC</title><a href='ig.zip'>Full guide</a>")
    "https://worldhealthorganization.github.io/smart-anc/" = Return info
  ∧ info_source_url info = "https://worldhealthorganization.github.io/smart-anc/"
  ∧ run (fetch_guideline_html "anc") second_page_there
    = (Return (Some info), take 2 (page_requests (html_urls "anc"))).
Proof.
apply (proj1 (guide_html_first_200 "anc" second_page_there 1
  ltac:(intros [|j] rp Hj Hrp; [|lia]; injection Hrp as <-;
        apply un_status; discriminate))
  "https://worldhealthorganization.github.io/smart-anc/"
  (with_text (u "<title>ANC</title><a href='ig.zip'>Full guide</a>")));
  reflexivity.
Defined.

Lemma downloads_first_200_witness :
run (fetch_downloads_info "anc") second_page_there
= (Return (Some (parse_downloads_html
                   (u "<title>ANC</title><a href='ig.zip'>Full guide</a>")
                   "https://worldhealthorganization.github.io/smart-anc/downloads.html")),
   take 2 (page_requests (download_urls "anc"))).
Proof.
apply (proj1 (downloads_first_200 "anc" second_page_there 1
  ltac:(intros [|j] rp Hj Hrp; [|lia]; injection Hrp as <-;
        apply un_status; discriminate))
  "https://worldhealthorganization.github.io/smart-anc/downloads.html"
  (with_text (u "<title>ANC</title><a href='ig.zip'>Full guide</a>")));
  reflexivity.
Defined.

Lemma page_fetchers_never_raise_witness :
(∃ result log, run (fetch_guideline_html "anc") second_page_there = (Return result, log))
∧ (∃ result log, run (fetch_downloads_info "anc") second_page_there = (Return result, log)).
Proof.
apply (page_fetchers_never_raise "anc" second_page_there).
intros log rq e. cbn. destruct (length log) as [|[|n]]; cbn; intros [= <-]; reflexivity.
Defined.

End PageWitnesses.

(* ================================================================== *)
(** * Documents and bodies that are no objects *)
(* ================================================================== *)

Section DocumentErrors.
Import Py Http SMARTGuidelinesClient HttpSpec HttpFacts PageSpec Examples PageExamples DocSpec.

(** X6. A document that is no object is either falsy, and then there is no
    summary, or truthy, and then the first [get] raises AttributeError:
    [process_dak_content] summarises objects only. *)
Theorem process_dak_content_not_a_dict (v : value) :
not_a_dict v →
process_dak_content v = if truthy v then Raise AttributeError else Return None.
Proof.
intros Hv. unfold process_dak_content.
destruct (truthy v); [|reflexivity]. by destruct v.
Qed.

Lemma process_dak_content_not_a_dict_witness :
process_dak_content (VList [VDict [("title", VStr "ANC")]])
= if truthy (VList [VDict [("title", VStr "ANC")]]) then Raise AttributeError
  else Return None.
Proof.
apply (process_dak_content_not_a_dict (VList [VDict [("title", VStr "ANC")]])).
exact I.
Defined.

(** X7. The default of [dependsOn] stands in for an absent key only: an
    object that holds the key with a value that cannot be iterated (null, a
    boolean, a number) makes [process_dak_content] raise TypeError. *)
Theorem process_dak_content_null_dependsOn (d : list (string * value)) (x : value) :
d ≠ [] → dict_lookup d "dependsOn" = Some x → not_iterable x →
process_dak_content (VDict d) = Raise TypeError.
Proof.
intros Hd Hx Hni. unfold process_dak_content.
destruct d as [|kv d']; [done|]. cbn [truthy negb].
cbn [get mbind outcome_bind Py.bind]. rewrite Hx. cbn [default].
by destruct x.
Qed.

Lemma process_dak_content_null_dependsOn_witness :
process_dak_content (VDict [("title", VStr "ANC"); ("dependsOn", VNone)])
= Raise TypeError.
Proof.
apply (process_dak_content_null_dependsOn
         [("title", VStr "ANC"); ("dependsOn", VNone)] VNone).
- discriminate.
- reflexivity.
- exact I.
Defined.

Lemma for_append_dependency_not_a_dict items :
Exists not_a_dict items →
for_append process_dependency items = Raise AttributeError.
Proof.
induction 1 as [v items Hv|v items _ IH]; cbn [for_append].
- by destruct v.
- rewrite IH. by destruct v.
Qed.

(** X8. One item of [dependsOn] that is no object is enough for
    [process_dak_content] to raise AttributeError: no summary of the other
    keys is returned. *)
Theorem process_dak_content_bad_dependency (d : list (string * value))
    (items : list value) :
d ≠ [] → dict_lookup d "dependsOn" = Some (VList items) → Exists not_a_dict items →
process_dak_content (VDict d) = Raise AttributeError.
Proof.
intros Hd Hx Hbad. unfold process_dak_content.
destruct d as [|kv d']; [done|]. cbn [truthy negb].
cbn [get mbind outcome_bind Py.bind]. rewrite Hx. cbn -[for_append process_dependency].
by rewrite for_append_dependency_not_a_dict.
Qed.

Lemma process_dak_content_bad_dependency_witness :
process_dak_content
  (VDict [("dependsOn", VList [VDict [("uri", VStr "x")]; VStr "hl7.fhir.core"])])
= Raise AttributeError.
Proof.
apply (process_dak_content_bad_dependency
         [("dependsOn", VList [VDict [("uri", VStr "x")]; VStr "hl7.fhir.core"])]
         [VDict [("uri", VStr "x")]; VStr "hl7.fhir.core"]).
- discriminate.
- reflexivity.
- right. left. exact I.
Defined.

(** X9. [get_guideline_summary] makes exactly one request, whatever comes
    of it, and what it returns is always a dict that holds the keys name and
    description. *)
Theorem summary_has_name_and_description (guideline_name : string) (w : world) :
(run (get_guideline_summary guideline_name) w).2 = [summary_request guideline_name]
∧ ∀ v, (run (get_guideline_summary guideline_name) w).1 = Return v →
       ∃ d, v = VDict d
            ∧ is_Some (dict_lookup d "name")
            ∧ is_Some (dict_lookup d "description").
Proof.
unfold run, get_guideline_summary, try_except_RequestException.
unfold mbind, M_bind, Http.bind, requests_get, send.
fold (get_request (github_url guideline_name) 10).
fold (summary_request guideline_name). cbv beta.
assert (∀ d : list (string * value),
          (∃ x, dict_lookup d "name" = Some x) →
          (∃ x, dict_lookup d "description" = Some x) →
          ∀ v', Return (VDict d) = Return v' →
          ∃ d', v' = VDict d' ∧ is_Some (dict_lookup d' "name")
                ∧ is_Some (dict_lookup d' "description")) as Hkeys.
{ intros d Hn Hd v' [= <-]. by exists d. }
destruct (network w [] (summary_request guideline_name)) as [r|e].
- destruct (status_code r =? 200).
  + unfold response_json, lift. destruct (json r) as [body|e].
    * destruct body; cbn; (split; [reflexivity|]); try (by intros v' [=]).
      apply Hkeys; eexists; reflexivity.
    * destruct e; cbn; (split; [reflexivity|]); try (by intros v' [=]).
      apply Hkeys; eexists; reflexivity.
  + cbn. split; [reflexivity|]. apply Hkeys; eexists; reflexivity.
- destruct e; cbn; (split; [reflexivity|]); try (by intros v' [=]).
  apply Hkeys; eexists; reflexivity.
Qed.

(** X10. A status-200 answer whose body decodes to something other than an
    object (a list, a string, null, ...) is no failure the two callers of
    [json()] and [get] catch: [get_guideline_summary] and
    [authenticate_oauth2], once it has read the authorization code, raise
    AttributeError. *)
Theorem non_object_body_raises (w : world) (r : response) (v : value) :
status_code r = 200 → json r = Return v → not_a_dict v →
(∀ guideline_name,
   network w [] (summary_request guideline_name) = Responded r →
   run (get_guideline_summary guideline_name) w
   = (Raise AttributeError, [summary_request guideline_name]))
∧ (∀ this client_id client_secret redirect_uri scope auth_code,
     stdin w = Return auth_code →
     network w [] (token_request this client_id client_secret redirect_uri auth_code)
     = Responded r →
     run (authenticate_oauth2 this client_id client_secret redirect_uri scope) w
     = (Raise AttributeError,
        [token_request this client_id client_secret redirect_uri auth_code])).
Proof.
intros Hs Hj Hv. split.
- intros guideline_name Hnet.
  unfold run, get_guideline_summary, try_except_RequestException.
  unfold mbind, M_bind, Http.bind, requests_get, send.
  fold (get_request (github_url guideline_name) 10).
  fold (summary_request guideline_name). cbv beta.
  rewrite Hnet, Hs. cbn. unfold response_json, lift. rewrite Hj.
  by destruct v.
- intros this client_id client_secret redirect_uri scope auth_code Hin Hnet.
  unfold run, authenticate_oauth2, try_except_RequestException, input.
  unfold mbind, M_bind, Http.bind, requests_post, send. rewrite Hin.
  fold (token_request this client_id client_secret redirect_uri auth_code).
  cbv beta iota. rewrite Hnet, Hs. cbn. unfold response_json, lift. rewrite Hj.
  by destruct v.
Qed.

Lemma non_object_body_raises_witness :
(∀ guideline_name,
   network (scripted [] (Responded (with_json (VList [])))) []
     (summary_request guideline_name) = Responded (with_json (VList [])) →
   run (get_guideline_summary guideline_name)
       (scripted [] (Responded (with_json (VList []))))
   = (Raise AttributeError, [summary_request guideline_name]))
∧ (∀ this client_id client_secret redirect_uri scope auth_code,
     stdin (scripted [] (Responded (with_json (VList [])))) = Return auth_code →
     network (scripted [] (Responded (with_json (VList [])))) []
       (token_request this client_id client_secret redirect_uri auth_code)
     = Responded (with_json (VList [])) →
     run (authenticate_oauth2 this client_id client_secret redirect_uri scope)
         (scripted [] (Responded (with_json (VList []))))
     = (Raise AttributeError,
        [token_request this client_id client_secret redirect_uri auth_code])).
Proof.
apply (non_object_body_raises (scripted [] (Responded (with_json (VList []))))
         (with_json (VList [])) (VList [])).
- reflexivity.
- reflexivity.
- exact I.
Defined.

End DocumentErrors.

(* ================================================================== *)
(** * What the guide parser keeps *)
(* ================================================================== *)

Module ParseFacts.
Import Py Unicode Re ReSpec ReFacts Str SMARTGuidelinesClient GuideFacts PageSpec ParseSpec.

Section Parse.
Context {db : Database}.

(** ** Characters *)

(** Under IGNORECASE the class of the digits still holds the ten digits and
    nothing else, and the dot still matches the dot only: neither has a
    case. *)
Lemma digit_ignorecase x : atom_match IGNORECASE digit x = isdigit x.
Proof.
unfold digit, atom_match, item_match, IGNORECASE. cbn [existsb xorb].
change (range_codes "0" "9") with [48; 49; 50; 51; 52; 53; 54; 55; 56; 57]%N.
cbn [existsb]. unfold same_ignoring_case. cbn [isupper islower between N.leb].
unfold isdigit, between.
repeat match goal with
       | |- context [(x =? ?a)%N] => destruct (N.eqb_spec x a); [by subst|]
       end.
cbn [orb]. symmetry. apply andb_false_iff.
destruct (N.leb_spec 48 x); [right|by left]. apply N.leb_gt. lia.
Qed.

Lemma dot_ignorecase x : atom_match IGNORECASE (Lit ".") x = true → x = code ".".
Proof. cbn. unfold same_ignoring_case. cbn. by intros ->%N.eqb_eq. Qed.

(** ** Captures *)

Lemma matches_groupless ic r w c c' :
matches ic r w c c' → groupless r = true → c' = c.
Proof.
induction 1 as [c|a x c Hx|r1 r2 w1 w2 c c1 c2 _ IH1 _ IH2|r1 r2 w c c' _ IH
               |r1 r2 w c c' _ IH|r w c c' _ IH|r c|a w c Hw|a x w c Hx Hw
               |k r w c c' _ IH]; cbn [groupless]; try done.
- intros [H1 H2]%andb_true_iff. rewrite IH2, IH1; done.
- intros [H1 _]%andb_true_iff. auto.
- intros [_ H2]%andb_true_iff. auto.
Qed.

(** A pattern that ends in group 1 after parts without groups: a match
    leaves group 1 set to a match of the group's body. *)
Lemma matches_final_group ic body pre : ∀ w c c',
Forall (λ r, groupless r = true) pre →
matches ic (cat (pre ++ [Group 1 body])) w c c' →
∃ wv c0, group_text c' 1 = Some wv ∧ matches ic body wv c c0.
Proof.
induction pre as [|r pre IH]; intros w c c' Hpre H; cbn [cat app] in H.
- inversion H as [| |r1 r2 w1 w2 x c1 c2 H1 H2| | | | | | |]; subst.
  inversion H1 as [| | | | | | | | |n r0 w0 x c0 Hb]; subst.
  inversion H2; subst. exists w1, c0. done.
- apply Forall_cons in Hpre as [Hr Hpre].
  inversion H as [| |r1 r2 w1 w2 x c1 c2 H1 H2| | | | | | |]; subst.
  apply matches_groupless in H1 as ->; [|done]. by eapply IH.
Qed.

(** ** The version number *)

Lemma matches_digits w c c' :
matches IGNORECASE (Plus digit) w c c' → digits w.
Proof.
inversion 1 as [| | | | | | | |a x w0 c0 Hx Hw|]; subst. split; [done|].
constructor; [by rewrite <- digit_ignorecase|].
eapply Forall_impl; [exact Hw|]. intros y Hy. by rewrite <- digit_ignorecase.
Qed.

Lemma matches_dot w c c' :
matches IGNORECASE (lit ".") w c c' → w = [code "."].
Proof.
cbn. inversion 1 as [| |r1 r2 w1 w2 x c1 c2 H1 H2| | | | | | |]; subst.
inversion H1 as [|a x c0 Hx| | | | | | | |]; subst. inversion H2; subst.
apply dot_ignorecase in Hx as ->. done.
Qed.

Lemma matches_version_number w c c' :
matches IGNORECASE version_number w c c' → dotted_number w.
Proof.
unfold version_number. cbn [cat]. intros H.
inversion H as [| |r1 r2 wa w2 x c1 c2 Ha H2| | | | | | |]; subst.
inversion H2 as [| |r1 r2 wd w3 x c3 c4 Hd H3| | | | | | |]; subst.
inversion H3 as [| |r1 r2 wb w4 x c5 c6 Hb H4| | | | | | |]; subst.
inversion H4 as [| |r1 r2 wo w5 x c7 c8 Ho H5| | | | | | |]; subst.
inversion H5; subst.
apply matches_digits in Ha, Hb. apply matches_dot in Hd as ->.
exists wa, wb, wo. rewrite app_nil_r.
split; [done|]. split; [done|]. split; [|reflexivity].
inversion Ho as [| | | | |r w0 x c0 Hs|r x| | |]; subst; [right|by left].
inversion Hs as [| |r1 r2 wd' w6 x c9 c10 Hd' H6| | | | | | |]; subst.
inversion H6 as [| |r1 r2 wc w7 x c11 c12 Hc H7| | | | | | |]; subst.
inversion H7; subst. apply matches_dot in Hd' as ->. apply matches_digits in Hc.
exists wc. rewrite app_nil_r. done.
Qed.

(** Each version pattern is parts without groups followed by the number in
    group 1. *)
Lemma version_patterns_shape :
Forall (λ pattern, ∃ pre, Forall (λ r, groupless r = true) pre
                          ∧ pattern = cat (pre ++ [Group 1 version_number]))
       version_patterns.
Proof.
unfold version_patterns. repeat constructor.
- exists [lit "Version"; Plus (Set_ false [SChar ":"; SSpace])].
  split; [by repeat constructor|reflexivity].
- exists [lit "version"; Opt (Atom quote); Star space;
          Atom (Set_ false [SChar ":"; SChar "="]); Star space; Opt (Atom quote)].
  split; [by repeat constructor|reflexivity].
- exists [lit "v"]. split; [by repeat constructor|reflexivity].
Qed.

Lemma extract_version_dotted html_content patterns : ∀ version,
Forall (λ pattern, ∃ pre, Forall (λ r, groupless r = true) pre
                          ∧ pattern = cat (pre ++ [Group 1 version_number]))
       patterns →
extract_version patterns html_content version = version
∨ ∃ v, extract_version patterns html_content version = Some v ∧ dotted_number v.
Proof.
intros version Hp. induction Hp as [|p patterns (pre & Hpre & ->) _ IH]; [by left|].
cbn [extract_version].
destruct (search _ html_content IGNORECASE) as [mt|] eqn:Hs; [|exact IH].
right. apply search_sound in Hs as (s0 & s1 & w & _ & _ & Hm).
apply matches_final_group in Hm as (wv & c0 & Hg & Hv); [|done].
exists wv. unfold group. rewrite Hg. split; [done|].
by eapply matches_version_number.
Qed.

End Parse.

End ParseFacts.

Section VersionShape.
Import Py Unicode Re ReSpec ReFacts Str SMARTGuidelinesClient GuideFacts PageSpec.
Import ParseSpec ParseFacts.
Context {db : Database}.

(** X11. The version of a guide page is never [None]: it is the default
    'Unknown Version' or a dotted number, two or three runs of digits joined
    by dots, however the text around it reads. *)
Theorem version_is_dotted_number (html_content : str) (source_url : string) :
∃ info v,
  parse_implementation_guide_html html_content source_url = Return info
  ∧ info_version info = Some v
  ∧ (v = u "Unknown Version" ∨ dotted_number v).
Proof.
destruct (parse_implementation_guide_html_returns html_content source_url)
  as (title & description & sections & useful_links & _ & ->).
destruct (extract_version_dotted html_content version_patterns
            (Some (u "Unknown Version")) version_patterns_shape) as [Hv|(v & Hv & Hd)].
- eexists _, (u "Unknown Version"). split; [reflexivity|]. cbn [info_version].
  split; [exact Hv|by left].
- eexists _, v. split; [reflexivity|]. cbn [info_version]. split; [exact Hv|by right].
Qed.

End VersionShape.

Module CleanFacts.
Import Py Unicode Re ReSpec ReFacts Str SMARTGuidelinesClient GuideFacts PageSpec.
Import ParseSpec ParseFacts.

Section Clean.
Context {db : Database}.

(** ** [strip] *)

Lemma lstrip_head l x t : lstrip l = x :: t → isspace x = false.
Proof.
induction l as [|y l IH]; cbn [lstrip]; [done|].
destruct (isspace y) eqn:Hy; [exact IH|]. by intros [= <- <-].
Qed.

Lemma lstrip_suffix l : lstrip l `suffix_of` l.
Proof.
induction l as [|y l IH]; cbn [lstrip]; [done|].
destruct (isspace y); [by apply suffix_cons_r|done].
Qed.

Lemma rstrip_prefix l : rstrip l `prefix_of` l.
Proof.
unfold rstrip. destruct (lstrip_suffix (rev l)) as [pre Hpre].
exists (rev pre). rewrite <- rev_app_distr, <- Hpre. by rewrite rev_involutive.
Qed.

Lemma rstrip_last l t x : rstrip l = t ++ [x] → isspace x = false.
Proof.
unfold rstrip. intros H. apply (f_equal (@rev char)) in H.
rewrite rev_involutive, rev_app_distr in H. cbn in H. by eapply lstrip_head.
Qed.

Lemma strip_trimmed s : trimmed (strip s).
Proof.
unfold trimmed, strip. split.
- intros x t H. destruct (rstrip_prefix (lstrip s)) as [post Hpost].
  rewrite H in Hpost. by eapply lstrip_head.
- intros t x H. by eapply rstrip_last.
Qed.

(** ** [sub] *)

(** Where no match starts at the first character, [sub] keeps it. *)
Lemma sub_from_skip r repl fuel x t :
match_here NOFLAG r (x :: t) = None →
sub_from r repl (S fuel) (x :: t) = x :: sub_from r repl (S fuel) t.
Proof.
intros Hx. cbn [sub_from search_from]. rewrite Hx.
destruct (search_from NOFLAG r t) as [[[s0 s1] c]|] eqn:Hs; [|done].
apply search_from_shorter in Hs as [_ H0].
replace (length (x :: t) - length s0)%nat with (S (length t - length s0))
  by (cbn [length]; lia).
reflexivity.
Qed.

(** Removing the matches of a one-character pattern keeps the characters
    that do not match it. *)
Lemma sub_atom_filter a s : ∀ fuel,
(length s < fuel)%nat →
sub_from (Atom a) [] fuel s = filter (λ x, atom_match NOFLAG a x = false) s.
Proof.
induction s as [|x t IH]; intros fuel Hf; (destruct fuel as [|fuel]; [cbn in Hf; lia|]).
- reflexivity.
- cbn [length] in Hf. destruct (atom_match NOFLAG a x) eqn:Hx.
  + rewrite filter_cons_False by (rewrite Hx; done).
    cbn [sub_from search_from]. unfold match_here at 1. cbn [m]. rewrite Hx.
    replace (length (x :: t) - length (x :: t))%nat with 0%nat by lia.
    cbn [take app length].
    replace (length t <? S (length t))%nat with true
      by (symmetry; apply Nat.ltb_lt; lia).
    apply IH. lia.
  + rewrite filter_cons_True by done.
    rewrite sub_from_skip by (unfold match_here; cbn [m]; by rewrite Hx).
    f_equal. apply IH. lia.
Qed.

Lemma clean_section_chars heading :
Forall (λ x, heading_char x = true) (sub not_word_space_hyphen [] heading).
Proof.
unfold sub, not_word_space_hyphen.
rewrite sub_atom_filter by lia.
apply Forall_forall. intros x [Hx _]%list_elem_of_filter.
cbn [atom_match existsb item_match NOFLAG] in Hx. unfold heading_char.
destruct (isword x), (isspace x), (x =? code "-")%N; done.
Qed.

End Clean.

End CleanFacts.

Section GuideInvariants.
Import Py Unicode Re ReSpec ReFacts Str SMARTGuidelinesClient GuideFacts PageSpec.
Import ParseSpec ParseFacts CleanFacts Examples.
Context {db : Database}.

Lemma fold_add_section_kept (P : str → Prop) items : ∀ sections sections',
(∀ text, (3 < len (sub not_word_space_hyphen [] (strip text)) < 100)%nat →
         P (sub not_word_space_hyphen [] (strip text))) →
fold_outcome add_section items sections = Return sections' →
(∀ x, x ∈ sections → P x) → ∀ x, x ∈ sections' → P x.
Proof.
induction items as [|item items IH]; intros sections sections' HP; cbn [fold_outcome].
- by intros [= <-].
- destruct item as [text|gs]; cbn [add_section]; [|done].
  destruct ((3 <? _)%nat && (_ <? 100)%nat) eqn:Hlen;
    cbn [mbind outcome_bind Py.bind]; intros Hfold Hs; [|exact (IH _ _ HP Hfold Hs)].
  eapply IH; [done|exact Hfold|].
  intros x [->%elem_of_singleton|Hx]%elem_of_union; [|by apply Hs].
  apply HP. apply andb_true_iff in Hlen as [?%Nat.ltb_lt ?%Nat.ltb_lt]. done.
Qed.

Lemma fold_sections_kept (P : str → Prop) html_content patterns : ∀ sections sections',
(∀ text, (3 < len (sub not_word_space_hyphen [] (strip text)) < 100)%nat →
         P (sub not_word_space_hyphen [] (strip text))) →
fold_outcome
  (λ sections pattern,
     fold_outcome add_section (findall pattern html_content IGNORECASE) sections)
  patterns sections = Return sections' →
(∀ x, x ∈ sections → P x) → ∀ x, x ∈ sections' → P x.
Proof.
induction patterns as [|p patterns IH]; intros sections sections' HP; cbn [fold_outcome].
- by intros [= <-].
- destruct (fold_outcome add_section _ sections) as [s1|e] eqn:H1;
    cbn [mbind outcome_bind Py.bind]; [|done].
  intros Hfold Hs. eapply IH; [done|exact Hfold|].
  by eapply fold_add_section_kept.
Qed.

(** X12. Every section of a guide page is between 4 and 99 characters (code
    points) long and is made of characters of the class \w (letters, digits
    and the underscore, as the Unicode database has them) and of the
    class \s (white space, likewise) and of hyphens only: all other
    characters of the heading have been removed. With the tables of Python
    3.11 an accented letter is kept and the exclamation mark is not. *)
Theorem sections_are_clean (html_content : str) (source_url : string) :
(∃ info,
   parse_implementation_guide_html html_content source_url = Return info
   ∧ Forall (λ section,
               (3 < len section < 100)%nat
               ∧ Forall (λ x, heading_char x = true) section)
            (info_sections info))
∧ (∃ info,
     parse_implementation_guide_html (db := python311_latin1) accented_headings ""
     = Return info
     ∧ info_sections info
       = [u "Intro"; u "Sante publique"; u "Sant" ++ [e_acute] ++ u " publique";
          u "Zone"]).
Proof.
split; [|eexists; by vm_compute].
destruct (parse_implementation_guide_html_returns html_content source_url)
  as (title & description & sections & useful_links & Hsec & ->).
eexists. split; [reflexivity|]. cbn [info_sections].
apply Forall_forall. intros x Hx. apply sorted_elements_capped in Hx.
revert x Hx. eapply fold_sections_kept; [|exact Hsec|].
- intros text Hlen. split; [done|]. apply clean_section_chars.
- intros x Hx. by apply elem_of_empty in Hx.
Qed.

Lemma add_link_kept useful_links item useful_links' :
add_link useful_links item = Return useful_links' →
useful_links' = useful_links
∨ ∃ href text,
    useful_links'
    = useful_links ++ [{| link_url := href;
                          link_text := sub whitespace_run (u " ") (strip text) |}]
    ∧ (3 < len (sub whitespace_run (u " ") (strip text)) < 50)%nat
    ∧ existsb (λ keyword,
                 contains keyword (Str.lower (sub whitespace_run (u " ") (strip text))))
              link_keywords = true.
Proof.
unfold add_link. destruct (unpack2 item) as [[href text]|e];
  cbn [mbind outcome_bind Py.bind]; [|done].
destruct ((3 <? _)%nat && (_ <? 50)%nat && existsb _ link_keywords) eqn:Hkeep;
  intros [= <-]; [right|by left].
apply andb_true_iff in Hkeep as [Hlen Hkw].
apply andb_true_iff in Hlen as [?%Nat.ltb_lt ?%Nat.ltb_lt].
by exists href, text.
Qed.

Lemma fold_add_link_kept (P : link → Prop) items : ∀ useful_links useful_links',
(∀ href text,
   (3 < len (sub whitespace_run (u " ") (strip text)) < 50)%nat →
   existsb (λ keyword, contains keyword (Str.lower (sub whitespace_run (u " ") (strip text))))
           link_keywords = true →
   P {| link_url := href; link_text := sub whitespace_run (u " ") (strip text) |}) →
fold_outcome add_link items useful_links = Return useful_links' →
Forall P useful_links → Forall P useful_links'.
Proof.
induction items as [|item items IH]; intros useful_links useful_links' HP;
  cbn [fold_outcome].
- by intros [= <-].
- destruct (add_link useful_links item) as [acc|e] eqn:Hadd;
    cbn [mbind outcome_bind Py.bind]; [|done].
  intros Hfold Hacc. apply (IH _ _ HP Hfold).
  apply add_link_kept in Hadd as [->|(href & text & -> & Hlen & Hkw)]; [done|].
  apply Forall_app. split; [done|]. constructor; [|done]. by apply HP.
Qed.

(** X13. At most 10 links are kept, and every one of them has a text of 4
    to 49 characters (code points) whose lower-case form, as [str.lower]
    gives it, holds one of the words guide, resource, profile, example and
    download. With the tables of Python 3.11 a text of 31 characters of
    which 25 are accented letters is kept. *)
Theorem links_are_relevant (html_content : str) (source_url : string) :
(∃ info,
   parse_implementation_guide_html html_content source_url = Return info
   ∧ (length (info_links info) ≤ 10)%nat
   ∧ Forall (λ l,
               (3 < len (link_text l) < 50)%nat
               ∧ ∃ keyword, keyword ∈ link_keywords
                            ∧ contains keyword (Str.lower (link_text l)) = true)
            (info_links info))
∧ link_keywords = [u "guide"; u "resource"; u "profile"; u "example"; u "download"]
∧ (∃ info,
     parse_implementation_guide_html (db := python311_latin1) accented_link ""
     = Return info
     ∧ info_links info
       = [{| link_url := u "/g";
             link_text := u "guide " ++ replicate 25 e_acute |}]).
Proof.
split; [|split; [done|eexists; by vm_compute]].
unfold parse_implementation_guide_html.
destruct (extract_stripped_returns title_pattern html_content (u "Unknown Title"))
  as [title ->]; [reflexivity|].
destruct (extract_stripped_returns desc_pattern html_content [])
  as [description ->]; [reflexivity|].
destruct (collect_sections_returns html_content) as [sections ->].
destruct (fold_outcome add_link (findall link_pattern html_content IGNORECASE) [])
  as [useful_links|e] eqn:Hlinks.
2:{ destruct (fold_add_link_returns (findall link_pattern html_content IGNORECASE) [])
      as [ul Hul]; [|congruence].
    intros item Hin. apply findall_two_groups in Hin as (s0 & s1 & c & _ & ->); [|done].
    eauto. }
cbn [mbind outcome_bind Py.bind]. eexists. split; [reflexivity|].
cbn [info_links]. split; [rewrite length_take; lia|].
apply Forall_take. eapply fold_add_link_kept; [|exact Hlinks|constructor].
intros href text Hlen Hkw. cbn [link_text]. split; [done|].
apply existsb_exists in Hkw as (keyword & Hin & Hkw).
exists keyword. split; [by apply list_elem_of_In|done].
Qed.

Lemma extract_stripped_trimmed pattern html_content dflt v :
trimmed dflt → extract_stripped pattern html_content dflt = Return v → trimmed v.
Proof.
intros Hd. unfold extract_stripped.
destruct (search pattern html_content IGNORECASE) as [mt|]; [|by intros [= <-]].
unfold group1_strip. destruct (group mt 1) as [g|]; [|done].
intros [= <-]. apply strip_trimmed.
Qed.

(** X14. Title and description of a guide page have no white space at either
    end, whether they were found in the text or are the defaults. *)
Theorem title_and_description_are_trimmed (html_content : str) (source_url : string) :
∃ info,
  parse_implementation_guide_html html_content source_url = Return info
  ∧ trimmed (info_title info) ∧ trimmed (info_description info).
Proof.
unfold parse_implementation_guide_html.
destruct (extract_stripped title_pattern html_content (u "Unknown Title"))
  as [title|e] eqn:Ht.
2:{ destruct (extract_stripped_returns title_pattern html_content (u "Unknown Title"))
      as [v Hv]; [reflexivity|congruence]. }
destruct (extract_stripped desc_pattern html_content []) as [description|e] eqn:Hd.
2:{ destruct (extract_stripped_returns desc_pattern html_content [])
      as [v Hv]; [reflexivity|congruence]. }
destruct (collect_sections_returns html_content) as [sections ->].
destruct (fold_add_link_returns (findall link_pattern html_content IGNORECASE) [])
  as [useful_links ->].
{ intros item Hin. apply findall_two_groups in Hin as (s0 & s1 & c & _ & ->); [|done].
  eauto. }
cbn [mbind outcome_bind Py.bind]. eexists. split; [reflexivity|].
cbn [info_title info_description]. split.
- eapply extract_stripped_trimmed; [|exact Ht].
  split; [intros x t [= <- _]; reflexivity|].
  intros t x H. apply (f_equal (@rev char)) in H. rewrite rev_app_distr in H.
  cbn in H. by injection H as <-.
- eapply extract_stripped_trimmed; [|exact Hd].
  split; [done|]. intros [|y t] x [=].
Qed.

End GuideInvariants.

Module SpaceFacts.
Import TextSpec Py Unicode Re ReSpec ReFacts Str SMARTGuidelinesClient GuideFacts PageSpec.
Import ParseSpec ParseFacts CleanFacts.

Section Space.
Context {db : Database}.

(** The greedy run of white space is what [lstrip] removes. *)
Lemma star_space_lstrip t c :
star NOFLAG space (λ s' c', Some (s', c')) t c = Some (lstrip t, c).
Proof.
induction t as [|x t IH]; cbn [star lstrip]; [done|].
rewrite space_match. destruct (isspace x); [by rewrite IH|done].
Qed.

Lemma match_here_whitespace_run x t :
match_here NOFLAG whitespace_run (x :: t)
= if isspace x then Some (lstrip t, []) else None.
Proof.
unfold match_here, whitespace_run. cbn [m]. rewrite space_match.
destruct (isspace x); [apply star_space_lstrip|done].
Qed.

Lemma lstrip_length t : (length (lstrip t) ≤ length t)%nat.
Proof. apply suffix_length, lstrip_suffix. Qed.

Lemma lstrip_last l z : isspace z = false → lstrip (l ++ [z]) = lstrip l ++ [z].
Proof.
intros Hz. induction l as [|y l IH]; cbn [lstrip app]; [by rewrite Hz|].
by destruct (isspace y).
Qed.

Lemma collapsed_space x t :
isspace x = true → collapsed (x :: t) = code " " :: collapsed (lstrip t).
Proof.
intros Hx. unfold collapsed at 1. cbn [sub_from search_from].
rewrite match_here_whitespace_run, Hx.
replace (length (x :: t) - length (x :: t))%nat with 0%nat by lia.
cbn [take app].
replace (length (lstrip t) <? length (x :: t))%nat with true.
2:{ symmetry. apply Nat.ltb_lt. pose proof (lstrip_length t). cbn [length]. lia. }
f_equal. unfold collapsed.
apply sub_from_fuel; pose proof (lstrip_length t); cbn [length]; lia.
Qed.

Lemma collapsed_other x t :
isspace x = false → collapsed (x :: t) = x :: collapsed t.
Proof.
intros Hx. unfold collapsed at 1.
rewrite sub_from_skip by (by rewrite match_here_whitespace_run, Hx).
f_equal. unfold collapsed. apply sub_from_fuel; cbn [length]; lia.
Qed.

Lemma last_of_cons (x : char) t t0 z :
x :: t = t0 ++ [z] → (t = [] ∧ x = z) ∨ ∃ t1, t = t1 ++ [z].
Proof.
destruct t as [|y t] using rev_ind.
- destruct t0 as [|? [|??]]; intros [=]; auto.
- clear IHt. intros H. right. exists t.
  change (x :: t ++ [y]) with ((x :: t) ++ [y]) in H.
  apply app_inj_tail in H as [_ ->]. done.
Qed.

Lemma collapsed_spec n : ∀ s, (length s < n)%nat →
single_spaced (collapsed s)
∧ (s = [] → collapsed s = [])
∧ (∀ x t, s = x :: t → isspace x = false → ∃ t', collapsed s = x :: t')
∧ (∀ t x, s = t ++ [x] → isspace x = false → ∃ t', collapsed s = t' ++ [x]).
Proof.
induction n as [|n IH]; intros s Hn; [lia|].
destruct s as [|x t].
- split; [exact I|]. split; [done|]. split; [done|]. by intros [|??] ? [=].
- cbn [length] in Hn. destruct (isspace x) eqn:Hx.
  + rewrite (collapsed_space _ _ Hx).
    pose proof (lstrip_length t) as Hl.
    destruct (IH (lstrip t)) as (Hs & Hnil & Hhead & Hlast); [lia|].
    split; [|split; [done|split]].
    * cbn [single_spaced]. split; [|exact Hs]. intros _. split; [done|].
      destruct (lstrip t) as [|y t2] eqn:Hlt; [by rewrite Hnil|].
      destruct (Hhead y t2 eq_refl) as [t' ->]; by eapply lstrip_head.
    * intros x' t' [= <- <-] Hx'. congruence.
    * intros t0 z Heq Hz.
      apply last_of_cons in Heq as [[_ ->]|[t1 ->]]; [congruence|].
      destruct (Hlast (lstrip t1) z) as [t' ->]; [by rewrite lstrip_last|done|].
      by exists (code " " :: t').
  + rewrite (collapsed_other _ _ Hx).
    destruct (IH t) as (Hs & Hnil & Hhead & Hlast); [lia|].
    split; [|split; [done|split]].
    * cbn [single_spaced]. split; [congruence|exact Hs].
    * intros x' t' [= <- <-] _. by eexists.
    * intros t0 z Heq Hz.
      apply last_of_cons in Heq as [[-> ->]|[t1 ->]].
      { exists []. by rewrite Hnil. }
      destruct (Hlast t1 z) as [t' ->]; [done..|].
      by exists (x :: t').
Qed.

(** Collapsing the white space of a stripped text leaves single blanks and
    no white space at either end. *)
Lemma sub_whitespace_strip text :
single_spaced (sub whitespace_run (u " ") (strip text))
∧ trimmed (sub whitespace_run (u " ") (strip text)).
Proof.
unfold sub. fold (collapsed (strip text)).
destruct (collapsed_spec (S (length (strip text))) (strip text))
  as (Hs & Hnil & Hhead & Hlast); [lia|].
split; [exact Hs|]. destruct (strip_trimmed text) as [Hfirst Hend].
unfold trimmed. split.
- intros y t' Hout. destruct (strip text) as [|x t] eqn:Hin.
  { by rewrite Hnil in Hout. }
  destruct (Hhead x t eq_refl) as [t2 Heq]; [by eapply Hfirst|].
  rewrite Heq in Hout. injection Hout as <- _. by eapply Hfirst.
- intros t' y Hout. destruct (decide (strip text = [])) as [Hin|Hin].
  { rewrite Hnil in Hout by done. by destruct t'. }
  destruct (exists_last Hin) as (t & x & Hlast_in).
  destruct (Hlast t x Hlast_in) as [t2 Heq]; [by eapply Hend|].
  rewrite Heq in Hout. apply app_inj_tail in Hout as [_ <-]. by eapply Hend.
Qed.

End Space.

End SpaceFacts.

(* ================================================================== *)
(** * What the downloads parser keeps *)
(* ================================================================== *)

Module DownloadFacts.
Import TextSpec Py Unicode Re ReSpec ReFacts Str SMARTGuidelinesClient GuideFacts PageSpec.
Import ParseSpec ParseFacts CleanFacts SpaceFacts.

Section Downloads.
Context {db : Database}.

(** What [split] leaves after the last separator. *)
Lemma split_last_spec sep s :
(¬ code sep ∈ s ∧ split_last sep s = s)
∨ ∃ pre ext, s = pre ++ code sep :: ext ∧ ¬ code sep ∈ ext ∧ split_last sep s = ext.
Proof.
unfold split_last.
assert (∀ l acc,
          let r := fold_left (λ field x, if (x =? code sep)%N then [] else field ++ [x])
                             l acc in
          (¬ code sep ∈ l ∧ r = acc ++ l)
          ∨ ∃ pre ext, l = pre ++ code sep :: ext ∧ ¬ code sep ∈ ext ∧ r = ext) as H.
{ induction l as [|y l IH]; intros acc; cbn [fold_left].
  - left. split; [apply not_elem_of_nil|by rewrite app_nil_r].
  - destruct (N.eqb_spec y (code sep)) as [->|Hy].
    + right. destruct (IH []) as [[Hl Hr]|(pre & ext & -> & Hext & Hr)].
      * exists [], l. done.
      * exists (code sep :: pre), ext. done.
    + destruct (IH (acc ++ [y])) as [[Hl Hr]|(pre & ext & -> & Hext & Hr)].
      * left. split; [|by rewrite Hr, <- app_assoc].
        intros [?|?]%elem_of_cons; [congruence|done].
      * right. exists (y :: pre), ext. done. }
destruct (H s []) as [[? ?]|?]; [by left|by right].
Qed.

Lemma contains_char c l : contains [c] l = true ↔ c ∈ l.
Proof.
unfold contains. induction l as [|y l IH]; cbn [occurs_in starts_with].
- split; [done|]. by intros ?%elem_of_nil.
- rewrite andb_true_r, orb_true_iff, IH, elem_of_cons, N.eqb_eq. done.
Qed.

(** The format of a file is the format of its URL. *)
Lemma file_ext_format url :
format_of url
  (if contains (u ".") url then Str.lower (split_last "." url) else u "unknown").
Proof.
change (u ".") with [code "."].
destruct (contains [code "."] url) eqn:Hdot.
- right. apply contains_char in Hdot.
  destruct (split_last_spec "." url) as [[Hno _]|(pre & ext & -> & Hext & ->)]; [done|].
  by exists pre, ext.
- left. split; [|done]. intros Hin%contains_char. congruence.
Qed.

Lemma add_file_kept files formats item files' formats' :
add_file (files, formats) item = (files', formats') →
(files' = files ∧ formats' = formats)
∨ ∃ url description,
    let clean_desc := sub whitespace_run (u " ") (strip description) in
    let file_ext :=
      if contains (u ".") url then Str.lower (split_last "." url) else u "unknown" in
    files' = files ++ [{| file_url := url; file_description := clean_desc;
                          file_format := file_ext |}]
    ∧ formats' = {[ file_ext ]} ∪ formats
    ∧ (3 < len clean_desc)%nat.
Proof.
destruct item as [text|[|url [|description rest]]]; cbn [add_file];
  try (intros [= <- <-]; by left).
destruct (3 <? _)%nat eqn:Hlen; intros [= <- <-]; [right|by left].
exists url, description. apply Nat.ltb_lt in Hlen. done.
Qed.

Lemma fold_add_file_kept items : ∀ downloads,
downloads_kept downloads → downloads_kept (fold_left add_file items downloads).
Proof.
induction items as [|item items IH]; intros [files formats] Hkept; cbn [fold_left]; [done|].
apply IH. destruct (add_file (files, formats) item) as [files' formats'] eqn:Hadd.
apply add_file_kept in Hadd as [[-> ->]|(url & description & -> & -> & Hlen)]; [done|].
destruct Hkept as [Hformats Hfiles]. cbn [fst snd] in *. split; cbn [fst snd].
- rewrite fmap_app, list_to_set_app_L, Hformats. cbn [fmap list_fmap list_to_set].
  rewrite (right_id_L ∅ (∪)). apply (comm_L (∪)).
- apply Forall_app. split; [done|]. constructor; [|done]. cbn.
  destruct (sub_whitespace_strip description) as [Hs Ht].
  repeat split; try done; try apply Ht. apply file_ext_format.
Qed.

Lemma files_of_kept patterns html_content : downloads_kept (files_of patterns html_content).
Proof.
unfold files_of.
assert (∀ downloads, downloads_kept downloads →
          downloads_kept
            (fold_left (λ downloads pattern,
                          fold_left add_file (findall pattern html_content IGNORECASE)
                                    downloads) patterns downloads)) as H.
{ induction patterns as [|p patterns IH]; intros downloads Hk; cbn [fold_left]; [done|].
  apply IH. by apply fold_add_file_kept. }
apply H. split; [done|constructor].
Qed.

Lemma parse_downloads_html_files html_content source_url :
(dl_files (parse_downloads_html html_content source_url),
 dl_formats (parse_downloads_html html_content source_url))
= files_of download_patterns html_content.
Proof.
unfold parse_downloads_html. fold (files_of download_patterns html_content).
by destruct (files_of download_patterns html_content).
Qed.

End Downloads.

End DownloadFacts.

Section DownloadInvariants.
Import TextSpec Py Unicode Re ReSpec ReFacts Str SMARTGuidelinesClient GuideFacts PageSpec.
Import ParseSpec ParseFacts CleanFacts SpaceFacts DownloadFacts Examples.
Context {db : Database}.

(** X15. The formats of a downloads page are exactly the formats of its
    files; every file has a description longer than 3 characters (code
    points), and its format is the lower-case form, as [str.lower] gives
    it, of what follows the last dot of its URL, or unknown when the URL
    has no dot. With the tables of Python 3.11, of two downloads described
    by three and by four accented letters the second only is a file, and
    the capital accented letter of its extension is made small. *)
Theorem downloads_formats_match_files (html_content : str) (source_url : string) :
dl_formats (parse_downloads_html html_content source_url)
= list_to_set (file_format <$> dl_files (parse_downloads_html html_content source_url))
∧ Forall (λ f, (3 < len (file_description f))%nat
               ∧ format_of (file_url f) (file_format f))
         (dl_files (parse_downloads_html html_content source_url))
∧ dl_files (parse_downloads_html (db := python311_latin1) accented_downloads "")
  = [{| file_url := u "full." ++ [201%N] ++ u "X";
        file_description := [233; 224; 252; 246]%N;
        file_format := [e_acute] ++ u "x" |}].
Proof.
pose proof (files_of_kept download_patterns html_content) as [Hformats Hfiles].
rewrite <- parse_downloads_html_files with (source_url := source_url) in Hformats, Hfiles.
cbn [fst snd] in *. split; [exact Hformats|]. split; [|by vm_compute].
eapply Forall_impl; [exact Hfiles|]. intros f (? & _ & _ & ?). done.
Qed.

(** X16. Only the first two download patterns ever yield a file: for every
    text, the files and formats are those the first two patterns give, and
    what the third pattern finds changes nothing. *)
Theorem downloads_from_two_patterns (html_content : str) (source_url : string) :
(dl_files (parse_downloads_html html_content source_url),
 dl_formats (parse_downloads_html html_content source_url))
= files_of (take 2 download_patterns) html_content.
Proof.
rewrite parse_downloads_html_files. unfold files_of, download_patterns.
cbn [take fold_left]. apply fold_add_file_strings. by apply findall_one_group.
Qed.

(** X17. The texts shown for links and downloads are normalised: a link
    text and a file description have no white space at either end, and
    inside them the only white space is the blank (U+0020), never two in a
    row, white space being what the class \s of the Unicode database
    holds. With the tables of Python 3.11 the no-break spaces and the
    next-line character around and between two words are removed or made
    one blank. *)
Theorem shown_texts_are_normalised (html_content : str) (source_url : string) :
(∃ info,
   parse_implementation_guide_html html_content source_url = Return info
   ∧ Forall (λ l, single_spaced (link_text l) ∧ trimmed (link_text l))
            (info_links info))
∧ Forall (λ f, single_spaced (file_description f) ∧ trimmed (file_description f))
         (dl_files (parse_downloads_html html_content source_url))
∧ (∃ info,
     parse_implementation_guide_html (db := python311_latin1) spaced_link ""
     = Return info
     ∧ info_links info = [{| link_url := u "/g"; link_text := u "User Guide" |}]).
Proof.
split; [|split; [|eexists; by vm_compute]].
- unfold parse_implementation_guide_html.
  destruct (extract_stripped_returns title_pattern html_content (u "Unknown Title"))
    as [title ->]; [reflexivity|].
  destruct (extract_stripped_returns desc_pattern html_content [])
    as [description ->]; [reflexivity|].
  destruct (collect_sections_returns html_content) as [sections ->].
  destruct (fold_outcome add_link (findall link_pattern html_content IGNORECASE) [])
    as [useful_links|e] eqn:Hlinks.
  2:{ destruct (fold_add_link_returns (findall link_pattern html_content IGNORECASE) [])
        as [ul Hul]; [|congruence].
      intros item Hin.
      apply findall_two_groups in Hin as (s0 & s1 & c & _ & ->); [|done]. eauto. }
  cbn [mbind outcome_bind Py.bind]. eexists. split; [reflexivity|].
  cbn [info_links]. apply Forall_take.
  eapply fold_add_link_kept; [|exact Hlinks|constructor].
  intros href text _ _. cbn [link_text]. apply sub_whitespace_strip.
- pose proof (files_of_kept download_patterns html_content) as [_ Hfiles].
  rewrite <- parse_downloads_html_files with (source_url := source_url) in Hfiles.
  cbn [fst] in Hfiles. eapply Forall_impl; [exact Hfiles|].
  intros f (_ & ? & ? & _). done.
Qed.

End DownloadInvariants.

(* ================================================================== *)
(** * The FHIR searches *)
(* ================================================================== *)

Section FhirClaims.
Import Py Fhir FhirSpec SMARTGuidelinesClient.







End FhirClaims.
